(** * Intake form core of [uid.tsx]: sanitisation, identifier generation,
      step validation, client-side triage, and the handlers of the page.

    The development is a shallow embedding of the helpers of [src/uid.tsx]
    ([sanitizeInput], [generateSecureId], [getCsrfToken], [validateStep],
    [computeClassification]) and of the handlers of the page component
    ([next], [prev], [toggleArrayField], [handleSubmit] and the field
    updates of the form), together with the fragment of the JavaScript
    string and regular-expression semantics they rely on. *)

From Stdlib Require Import NArith ZArith.
From stdpp Require Import base decidable list strings pretty gmap.

Local Open Scope N_scope.

(** ** JavaScript strings

    A JavaScript string is a sequence of UTF-16 code units; [length],
    [slice], [trim], [replace] and regular expressions without the [u] flag
    all work on code units. *)

Module JS.

Definition jsstring := list N.

(** An ASCII source literal read as a JavaScript string. *)
Definition lit (s : string) : jsstring :=
  map Ascii.N_of_ascii (String.list_ascii_of_string s).

(** ECMAScript [WhiteSpace] and [LineTerminator] code points: the set
    stripped by [String.prototype.trim] and matched by [\s]. *)
Definition isWhiteSpace (c : N) : bool :=
  (c =? 0x09) || (c =? 0x0A) || (c =? 0x0B) || (c =? 0x0C) || (c =? 0x0D)
  || (c =? 0x20) || (c =? 0xA0) || (c =? 0x1680)
  || ((0x2000 <=? c) && (c <=? 0x200A))
  || (c =? 0x2028) || (c =? 0x2029) || (c =? 0x202F) || (c =? 0x205F)
  || (c =? 0x3000) || (c =? 0xFEFF).

Fixpoint trimStart (s : jsstring) : jsstring :=
  match s with
  | c :: s' => if isWhiteSpace c then trimStart s' else s
  | [] => []
  end.

(** [trimEnd] drops the white-space suffix. *)
Definition trimEnd (s : jsstring) : jsstring :=
  reverse (trimStart (reverse s)).

Definition trim (s : jsstring) : jsstring := trimEnd (trimStart s).

(** [s.slice(0, n)] for a non-negative [n]. *)
Definition slice0 (n : nat) (s : jsstring) : jsstring := take n s.

(** [s.replace(/c/g, r)] for a one-unit pattern [c] and a replacement [r]
    without [$] patterns. *)
Definition replaceAll (c : N) (r : jsstring) (s : jsstring) : jsstring :=
  flat_map (fun x => if x =? c then r else [x]) s.

(** Truthiness of a string value: only the empty string is falsy. *)
Definition truthy (s : jsstring) : bool :=
  match s with [] => false | _ => true end.

(** Truthiness of an optional ([?:]) string: [undefined] is falsy. *)
Definition truthy_opt (o : option jsstring) : bool :=
  match o with Some s => truthy s | None => false end.

End JS.
Export JS.

(** ** Regular expressions

    The fragment of ECMAScript regular expressions used by the validators:
    assertions [^] and [$] (no [m] flag), one-unit matchers (a literal, a
    class, [\d], [\s]), sequence, alternation, greedy [?], greedy [+] on a
    class, and the bounded repetitions [{n}] and [{n,m}]. Matching is the
    backtracking matcher of the language specification written in
    continuation-passing style: the continuation receives the position and
    the rest of the input. *)

Module RegExp.

Inductive regex : Type :=
  | Eps
  | Bol
  | Eol
  | Chr (cls : N -> bool)
  | Seq (a b : regex)
  | Alt (a b : regex)
  | Opt (a : regex)
  | Plus (cls : N -> bool).

Definition cont := nat -> jsstring -> bool.

(** Greedy iteration of a class: take one unit, then first try to take
    more, and otherwise go on with the continuation. *)
Fixpoint plus_loop (cls : N -> bool) (k : cont) (i : nat) (s : jsstring) : bool :=
  match s with
  | x :: s' => cls x && (plus_loop cls k (S i) s' || k (S i) s')
  | [] => false
  end.

Fixpoint run (r : regex) (k : cont) (i : nat) (s : jsstring) : bool :=
  match r with
  | Eps => k i s
  | Bol => Nat.eqb i 0 && k i s
  | Eol => match s with [] => k i s | _ :: _ => false end
  | Chr cls => match s with x :: s' => cls x && k (S i) s' | [] => false end
  | Seq a b => run a (run b k) i s
  | Alt a b => run a k i s || run b k i s
  | Opt a => run a k i s || k i s
  | Plus cls => plus_loop cls k i s
  end.

Definition accept : cont := fun _ _ => true.

(** A match attempt starting at index [i] of [s]. *)
Definition matchAt (r : regex) (s : jsstring) (i : nat) : bool :=
  run r accept i (drop i s).

(** [r.test(s)] for a regular expression without [g] or [y] flag: some
    start index [0 .. s.length] gives a match. *)
Definition test (r : regex) (s : jsstring) : bool :=
  existsb (matchAt r s) (seq 0 (S (length s))).

(** [r{n}] *)
Fixpoint times (n : nat) (r : regex) : regex :=
  match n with
  | O => Eps
  | S n' => Seq r (times n' r)
  end.

(** At most [n] further greedy repetitions of [r]. *)
Fixpoint upto (n : nat) (r : regex) : regex :=
  match n with
  | O => Eps
  | S n' => Opt (Seq r (upto n' r))
  end.

(** [r{n,m}] *)
Definition between (n m : nat) (r : regex) : regex :=
  Seq (times n r) (upto (m - n) r).

Fixpoint seqs (rs : list regex) : regex :=
  match rs with
  | [] => Eps
  | [r] => r
  | r :: rs' => Seq r (seqs rs')
  end.

(** One-unit matchers. [code "@"] is the code unit of a one-character
    source literal. *)
Definition code (a : string) : N :=
  match lit a with x :: _ => x | [] => 0 end.
Definition only (a : string) : N -> bool := fun c => c =? code a.
Definition inRange (lo hi : string) : N -> bool :=
  fun c => (code lo <=? c) && (c <=? code hi).
Definition digit : N -> bool := inRange "0" "9".
Definition space : N -> bool := isWhiteSpace.
Definition union (p q : N -> bool) : N -> bool := fun c => p c || q c.
Definition inverted (p : N -> bool) : N -> bool := fun c => negb (p c).

(** [Canonicalize] without the [u] flag is [toUpperCase] on one code unit,
    except that a unit of 128 or more is never mapped below 128. On the
    units below 128 that is [a-z] to [A-Z]; no unit of 128 or more is
    mapped onto white space, and every class member below is ASCII or
    white space, so the units of 128 or more are left alone here. *)
Definition canonicalize (c : N) : N :=
  if inRange "a" "z" c then c - 0x20 else c.

(** A one-unit matcher under the [i] flag, for a class whose members are
    their own canonical form. *)
Definition icase (p : N -> bool) : N -> bool := fun c => p (canonicalize c).

End RegExp.
Export RegExp.

(** ** Constants and the intake record ([IntakeData]) *)

Definition MAX_TEXT_LENGTH : N := 5000.
Definition MAX_NAME_LENGTH : N := 100.

Inductive AgeBand :=
  under18 | age18to24 | age25to34 | age35to44 | age45to54 | age55to64 | age65plus.
Inductive EmploymentStatus :=
  employed | selfEmployed | unemployed | student | carer | retired | unableToWork.
Inductive RelationshipStatus :=
  single | inRelationship | marriedCivil | separated | divorced | widowed.
Inductive Housing := secure | temporary | sofaSurfing | atRisk | homeless.
Inductive Dependents := noDependents | children | adultDependents | bothDependents.
Inductive Severity := low | moderate | high | crisis.
Inductive PreferredContact := byEmail | byPhone | bySms.
Inductive Source := web | facebook | referral | walkIn | otherSource.

Record RiskFlags := {
  selfHarm : bool;
  harmToOthers : bool;
  domesticAbuse : bool;
  substanceRisk : bool
}.

Record Consent := {
  privacyPolicyAccepted : bool;
  shareWithPartners : bool;
  anonymisedInsights : bool;
  crisisProtocolOk : bool
}.

(** Optional ([?:]) fields are options; [None] is [undefined]. *)
Record IntakeData := {
  firstName : jsstring;
  lastName : jsstring;
  pronouns : option jsstring;
  email : jsstring;
  phone : option jsstring;
  postcode : option jsstring;
  ageBand : option AgeBand;

  employmentStatus : option EmploymentStatus;
  relationshipStatus : option RelationshipStatus;
  housing : option Housing;
  dependents : option Dependents;

  concerns : list jsstring;
  concernDetails : option jsstring;
  severity : option Severity;
  riskFlags : RiskFlags;
  gpRegistered : option bool;

  supportPreferences : list jsstring;
  availability : option jsstring;
  preferredContact : option PreferredContact;

  consent : Consent;
  source : option Source
}.

#[global] Instance Severity_eq_dec : EqDecision Severity.
Proof. solve_decision. Defined.
#[global] Instance Housing_eq_dec : EqDecision Housing.
Proof. solve_decision. Defined.
#[global] Instance EmploymentStatus_eq_dec : EqDecision EmploymentStatus.
Proof. solve_decision. Defined.

(** [d.field === "value"] on an optional enum field. *)
Definition eqs {A} `{EqDecision A} (o : option A) (v : A) : bool :=
  bool_decide (o = Some v).

(** Truthiness of an optional enum or boolean-free field: every enum
    value is a non-empty string, so only [undefined] is falsy. *)
Definition defined {A} (o : option A) : bool :=
  match o with Some _ => true | None => false end.

(** ** Security helpers *)

(** [sanitizeInput]: five global replacements in source order, then
    [trim], then [slice(0, MAX_TEXT_LENGTH)]. The double quote is given by
    its code unit 0x22. *)
Definition sanitizeInput (input : jsstring) : jsstring :=
  let s := replaceAll (code "<") (lit "&lt;") input in
  let s := replaceAll (code ">") (lit "&gt;") s in
  let s := replaceAll 0x22 (lit "&quot;") s in
  let s := replaceAll (code "'") (lit "&#x27;") s in
  let s := replaceAll (code "/") (lit "&#x2F;") s in
  let s := trim s in
  slice0 (N.to_nat MAX_TEXT_LENGTH) s.

(** The part of the environment [generateSecureId] can observe. A method
    of [crypto] is [None] when the property is missing; [randomUUID] holds
    the string the call returns, [getRandomValues] the value the random
    source writes at each index of the array it is given. [Date_now] is
    the wall clock, which is in scope for every function of the page. *)
Record Crypto := {
  randomUUID : option jsstring;
  getRandomValues : option (nat -> N)
}.

Record Env := {
  crypto : option Crypto;
  Date_now : N
}.

Inductive result (A : Type) :=
  | Return (a : A)
  | Throw (message : string).
Arguments Return {A} a.
Arguments Throw {A} message.

(** [new Uint8Array(n)]: [n] zero bytes; a store keeps the low 8 bits. *)
Definition Uint8Array (n : nat) : list N := replicate n 0.
Definition store8 (i : nat) (v : N) (a : list N) : list N :=
  <[i := v mod 256]> a.
Definition load8 (i : nat) (a : list N) : N := default 0 (a !! i).
Definition fillRandom (g : nat -> N) (a : list N) : list N :=
  imap (fun i _ => g i mod 256) a.

Definition hexDigit (n : N) : N :=
  nth (N.to_nat n) (lit "0123456789abcdef") (code "0").

(** [b.toString(16)] for an element of a [Uint8Array] (below 256). *)
Definition toString16 (b : N) : jsstring :=
  if b <? 16 then [hexDigit b] else [hexDigit (b / 16); hexDigit (b mod 16)].

Definition padStart (n : nat) (p : N) (s : jsstring) : jsstring :=
  replicate (n - length s) p ++ s.

(** [s.slice(a, b)] and [s.slice(a)] for indices within the string. *)
Definition slice (a b : nat) (s : jsstring) : jsstring := take (b - a) (drop a s).
Definition sliceFrom (a : nat) (s : jsstring) : jsstring := drop a s.

Definition uuidOfBytes (bytes : list N) : jsstring :=
  let hex := concat (map (fun b => padStart 2 (code "0") (toString16 b)) bytes) in
  slice 0 8 hex ++ lit "-" ++ slice 8 12 hex ++ lit "-" ++ slice 12 16 hex
    ++ lit "-" ++ slice 16 20 hex ++ lit "-" ++ sliceFrom 20 hex.

Definition stampVersion (bytes : list N) : list N :=
  let bytes := store8 6 (N.lor (N.land (load8 6 bytes) 0x0f) 0x40) bytes in
  store8 8 (N.lor (N.land (load8 8 bytes) 0x3f) 0x80) bytes.

Definition generateSecureId (env : Env) : result jsstring :=
  match crypto env with
  | Some c =>
      match randomUUID c with
      | Some uuid => Return uuid
      | None =>
          match getRandomValues c with
          | Some g =>
              let bytes := Uint8Array 16 in
              let bytes := fillRandom g bytes in
              Return (uuidOfBytes (stampVersion bytes))
          | None => Throw "Crypto API not available"
          end
      end
  | None => Throw "Crypto API not available"
  end.

(** ** Validators *)

(** A literal run of characters in a pattern. *)
Definition word (s : string) : regex :=
  seqs (map (fun c => Chr (N.eqb c)) (lit s)).

(** [[^\s@]] *)
Definition notSpaceAt : N -> bool := inverted (union space (only "@")).

(** [/^[^\s@]+@[^\s@]+\.[^\s@]+$/i] *)
Definition emailRe : regex :=
  seqs [Bol; Plus (icase notSpaceAt); Chr (icase (only "@"));
        Plus (icase notSpaceAt); Chr (icase (only "."));
        Plus (icase notSpaceAt); Eol].

(** [/^(\+44\s?7\d{3}|07\d{3})\s?\d{3}\s?\d{3}$|^(\+44\s?1\d{3}|01\d{3}|\+44\s?2\d{2}|02\d{2})\s?\d{3,4}\s?\d{3,4}$/] *)
Definition ukPhoneRe : regex :=
  Alt
    (seqs [Bol;
           Alt (seqs [word "+44"; Opt (Chr space); word "7"; times 3 (Chr digit)])
               (seqs [word "07"; times 3 (Chr digit)]);
           Opt (Chr space); times 3 (Chr digit);
           Opt (Chr space); times 3 (Chr digit); Eol])
    (seqs [Bol;
           Alt (seqs [word "+44"; Opt (Chr space); word "1"; times 3 (Chr digit)])
          (Alt (seqs [word "01"; times 3 (Chr digit)])
          (Alt (seqs [word "+44"; Opt (Chr space); word "2"; times 2 (Chr digit)])
               (seqs [word "02"; times 2 (Chr digit)])));
           Opt (Chr space); between 3 4 (Chr digit);
           Opt (Chr space); between 3 4 (Chr digit); Eol]).

(** [/^[A-Z]{1,2}\d[A-Z\d]?\s?\d[A-Z]{2}$/i] *)
Definition postcodeRe : regex :=
  seqs [Bol; between 1 2 (Chr (icase (inRange "A" "Z")));
        Chr (icase digit);
        Opt (Chr (icase (union (inRange "A" "Z") digit)));
        Opt (Chr (icase space));
        Chr (icase digit);
        times 2 (Chr (icase (inRange "A" "Z"))); Eol].

(** The error object [Record<string, string>] is threaded through the
    assignments of [validateStep] as a state. *)
Definition stmt := gmap string string -> gmap string string.

(** [errors.key = message;] *)
Definition assign (key message : string) : stmt := fun errors => <[key := message]> errors.
(** [if (c) s] and [if (c) s else t] *)
Definition when (c : bool) (s : stmt) : stmt := fun errors => if c then s errors else errors.
Definition ifElse (c : bool) (s t : stmt) : stmt := fun errors => if c then s errors else t errors.
(** A block of statements run in order. *)
Definition block (ss : list stmt) : stmt := fun errors => fold_left (fun e s => s e) ss errors.

Definition numberToString (n : N) : string := pretty n.

Definition len (s : jsstring) : N := N.of_nat (length s).

Definition validateStep (step : Z) (d : IntakeData) : gmap string string :=
  block [
    when (step =? 1)%Z (block [
      ifElse (negb (truthy (trim (firstName d))))
        (assign "firstName" "First name is required")
        (when (MAX_NAME_LENGTH <? len (firstName d))
           (assign "firstName"
              ("First name must be less than " +:+ numberToString MAX_NAME_LENGTH +:+ " characters")));
      ifElse (negb (truthy (trim (lastName d))))
        (assign "lastName" "Last name is required")
        (when (MAX_NAME_LENGTH <? len (lastName d))
           (assign "lastName"
              ("Last name must be less than " +:+ numberToString MAX_NAME_LENGTH +:+ " characters")));
      when (negb (truthy (trim (email d))) || negb (test emailRe (email d)))
        (assign "email" "Enter a valid email address");
      when (truthy_opt (phone d) && negb (test ukPhoneRe (default [] (phone d))))
        (assign "phone" "Enter a valid UK phone number");
      when (truthy_opt (postcode d) && negb (test postcodeRe (default [] (postcode d))))
        (assign "postcode" "Enter a valid UK postcode (e.g., SW1A 1AA)")
    ]);
    when (step =? 2)%Z (block [
      when (negb (defined (employmentStatus d)))
        (assign "employmentStatus" "Select your current employment status");
      when (negb (defined (relationshipStatus d)))
        (assign "relationshipStatus" "Select your current relationship status");
      when (negb (defined (housing d)))
        (assign "housing" "Select your housing situation")
    ]);
    when (step =? 3)%Z (block [
      when (length (concerns d) =? 0)%nat
        (assign "concerns" "Pick at least one area you want help with");
      when (negb (defined (severity d)))
        (assign "severity" "How urgent/severe does this feel right now?");
      when (truthy_opt (concernDetails d)
            && (MAX_TEXT_LENGTH <? len (default [] (concernDetails d))))
        (assign "concernDetails"
           ("Details must be less than " +:+ numberToString MAX_TEXT_LENGTH +:+ " characters"))
    ]);
    when (step =? 4)%Z (block [
      when (negb (defined (preferredContact d)))
        (assign "preferredContact" "Choose how we should contact you")
    ]);
    when (step =? 5)%Z (block [
      when (negb (privacyPolicyAccepted (consent d)))
        (assign "privacy" "You must accept the Privacy Policy to continue");
      when (negb (crisisProtocolOk (consent d))
            && (eqs (severity d) high || eqs (severity d) crisis))
        (assign "crisis" "Please acknowledge the crisis protocol")
    ])
  ] ∅.

(** ** Client-side triage *)

Inductive Priority := Low | Medium | High | Immediate.

Record Classification := {
  riskScore : Z;
  buckets : list string;
  priority : Priority
}.

(** [new Set(d.concerns || [])] and [c.has(key)]. *)
Definition newSet (l : list jsstring) : gset jsstring := list_to_set l.
Definition has (c : gset jsstring) (key : string) : bool := bool_decide (lit key ∈ c).

(** [buckets.push(b)] *)
Definition push (b : string) (buckets : list string) : list string := buckets ++ [b].

Definition computeClassification (d : IntakeData) : Classification :=
  let riskScore := 0%Z in

  let riskScore := if eqs (severity d) moderate then (riskScore + 2)%Z else riskScore in
  let riskScore := if eqs (severity d) high then (riskScore + 4)%Z else riskScore in
  let riskScore := if eqs (severity d) crisis then (riskScore + 6)%Z else riskScore in

  let riskScore := if selfHarm (riskFlags d) then (riskScore + 6)%Z else riskScore in
  let riskScore := if domesticAbuse (riskFlags d) then (riskScore + 6)%Z else riskScore in
  let riskScore := if harmToOthers (riskFlags d) then (riskScore + 4)%Z else riskScore in
  let riskScore := if substanceRisk (riskFlags d) then (riskScore + 3)%Z else riskScore in

  let riskScore :=
    if eqs (housing d) homeless || eqs (housing d) atRisk
    then (riskScore + 3)%Z else riskScore in
  let riskScore :=
    if eqs (employmentStatus d) unemployed || eqs (employmentStatus d) unableToWork
    then (riskScore + 2)%Z else riskScore in

  let buckets : list string := [] in
  let c := newSet (concerns d) in

  let buckets := if has c "abuse" then push "Safety/Crisis" buckets else buckets in
  let buckets :=
    if has c "emotional" || has c "addiction"
    then push "Mental Health & Addiction" buckets else buckets in
  let buckets := if has c "employment" then push "Employment & Skills" buckets else buckets in
  let buckets := if has c "finance" then push "Money/Debt Advice" buckets else buckets in
  let buckets := if has c "housing" then push "Housing Support" buckets else buckets in
  let buckets :=
    if has c "relationships" then push "Family/Relationship Support" buckets else buckets in
  let buckets := if has c "health" then push "Physical Health Navigation" buckets else buckets in
  let buckets := if has c "social" then push "Connection/Peer Support" buckets else buckets in

  let priority :=
    if (12 <=? riskScore)%Z then Immediate
    else if (8 <=? riskScore)%Z then High
    else if (4 <=? riskScore)%Z then Medium
    else Low in

  {| riskScore := riskScore; buckets := buckets; priority := priority |}.

(** ** Reference definitions

    The scoring table, the threshold map and the bucket table written as
    tables, against which the code above is compared; and the record
    updates used to state what happens when one field changes. *)

Definition severityPoints (s : option Severity) : Z :=
  match s with
  | Some moderate => 2
  | Some high => 4
  | Some crisis => 6
  | Some low | None => 0
  end%Z.

Definition flagPoints (weight : Z) (flag : bool) : Z :=
  if flag then weight else 0%Z.

Definition housingPoints (h : option Housing) : Z :=
  match h with
  | Some homeless | Some atRisk => 3
  | _ => 0
  end%Z.

Definition employmentPoints (e : option EmploymentStatus) : Z :=
  match e with
  | Some unemployed | Some unableToWork => 2
  | _ => 0
  end%Z.

Definition priorityOf (score : Z) : Priority :=
  if (12 <=? score)%Z then Immediate
  else if (8 <=? score)%Z then High
  else if (4 <=? score)%Z then Medium
  else Low.

(** Triggering concern keys and bucket name, in canonical order. *)
Definition BUCKET_RULES : list (list string * string) :=
  [ (["abuse"], "Safety/Crisis");
    (["emotional"; "addiction"], "Mental Health & Addiction");
    (["employment"], "Employment & Skills");
    (["finance"], "Money/Debt Advice");
    (["housing"], "Housing Support");
    (["relationships"], "Family/Relationship Support");
    (["health"], "Physical Health Navigation");
    (["social"], "Connection/Peer Support") ].

Definition BUCKET_ORDER : list string := snd <$> BUCKET_RULES.

(** A rule fires when one of its keys is selected; [selected] tells
    which keys are. *)
Definition fires (selected : string -> bool) (rule : list string * string) : bool :=
  existsb selected (fst rule).

Definition bucketsByTable (selected : string -> bool) : list string :=
  snd <$> filter (fun rule => fires selected rule) BUCKET_RULES.

Definition selectedIn (cs : list jsstring) : string -> bool :=
  fun key => bool_decide (lit key ∈ cs).

(** The record [d] with the five fields read by the classifier replaced. *)
Definition withTriage (d : IntakeData) (sev : option Severity) (rf : RiskFlags)
    (h : option Housing) (e : option EmploymentStatus) (cs : list jsstring) : IntakeData :=
  {| firstName := firstName d; lastName := lastName d; pronouns := pronouns d;
     email := email d; phone := phone d; postcode := postcode d; ageBand := ageBand d;
     employmentStatus := e; relationshipStatus := relationshipStatus d;
     housing := h; dependents := dependents d;
     concerns := cs; concernDetails := concernDetails d; severity := sev;
     riskFlags := rf; gpRegistered := gpRegistered d;
     supportPreferences := supportPreferences d; availability := availability d;
     preferredContact := preferredContact d; consent := consent d; source := source d |}.

Definition withSeverity (v : option Severity) (d : IntakeData) : IntakeData :=
  withTriage d v (riskFlags d) (housing d) (employmentStatus d) (concerns d).
Definition withRiskFlags (rf : RiskFlags) (d : IntakeData) : IntakeData :=
  withTriage d (severity d) rf (housing d) (employmentStatus d) (concerns d).
Definition withHousing (v : option Housing) (d : IntakeData) : IntakeData :=
  withTriage d (severity d) (riskFlags d) v (employmentStatus d) (concerns d).
Definition withEmploymentStatus (v : option EmploymentStatus) (d : IntakeData) : IntakeData :=
  withTriage d (severity d) (riskFlags d) (housing d) v (concerns d).
Definition withConcerns (cs : list jsstring) (d : IntakeData) : IntakeData :=
  withTriage d (severity d) (riskFlags d) (housing d) (employmentStatus d) cs.

Definition withSelfHarm (b : bool) (d : IntakeData) : IntakeData :=
  withRiskFlags {| selfHarm := b; harmToOthers := harmToOthers (riskFlags d);
                   domesticAbuse := domesticAbuse (riskFlags d);
                   substanceRisk := substanceRisk (riskFlags d) |} d.
Definition withHarmToOthers (b : bool) (d : IntakeData) : IntakeData :=
  withRiskFlags {| selfHarm := selfHarm (riskFlags d); harmToOthers := b;
                   domesticAbuse := domesticAbuse (riskFlags d);
                   substanceRisk := substanceRisk (riskFlags d) |} d.
Definition withDomesticAbuse (b : bool) (d : IntakeData) : IntakeData :=
  withRiskFlags {| selfHarm := selfHarm (riskFlags d);
                   harmToOthers := harmToOthers (riskFlags d);
                   domesticAbuse := b;
                   substanceRisk := substanceRisk (riskFlags d) |} d.
Definition withSubstanceRisk (b : bool) (d : IntakeData) : IntakeData :=
  withRiskFlags {| selfHarm := selfHarm (riskFlags d);
                   harmToOthers := harmToOthers (riskFlags d);
                   domesticAbuse := domesticAbuse (riskFlags d);
                   substanceRisk := b |} d.

(** Two records that differ at most in [concerns]. *)
Definition sameButConcerns (d1 d2 : IntakeData) : Prop :=
  d2 = withConcerns (concerns d2) d1.

(** The record the wizard starts from. *)
Definition initialData : IntakeData :=
  {| firstName := []; lastName := []; pronouns := Some []; email := [];
     phone := Some []; postcode := Some []; ageBand := None;
     employmentStatus := None; relationshipStatus := None; housing := None;
     dependents := Some noDependents;
     concerns := []; concernDetails := Some []; severity := None;
     riskFlags := {| selfHarm := false; harmToOthers := false;
                     domesticAbuse := false; substanceRisk := false |};
     gpRegistered := None;
     supportPreferences := []; availability := Some []; preferredContact := None;
     consent := {| privacyPolicyAccepted := false; shareWithPartners := false;
                   anonymisedInsights := true; crisisProtocolOk := false |};
     source := Some web |}.

(** The record [d] with the three required identity fields replaced. *)
Definition withIdentity (first last mail : jsstring) (d : IntakeData) : IntakeData :=
  {| firstName := first; lastName := last; pronouns := pronouns d;
     email := mail; phone := phone d; postcode := postcode d; ageBand := ageBand d;
     employmentStatus := employmentStatus d; relationshipStatus := relationshipStatus d;
     housing := housing d; dependents := dependents d;
     concerns := concerns d; concernDetails := concernDetails d; severity := severity d;
     riskFlags := riskFlags d; gpRegistered := gpRegistered d;
     supportPreferences := supportPreferences d; availability := availability d;
     preferredContact := preferredContact d; consent := consent d; source := source d |}.

(** The error mapping has an entry for [key]. *)
Definition reports (errors : gmap string string) (key : string) : Prop :=
  is_Some (errors !! key).

(** The [local@domain.tld] shape: three non-empty parts free of white
    space and of ["@"], joined by one ["@"] and one ["."]. *)
Definition plainUnit (c : N) : Prop := isWhiteSpace c = false ∧ c ≠ code "@".
Definition plainPart (p : jsstring) : Prop := p ≠ [] ∧ Forall plainUnit p.
Definition EmailShape (s : jsstring) : Prop :=
  ∃ loc domain tld : jsstring,
    s = loc ++ lit "@" ++ domain ++ lit "." ++ tld
    ∧ plainPart loc ∧ plainPart domain ∧ plainPart tld.

(** A string ends in white space. *)
Definition endsInSpace (s : jsstring) : Prop :=
  ∃ c, last s = Some c ∧ isWhiteSpace c = true.

(** The five units [sanitizeInput] replaces. *)
Definition escaped (c : N) : bool :=
  (c =? code "<") || (c =? code ">") || (c =? 0x22) || (c =? code "'") || (c =? code "/").

Definition startsClean (s : jsstring) : Prop :=
  match s with c :: _ => isWhiteSpace c = false | [] => True end.

(** The five replacements of [sanitizeInput] alone, without [trim] and
    [slice]. *)
Definition escapeHtml (input : jsstring) : jsstring :=
  replaceAll (code "/") (lit "&#x2F;")
    (replaceAll (code "'") (lit "&#x27;")
       (replaceAll 0x22 (lit "&quot;")
          (replaceAll (code ">") (lit "&gt;")
             (replaceAll (code "<") (lit "&lt;") input)))).

(** A text of 5001 units whose 5000th unit is a space. *)
Definition longText : jsstring := replicate 4999 (code "a") ++ lit " b".

(** An environment without any strong random source. *)
Definition noRandomSource (env : Env) : Prop :=
  crypto env = None
  ∨ ∃ c, crypto env = Some c ∧ randomUUID c = None ∧ getRandomValues c = None.

Definition withClock (t : N) (env : Env) : Env :=
  {| crypto := crypto env; Date_now := t |}.

(** Reading an identifier back: the value of a hexadecimal digit, the bytes
    spelled by consecutive digit pairs, and the 16 bytes of an identifier of
    the 8-4-4-4-12 layout. *)
Definition hexValue (c : N) : N :=
  if (code "0" <=? c) && (c <=? code "9") then c - code "0"
  else if (code "a" <=? c) && (c <=? code "f") then c - code "a" + 10
  else 0.

Fixpoint hexPairs (s : jsstring) : list N :=
  match s with
  | h :: l :: rest => (16 * hexValue h + hexValue l) :: hexPairs rest
  | _ => []
  end.

Definition uuidBytes (id : jsstring) : list N :=
  hexPairs (slice 0 8 id ++ slice 9 13 id ++ slice 14 18 id
              ++ slice 19 23 id ++ sliceFrom 24 id).

(** What the fallback keeps of the byte written at index [i]: everything,
    but for the four version bits of byte 6 and the two variant bits of
    byte 8, which are overwritten; 122 bits in all. *)
Definition keptBits (g : nat → N) (i : nat) : N :=
  if decide (i = 6%nat) then 0x40 + g i mod 16
  else if decide (i = 8%nat) then 0x80 + g i mod 64
  else g i mod 256.

(** ** The page component: state, field updates and handlers *)

Module Page.

(** [{ ...data, field: v }], one update per field. *)
Definition set_firstName (v : jsstring) (d : IntakeData) : IntakeData :=
  {| firstName := v; lastName := lastName d; pronouns := pronouns d; email := email d;
     phone := phone d; postcode := postcode d; ageBand := ageBand d; employmentStatus :=
     employmentStatus d; relationshipStatus := relationshipStatus d; housing := housing d;
     dependents := dependents d; concerns := concerns d; concernDetails := concernDetails d;
     severity := severity d; riskFlags := riskFlags d; gpRegistered := gpRegistered d;
     supportPreferences := supportPreferences d; availability := availability d;
     preferredContact := preferredContact d; consent := consent d; source := source d |}.
Definition set_lastName (v : jsstring) (d : IntakeData) : IntakeData :=
  {| firstName := firstName d; lastName := v; pronouns := pronouns d; email := email d;
     phone := phone d; postcode := postcode d; ageBand := ageBand d; employmentStatus :=
     employmentStatus d; relationshipStatus := relationshipStatus d; housing := housing d;
     dependents := dependents d; concerns := concerns d; concernDetails := concernDetails d;
     severity := severity d; riskFlags := riskFlags d; gpRegistered := gpRegistered d;
     supportPreferences := supportPreferences d; availability := availability d;
     preferredContact := preferredContact d; consent := consent d; source := source d |}.
Definition set_pronouns (v : option jsstring) (d : IntakeData) : IntakeData :=
  {| firstName := firstName d; lastName := lastName d; pronouns := v; email := email d;
     phone := phone d; postcode := postcode d; ageBand := ageBand d; employmentStatus :=
     employmentStatus d; relationshipStatus := relationshipStatus d; housing := housing d;
     dependents := dependents d; concerns := concerns d; concernDetails := concernDetails d;
     severity := severity d; riskFlags := riskFlags d; gpRegistered := gpRegistered d;
     supportPreferences := supportPreferences d; availability := availability d;
     preferredContact := preferredContact d; consent := consent d; source := source d |}.
Definition set_email (v : jsstring) (d : IntakeData) : IntakeData :=
  {| firstName := firstName d; lastName := lastName d; pronouns := pronouns d; email := v;
     phone := phone d; postcode := postcode d; ageBand := ageBand d; employmentStatus :=
     employmentStatus d; relationshipStatus := relationshipStatus d; housing := housing d;
     dependents := dependents d; concerns := concerns d; concernDetails := concernDetails d;
     severity := severity d; riskFlags := riskFlags d; gpRegistered := gpRegistered d;
     supportPreferences := supportPreferences d; availability := availability d;
     preferredContact := preferredContact d; consent := consent d; source := source d |}.
Definition set_phone (v : option jsstring) (d : IntakeData) : IntakeData :=
  {| firstName := firstName d; lastName := lastName d; pronouns := pronouns d; email :=
     email d; phone := v; postcode := postcode d; ageBand := ageBand d; employmentStatus :=
     employmentStatus d; relationshipStatus := relationshipStatus d; housing := housing d;
     dependents := dependents d; concerns := concerns d; concernDetails := concernDetails d;
     severity := severity d; riskFlags := riskFlags d; gpRegistered := gpRegistered d;
     supportPreferences := supportPreferences d; availability := availability d;
     preferredContact := preferredContact d; consent := consent d; source := source d |}.
Definition set_postcode (v : option jsstring) (d : IntakeData) : IntakeData :=
  {| firstName := firstName d; lastName := lastName d; pronouns := pronouns d; email :=
     email d; phone := phone d; postcode := v; ageBand := ageBand d; employmentStatus :=
     employmentStatus d; relationshipStatus := relationshipStatus d; housing := housing d;
     dependents := dependents d; concerns := concerns d; concernDetails := concernDetails d;
     severity := severity d; riskFlags := riskFlags d; gpRegistered := gpRegistered d;
     supportPreferences := supportPreferences d; availability := availability d;
     preferredContact := preferredContact d; consent := consent d; source := source d |}.
Definition set_ageBand (v : option AgeBand) (d : IntakeData) : IntakeData :=
  {| firstName := firstName d; lastName := lastName d; pronouns := pronouns d; email :=
     email d; phone := phone d; postcode := postcode d; ageBand := v; employmentStatus :=
     employmentStatus d; relationshipStatus := relationshipStatus d; housing := housing d;
     dependents := dependents d; concerns := concerns d; concernDetails := concernDetails d;
     severity := severity d; riskFlags := riskFlags d; gpRegistered := gpRegistered d;
     supportPreferences := supportPreferences d; availability := availability d;
     preferredContact := preferredContact d; consent := consent d; source := source d |}.
Definition set_employmentStatus (v : option EmploymentStatus) (d : IntakeData) : IntakeData :=
  {| firstName := firstName d; lastName := lastName d; pronouns := pronouns d; email :=
     email d; phone := phone d; postcode := postcode d; ageBand := ageBand d;
     employmentStatus := v; relationshipStatus := relationshipStatus d; housing := housing d;
     dependents := dependents d; concerns := concerns d; concernDetails := concernDetails d;
     severity := severity d; riskFlags := riskFlags d; gpRegistered := gpRegistered d;
     supportPreferences := supportPreferences d; availability := availability d;
     preferredContact := preferredContact d; consent := consent d; source := source d |}.
Definition set_relationshipStatus (v : option RelationshipStatus) (d : IntakeData) : IntakeData :=
  {| firstName := firstName d; lastName := lastName d; pronouns := pronouns d; email :=
     email d; phone := phone d; postcode := postcode d; ageBand := ageBand d;
     employmentStatus := employmentStatus d; relationshipStatus := v; housing := housing d;
     dependents := dependents d; concerns := concerns d; concernDetails := concernDetails d;
     severity := severity d; riskFlags := riskFlags d; gpRegistered := gpRegistered d;
     supportPreferences := supportPreferences d; availability := availability d;
     preferredContact := preferredContact d; consent := consent d; source := source d |}.
Definition set_housing (v : option Housing) (d : IntakeData) : IntakeData :=
  {| firstName := firstName d; lastName := lastName d; pronouns := pronouns d; email :=
     email d; phone := phone d; postcode := postcode d; ageBand := ageBand d;
     employmentStatus := employmentStatus d; relationshipStatus := relationshipStatus d;
     housing := v; dependents := dependents d; concerns := concerns d; concernDetails :=
     concernDetails d; severity := severity d; riskFlags := riskFlags d; gpRegistered :=
     gpRegistered d; supportPreferences := supportPreferences d; availability := availability
     d; preferredContact := preferredContact d; consent := consent d; source := source d |}.
Definition set_dependents (v : option Dependents) (d : IntakeData) : IntakeData :=
  {| firstName := firstName d; lastName := lastName d; pronouns := pronouns d; email :=
     email d; phone := phone d; postcode := postcode d; ageBand := ageBand d;
     employmentStatus := employmentStatus d; relationshipStatus := relationshipStatus d;
     housing := housing d; dependents := v; concerns := concerns d; concernDetails :=
     concernDetails d; severity := severity d; riskFlags := riskFlags d; gpRegistered :=
     gpRegistered d; supportPreferences := supportPreferences d; availability := availability
     d; preferredContact := preferredContact d; consent := consent d; source := source d |}.
Definition set_concerns (v : list jsstring) (d : IntakeData) : IntakeData :=
  {| firstName := firstName d; lastName := lastName d; pronouns := pronouns d; email :=
     email d; phone := phone d; postcode := postcode d; ageBand := ageBand d;
     employmentStatus := employmentStatus d; relationshipStatus := relationshipStatus d;
     housing := housing d; dependents := dependents d; concerns := v; concernDetails :=
     concernDetails d; severity := severity d; riskFlags := riskFlags d; gpRegistered :=
     gpRegistered d; supportPreferences := supportPreferences d; availability := availability
     d; preferredContact := preferredContact d; consent := consent d; source := source d |}.
Definition set_concernDetails (v : option jsstring) (d : IntakeData) : IntakeData :=
  {| firstName := firstName d; lastName := lastName d; pronouns := pronouns d; email :=
     email d; phone := phone d; postcode := postcode d; ageBand := ageBand d;
     employmentStatus := employmentStatus d; relationshipStatus := relationshipStatus d;
     housing := housing d; dependents := dependents d; concerns := concerns d; concernDetails
     := v; severity := severity d; riskFlags := riskFlags d; gpRegistered := gpRegistered d;
     supportPreferences := supportPreferences d; availability := availability d;
     preferredContact := preferredContact d; consent := consent d; source := source d |}.
Definition set_severity (v : option Severity) (d : IntakeData) : IntakeData :=
  {| firstName := firstName d; lastName := lastName d; pronouns := pronouns d; email :=
     email d; phone := phone d; postcode := postcode d; ageBand := ageBand d;
     employmentStatus := employmentStatus d; relationshipStatus := relationshipStatus d;
     housing := housing d; dependents := dependents d; concerns := concerns d; concernDetails
     := concernDetails d; severity := v; riskFlags := riskFlags d; gpRegistered :=
     gpRegistered d; supportPreferences := supportPreferences d; availability := availability
     d; preferredContact := preferredContact d; consent := consent d; source := source d |}.
Definition set_riskFlags (v : RiskFlags) (d : IntakeData) : IntakeData :=
  {| firstName := firstName d; lastName := lastName d; pronouns := pronouns d; email :=
     email d; phone := phone d; postcode := postcode d; ageBand := ageBand d;
     employmentStatus := employmentStatus d; relationshipStatus := relationshipStatus d;
     housing := housing d; dependents := dependents d; concerns := concerns d; concernDetails
     := concernDetails d; severity := severity d; riskFlags := v; gpRegistered :=
     gpRegistered d; supportPreferences := supportPreferences d; availability := availability
     d; preferredContact := preferredContact d; consent := consent d; source := source d |}.
Definition set_gpRegistered (v : option bool) (d : IntakeData) : IntakeData :=
  {| firstName := firstName d; lastName := lastName d; pronouns := pronouns d; email :=
     email d; phone := phone d; postcode := postcode d; ageBand := ageBand d;
     employmentStatus := employmentStatus d; relationshipStatus := relationshipStatus d;
     housing := housing d; dependents := dependents d; concerns := concerns d; concernDetails
     := concernDetails d; severity := severity d; riskFlags := riskFlags d; gpRegistered :=
     v; supportPreferences := supportPreferences d; availability := availability d;
     preferredContact := preferredContact d; consent := consent d; source := source d |}.
Definition set_supportPreferences (v : list jsstring) (d : IntakeData) : IntakeData :=
  {| firstName := firstName d; lastName := lastName d; pronouns := pronouns d; email :=
     email d; phone := phone d; postcode := postcode d; ageBand := ageBand d;
     employmentStatus := employmentStatus d; relationshipStatus := relationshipStatus d;
     housing := housing d; dependents := dependents d; concerns := concerns d; concernDetails
     := concernDetails d; severity := severity d; riskFlags := riskFlags d; gpRegistered :=
     gpRegistered d; supportPreferences := v; availability := availability d;
     preferredContact := preferredContact d; consent := consent d; source := source d |}.
Definition set_availability (v : option jsstring) (d : IntakeData) : IntakeData :=
  {| firstName := firstName d; lastName := lastName d; pronouns := pronouns d; email :=
     email d; phone := phone d; postcode := postcode d; ageBand := ageBand d;
     employmentStatus := employmentStatus d; relationshipStatus := relationshipStatus d;
     housing := housing d; dependents := dependents d; concerns := concerns d; concernDetails
     := concernDetails d; severity := severity d; riskFlags := riskFlags d; gpRegistered :=
     gpRegistered d; supportPreferences := supportPreferences d; availability := v;
     preferredContact := preferredContact d; consent := consent d; source := source d |}.
Definition set_preferredContact (v : option PreferredContact) (d : IntakeData) : IntakeData :=
  {| firstName := firstName d; lastName := lastName d; pronouns := pronouns d; email :=
     email d; phone := phone d; postcode := postcode d; ageBand := ageBand d;
     employmentStatus := employmentStatus d; relationshipStatus := relationshipStatus d;
     housing := housing d; dependents := dependents d; concerns := concerns d; concernDetails
     := concernDetails d; severity := severity d; riskFlags := riskFlags d; gpRegistered :=
     gpRegistered d; supportPreferences := supportPreferences d; availability := availability
     d; preferredContact := v; consent := consent d; source := source d |}.
Definition set_consent (v : Consent) (d : IntakeData) : IntakeData :=
  {| firstName := firstName d; lastName := lastName d; pronouns := pronouns d; email :=
     email d; phone := phone d; postcode := postcode d; ageBand := ageBand d;
     employmentStatus := employmentStatus d; relationshipStatus := relationshipStatus d;
     housing := housing d; dependents := dependents d; concerns := concerns d; concernDetails
     := concernDetails d; severity := severity d; riskFlags := riskFlags d; gpRegistered :=
     gpRegistered d; supportPreferences := supportPreferences d; availability := availability
     d; preferredContact := preferredContact d; consent := v; source := source d |}.
Definition set_source (v : option Source) (d : IntakeData) : IntakeData :=
  {| firstName := firstName d; lastName := lastName d; pronouns := pronouns d; email :=
     email d; phone := phone d; postcode := postcode d; ageBand := ageBand d;
     employmentStatus := employmentStatus d; relationshipStatus := relationshipStatus d;
     housing := housing d; dependents := dependents d; concerns := concerns d; concernDetails
     := concernDetails d; severity := severity d; riskFlags := riskFlags d; gpRegistered :=
     gpRegistered d; supportPreferences := supportPreferences d; availability := availability
     d; preferredContact := preferredContact d; consent := consent d; source := v |}.

(** [{ ...data.riskFlags, flag: v }] and [{ ...data.consent, flag: v }]. *)
Definition set_selfHarm (v : bool) (r : RiskFlags) : RiskFlags :=
  {| selfHarm := v; harmToOthers := harmToOthers r;
     domesticAbuse := domesticAbuse r; substanceRisk := substanceRisk r |}.
Definition set_harmToOthers (v : bool) (r : RiskFlags) : RiskFlags :=
  {| selfHarm := selfHarm r; harmToOthers := v;
     domesticAbuse := domesticAbuse r; substanceRisk := substanceRisk r |}.
Definition set_domesticAbuse (v : bool) (r : RiskFlags) : RiskFlags :=
  {| selfHarm := selfHarm r; harmToOthers := harmToOthers r;
     domesticAbuse := v; substanceRisk := substanceRisk r |}.
Definition set_substanceRisk (v : bool) (r : RiskFlags) : RiskFlags :=
  {| selfHarm := selfHarm r; harmToOthers := harmToOthers r;
     domesticAbuse := domesticAbuse r; substanceRisk := v |}.
Definition set_privacyPolicyAccepted (v : bool) (c : Consent) : Consent :=
  {| privacyPolicyAccepted := v; shareWithPartners := shareWithPartners c;
     anonymisedInsights := anonymisedInsights c; crisisProtocolOk := crisisProtocolOk c |}.
Definition set_shareWithPartners (v : bool) (c : Consent) : Consent :=
  {| privacyPolicyAccepted := privacyPolicyAccepted c; shareWithPartners := v;
     anonymisedInsights := anonymisedInsights c; crisisProtocolOk := crisisProtocolOk c |}.
Definition set_anonymisedInsights (v : bool) (c : Consent) : Consent :=
  {| privacyPolicyAccepted := privacyPolicyAccepted c;
     shareWithPartners := shareWithPartners c;
     anonymisedInsights := v; crisisProtocolOk := crisisProtocolOk c |}.
Definition set_crisisProtocolOk (v : bool) (c : Consent) : Consent :=
  {| privacyPolicyAccepted := privacyPolicyAccepted c;
     shareWithPartners := shareWithPartners c;
     anonymisedInsights := anonymisedInsights c; crisisProtocolOk := v |}.

(** *** Component state ([useState]) *)

Inductive SubmissionStatus := idle | submitting | success | error.

Record State := {
  step : Z;
  submissionStatus : SubmissionStatus;
  errors : gmap string string;
  submitError : jsstring;
  data : IntakeData
}.

Definition setStep (f : Z -> Z) (w : State) : State :=
  {| step := f (step w); submissionStatus := submissionStatus w; errors := errors w;
     submitError := submitError w; data := data w |}.
Definition setSubmissionStatus (v : SubmissionStatus) (w : State) : State :=
  {| step := step w; submissionStatus := v; errors := errors w;
     submitError := submitError w; data := data w |}.
Definition setErrors (v : gmap string string) (w : State) : State :=
  {| step := step w; submissionStatus := submissionStatus w; errors := v;
     submitError := submitError w; data := data w |}.
Definition setSubmitError (v : jsstring) (w : State) : State :=
  {| step := step w; submissionStatus := submissionStatus w; errors := errors w;
     submitError := v; data := data w |}.
Definition setData (f : IntakeData -> IntakeData) (w : State) : State :=
  {| step := step w; submissionStatus := submissionStatus w; errors := errors w;
     submitError := submitError w; data := f (data w) |}.

(** [Object.keys(e).length] *)
Definition keyCount (e : gmap string string) : nat := size e.

(** *** [next] and [prev] *)

Definition next (w : State) : State :=
  let e := validateStep (step w) (data w) in
  let w := setErrors e w in
  if (keyCount e =? 0)%nat
  then setStep (fun s => Z.min 5 (s + 1)) w
  else w.

Definition prev (w : State) : State :=
  let w := setStep (fun s => Z.max 1 (s - 1)) w in
  setErrors ∅ w.

(** *** [toggleArrayField]

    A [Set] iterates in insertion order, so it is kept as the list of its
    members in that order. *)

Definition setAdd (x : jsstring) (s : list jsstring) : list jsstring :=
  if bool_decide (x ∈ s) then s else s ++ [x].
Definition setDelete (x : jsstring) (s : list jsstring) : list jsstring :=
  filter (fun y => y ≠ x) s.
Definition setHas (x : jsstring) (s : list jsstring) : bool := bool_decide (x ∈ s).
(** [new Set(array)] adds the elements from left to right. *)
Definition setOfArray (l : list jsstring) : list jsstring :=
  fold_left (fun s x => setAdd x s) l [].
(** [Array.from(set)] *)
Definition arrayFrom (s : list jsstring) : list jsstring := s.

(** The two fields the page toggles. *)
Inductive ArrayField := concernsField | supportPreferencesField.

Definition getField (field : ArrayField) (d : IntakeData) : list jsstring :=
  match field with
  | concernsField => concerns d
  | supportPreferencesField => supportPreferences d
  end.
Definition setField (field : ArrayField) (v : list jsstring) (d : IntakeData) : IntakeData :=
  match field with
  | concernsField => set_concerns v d
  | supportPreferencesField => set_supportPreferences v d
  end.

(** The update [toggleArrayField] hands to [setData]. *)
Definition toggled (field : ArrayField) (value : jsstring) (prev : IntakeData) : IntakeData :=
  let currentArray := getField field prev in
  let arr := setOfArray currentArray in
  let arr := if setHas value arr then setDelete value arr else setAdd value arr in
  setField field (arrayFrom arr) prev.

Definition toggleArrayField (field : ArrayField) (value : string) (w : State) : State :=
  setData (toggled field (lit value)) w.

(** The option lists the step-3 and step-4 checkboxes are mapped from. *)
Definition CONCERNS : list string :=
  ["employment"; "relationships"; "emotional"; "finance"; "housing"; "legal";
   "addiction"; "health"; "abuse"; "social"].
Definition SUPPORT_OPTIONS : list string :=
  ["oneToOne"; "group"; "peer"; "online"; "phone"; "inPerson"].

(** *** [getCsrfToken]

    What the function reads of the document: the [content] of the first
    [meta[name="csrf-token"]] element ([None] when there is none) and
    [document.cookie]. *)

Record Document := {
  csrfMeta : option jsstring;
  cookie : jsstring
}.

(** [s.split(sep)] for a one-unit separator: the pieces between the
    separators, at least one piece. *)
Fixpoint split (sep : N) (s : jsstring) : list jsstring :=
  match s with
  | [] => [[]]
  | c :: s' =>
      if c =? sep then [] :: split sep s'
      else match split sep s' with
           | piece :: pieces => (c :: piece) :: pieces
           | [] => [[c]]
           end
  end.

(** A thrown value: an [Error] with its message, or anything else. *)
Inductive Thrown :=
  | ErrorValue (message : jsstring)
  | NonError.

Definition thrownOf {A} (r : result A) : Thrown + A :=
  match r with
  | Return a => inr a
  | Throw message => inl (ErrorValue (lit message))
  end.

Section WithBuiltins.

(** [decodeURIComponent], which fails with a [URIError] on a malformed
    escape. *)
Variable decodeURIComponent : jsstring -> Thrown + jsstring.

(** The loop over the cookies: the first one named [XSRF-TOKEN] decides.
    [const [name, value] = ...] takes the first two pieces; a missing
    second piece is [undefined], which [decodeURIComponent] reads as the
    text "undefined". *)
Fixpoint cookieLoop (cookies : list jsstring) : Thrown + option jsstring :=
  match cookies with
  | [] => inr None
  | cookie :: rest =>
      let pieces := split (code "=") (trim cookie) in
      let name := default [] (pieces !! 0%nat) in
      let value := pieces !! 1%nat in
      if bool_decide (name = lit "XSRF-TOKEN")
      then match decodeURIComponent (default (lit "undefined") value) with
           | inr token => inr (Some token)
           | inl e => inl e
           end
      else cookieLoop rest
  end.

Definition getCsrfToken (doc : Document) : Thrown + option jsstring :=
  if truthy_opt (csrfMeta doc)
  then inr (csrfMeta doc)
  else
    let cookies := split (code ";") (cookie doc) in
    cookieLoop cookies.

(** *** [handleSubmit] *)

(** What [fetch] and [res.json()] can give: a rejection, or a response
    with its [ok] flag and status whose body is not JSON, is the JSON
    [null] (reading [.message] of it throws the given [TypeError]), or is
    any other JSON value with its [message] property, if it has one; a
    [message] that is present is taken to be a string. *)
Inductive ResponseBody :=
  | NotJson
  | JsonNull (typeError : jsstring)
  | JsonValue (message : option jsstring).

Inductive FetchResult :=
  | Rejected (reason : Thrown)
  | Responded (ok : bool) (status : N) (body : ResponseBody).

(** The request: its headers and the object given to [JSON.stringify]. *)
Record Payload := {
  fields : IntakeData;
  triage : Classification;
  submittedAt : N;
  schemaVersion : Z
}.

Record Request := {
  headers : gmap string jsstring;
  body : Payload
}.

Record Browser := {
  env : Env;
  document : Document;
  fetch : Request -> FetchResult
}.

Definition sanitizeOptional (o : option jsstring) : option jsstring :=
  if truthy_opt o then Some (sanitizeInput (default [] o)) else None.

Definition sanitizedData (data : IntakeData) : IntakeData :=
  {| firstName := sanitizeInput (firstName data);
     lastName := sanitizeInput (lastName data);
     pronouns := sanitizeOptional (pronouns data);
     email := sanitizeInput (email data);
     phone := sanitizeOptional (phone data);
     postcode := sanitizeOptional (postcode data);
     ageBand := ageBand data;
     employmentStatus := employmentStatus data;
     relationshipStatus := relationshipStatus data;
     housing := housing data;
     dependents := dependents data;
     concerns := concerns data;
     concernDetails := sanitizeOptional (concernDetails data);
     severity := severity data;
     riskFlags := riskFlags data;
     gpRegistered := gpRegistered data;
     supportPreferences := supportPreferences data;
     availability := sanitizeOptional (availability data);
     preferredContact := preferredContact data;
     consent := consent data;
     source := source data |}.

(** The message of the error thrown for a response that is not [ok]. *)
Definition failureMessage (status : N) (body : ResponseBody) : Thrown + jsstring :=
  match body with
  | NotJson => inr (lit "Unknown error")
  | JsonNull typeError => inl (ErrorValue typeError)
  | JsonValue message =>
      if truthy_opt message then inr (default [] message)
      else inr (lit "Server returned " ++ lit (numberToString status))
  end.

(** The body of the [try] block: the request it sends, if it gets that
    far, and how it ends. *)
Definition trySubmit (b : Browser) (data : IntakeData) : option Request * (Thrown + unit) :=
  let sanitized := sanitizedData data in
  match getCsrfToken (document b) with
  | inl e => (None, inl e)
  | inr csrfToken =>
      match thrownOf (generateSecureId (env b)) with
      | inl e => (None, inl e)
      | inr id =>
          let headers : gmap string jsstring :=
            <["X-Idempotency-Key" := id]>
              (<["Content-Type" := lit "application/json"]> ∅) in
          let headers :=
            if truthy_opt csrfToken
            then <["X-CSRF-Token" := default [] csrfToken]> headers
            else headers in
          let request :=
            {| headers := headers;
               body := {| fields := sanitized;
                          triage := computeClassification data;
                          submittedAt := Date_now (env b);
                          schemaVersion := 1 |} |} in
          match fetch b request with
          | Rejected reason => (Some request, inl reason)
          | Responded ok status body =>
              if negb ok
              then match failureMessage status body with
                   | inl e => (Some request, inl e)
                   | inr message => (Some request, inl (ErrorValue message))
                   end
              else (Some request, inr tt)
          end
      end
  end.

(** The state after the handler has run to its end, and the request it
    sent, if any. *)
Definition handleSubmit (b : Browser) (w : State) : State * option Request :=
  let e2 := validateStep 5 (data w) in
  let w := setErrors e2 w in
  if (0 <? keyCount e2)%nat then (w, None)
  else
    let w := setSubmissionStatus submitting w in
    let w := setSubmitError [] w in
    match trySubmit b (data w) with
    | (sent, inr _) => (setSubmissionStatus success w, sent)
    | (sent, inl err) =>
        let w := setSubmissionStatus error w in
        (setSubmitError
           (match err with
            | ErrorValue message => message
            | NonError =>
                lit "Sorry, something went wrong. Please try again or contact us directly."
            end) w, sent)
    end.

End WithBuiltins.

(** *** User events

    Each control of the form with the value its handler receives. A
    control exists only while its step is rendered, the crisis checkbox
    only for severity high or crisis, Back only when enabled, Continue only
    before step 5, and nothing of the form once the status is [success]. *)

Inductive Event :=
  | ClickContinue
  | ClickBack
  | ChangeFirstName (v : jsstring)
  | ChangeLastName (v : jsstring)
  | ChangeEmail (v : jsstring)
  | ChangePhone (v : jsstring)
  | ChangePostcode (v : jsstring)
  | ChangePronouns (v : jsstring)
  | ChangeAgeBand (v : AgeBand)
  | ChangeEmploymentStatus (v : EmploymentStatus)
  | ChangeRelationshipStatus (v : RelationshipStatus)
  | ChangeHousing (v : Housing)
  | ChangeDependents (v : Dependents)
  | ChangeGpRegistered (v : bool)
  | ToggleConcern (key : string)
  | ChangeConcernDetails (v : jsstring)
  | ChangeSeverity (v : Severity)
  | ChangeSelfHarm (v : bool)
  | ChangeHarmToOthers (v : bool)
  | ChangeDomesticAbuse (v : bool)
  | ChangeSubstanceRisk (v : bool)
  | ToggleSupportPreference (key : string)
  | ChangeAvailability (v : jsstring)
  | ChangePreferredContact (v : PreferredContact)
  | ChangePrivacyPolicyAccepted (v : bool)
  | ChangeShareWithPartners (v : bool)
  | ChangeAnonymisedInsights (v : bool)
  | ChangeCrisisProtocolOk (v : bool).

(** The step whose markup holds the control; Continue and Back are
    outside the steps. *)
Definition stepOf (e : Event) : option Z :=
  match e with
  | ClickContinue | ClickBack => None
  | ChangeFirstName _ | ChangeLastName _ | ChangeEmail _ | ChangePhone _
  | ChangePostcode _ | ChangePronouns _ | ChangeAgeBand _ => Some 1%Z
  | ChangeEmploymentStatus _ | ChangeRelationshipStatus _ | ChangeHousing _
  | ChangeDependents _ | ChangeGpRegistered _ => Some 2%Z
  | ToggleConcern _ | ChangeConcernDetails _ | ChangeSeverity _ | ChangeSelfHarm _
  | ChangeHarmToOthers _ | ChangeDomesticAbuse _ | ChangeSubstanceRisk _ => Some 3%Z
  | ToggleSupportPreference _ | ChangeAvailability _
  | ChangePreferredContact _ => Some 4%Z
  | ChangePrivacyPolicyAccepted _ | ChangeShareWithPartners _
  | ChangeAnonymisedInsights _ | ChangeCrisisProtocolOk _ => Some 5%Z
  end.

(** The control is part of the markup of the form in state [w]. *)
Definition shown (e : Event) (w : State) : bool :=
  match e with
  | ClickContinue => (step w <? 5)%Z
  | ClickBack =>
      negb ((step w =? 1)%Z
            || match submissionStatus w with submitting => true | _ => false end)
  | ToggleConcern key => (step w =? 3)%Z && bool_decide (key ∈ CONCERNS)
  | ToggleSupportPreference key =>
      (step w =? 4)%Z && bool_decide (key ∈ SUPPORT_OPTIONS)
  | ChangeCrisisProtocolOk _ =>
      (step w =? 5)%Z
      && (eqs (severity (data w)) high || eqs (severity (data w)) crisis)
  | _ => bool_decide (stepOf e = Some (step w))
  end.

(** The form is replaced by the confirmation once the status is
    [success]. *)
Definition rendered (e : Event) (w : State) : bool :=
  match submissionStatus w with
  | success => false
  | _ => shown e w
  end.

Definition handler (e : Event) (w : State) : State :=
  match e with
  | ClickContinue => next w
  | ClickBack => prev w
  | ChangeFirstName v => setData (set_firstName v) w
  | ChangeLastName v => setData (set_lastName v) w
  | ChangeEmail v => setData (set_email v) w
  | ChangePhone v => setData (set_phone (Some v)) w
  | ChangePostcode v => setData (set_postcode (Some v)) w
  | ChangePronouns v => setData (set_pronouns (Some v)) w
  | ChangeAgeBand v => setData (set_ageBand (Some v)) w
  | ChangeEmploymentStatus v => setData (set_employmentStatus (Some v)) w
  | ChangeRelationshipStatus v => setData (set_relationshipStatus (Some v)) w
  | ChangeHousing v => setData (set_housing (Some v)) w
  | ChangeDependents v => setData (set_dependents (Some v)) w
  | ChangeGpRegistered v => setData (set_gpRegistered (Some v)) w
  | ToggleConcern key => toggleArrayField concernsField key w
  | ChangeConcernDetails v => setData (set_concernDetails (Some v)) w
  | ChangeSeverity v => setData (set_severity (Some v)) w
  | ChangeSelfHarm v =>
      setData (fun d => set_riskFlags (set_selfHarm v (riskFlags d)) d) w
  | ChangeHarmToOthers v =>
      setData (fun d => set_riskFlags (set_harmToOthers v (riskFlags d)) d) w
  | ChangeDomesticAbuse v =>
      setData (fun d => set_riskFlags (set_domesticAbuse v (riskFlags d)) d) w
  | ChangeSubstanceRisk v =>
      setData (fun d => set_riskFlags (set_substanceRisk v (riskFlags d)) d) w
  | ToggleSupportPreference key => toggleArrayField supportPreferencesField key w
  | ChangeAvailability v => setData (set_availability (Some v)) w
  | ChangePreferredContact v => setData (set_preferredContact (Some v)) w
  | ChangePrivacyPolicyAccepted v =>
      setData (fun d => set_consent (set_privacyPolicyAccepted v (consent d)) d) w
  | ChangeShareWithPartners v =>
      setData (fun d => set_consent (set_shareWithPartners v (consent d)) d) w
  | ChangeAnonymisedInsights v =>
      setData (fun d => set_consent (set_anonymisedInsights v (consent d)) d) w
  | ChangeCrisisProtocolOk v =>
      setData (fun d => set_consent (set_crisisProtocolOk v (consent d)) d) w
  end.

(** One user event: it reaches its handler only if its control is there. *)
Definition dispatch (e : Event) (w : State) : State :=
  if rendered e w then handler e w else w.

Definition run (es : list Event) (w : State) : State :=
  fold_left (fun w e => dispatch e w) es w.

End Page.

(** ** Reference definitions for the page *)

(** The keys each step can report. *)
Definition stepKeys (step : Z) : list string :=
  if (step =? 1)%Z then ["firstName"; "lastName"; "email"; "phone"; "postcode"]
  else if (step =? 2)%Z then ["employmentStatus"; "relationshipStatus"; "housing"]
  else if (step =? 3)%Z then ["concerns"; "severity"; "concernDetails"]
  else if (step =? 4)%Z then ["preferredContact"]
  else if (step =? 5)%Z then ["privacy"; "crisis"]
  else [].

(** A statement adds no key outside [ks]. *)
Definition touches (s : stmt) (ks : list string) : Prop :=
  ∀ e key, reports (s e) key → key ∈ ks ∨ reports e key.

(** The record passes the checks of a step. *)
Definition passes (step : Z) (d : IntakeData) : Prop := validateStep step d = ∅.

(** Priorities in increasing order of urgency. *)
Definition priorityRank (p : Priority) : Z :=
  match p with Low => 0 | Medium => 1 | High => 2 | Immediate => 3 end%Z.

(** None of the five replaced units occurs in the text. *)
Definition markupFree (s : jsstring) : Prop := Forall (fun c => escaped c = false) s.
Definition markupFreeOpt (o : option jsstring) : Prop :=
  match o with Some s => markupFree s | None => True end.
Definition withinLimit (s : jsstring) : Prop := len s <= MAX_TEXT_LENGTH.
Definition withinLimitOpt (o : option jsstring) : Prop :=
  match o with Some s => withinLimit s | None => True end.

(** The state the component is mounted with. *)
Definition initialState : Page.State :=
  {| Page.step := 1; Page.submissionStatus := Page.idle; Page.errors := ∅;
     Page.submitError := []; Page.data := initialData |}.

(** The states the page can be in: after any number of user events and
    submissions, whatever the browser answers. A submission is taken with
    its answer: no event comes between the request and its outcome. *)
Inductive reachable : Page.State -> Prop :=
  | reachable_initial : reachable initialState
  | reachable_event e w : reachable w -> reachable (Page.dispatch e w)
  | reachable_submit decode b w :
      reachable w -> Page.submissionStatus w ≠ Page.success ->
      reachable (fst (Page.handleSubmit decode b w)).

(** An array of keys of a catalog, without duplicates. *)
Definition catalogued (catalog : list string) (l : list jsstring) : Prop :=
  NoDup l ∧ ∀ c, c ∈ l → ∃ key, key ∈ catalog ∧ c = lit key.

(** What holds of every state of the wizard: the step is one of the
    five, every earlier step passes its checks, and the two arrays hold
    catalog keys without duplicates. *)
Definition wellFormed (w : Page.State) : Prop :=
  (1 <= Page.step w <= 5)%Z
  ∧ (∀ k, (1 <= k < Page.step w)%Z → passes k (Page.data w))
  ∧ catalogued Page.CONCERNS (concerns (Page.data w))
  ∧ catalogued Page.SUPPORT_OPTIONS (supportPreferences (Page.data w)).

(** The state after the [try] block has ended as [r]. *)
Definition afterTry (w : Page.State) (r : option Page.Request * (Page.Thrown + unit)) : Page.State * option Page.Request :=
  match r with
  | (sent, inr _) => (Page.setSubmissionStatus Page.success w, sent)
  | (sent, inl err) =>
      (Page.setSubmitError
         (match err with
          | Page.ErrorValue message => message
          | Page.NonError =>
              lit "Sorry, something went wrong. Please try again or contact us directly."
          end) (Page.setSubmissionStatus Page.error w), sent)
  end.

(** The request built by the try block. *)
Definition requestOf (b : Page.Browser) (d : IntakeData) (csrfToken : option jsstring)
    (id : jsstring) : Page.Request :=
  {| Page.headers :=
       if truthy_opt csrfToken
       then <["X-CSRF-Token" := default [] csrfToken]>
              (<["X-Idempotency-Key" := id]>
                 (<["Content-Type" := lit "application/json"]> ∅))
       else <["X-Idempotency-Key" := id]>
              (<["Content-Type" := lit "application/json"]> ∅);
     Page.body := {| Page.fields := Page.sanitizedData d;
                Page.triage := computeClassification d;
                Page.submittedAt := Date_now (Page.env b);
                Page.schemaVersion := 1 |} |}.

(** How the try block ends once the request is built. *)
Definition tryResult (b : Page.Browser) (req : Page.Request) : Page.Thrown + unit :=
  match Page.fetch b req with
  | Page.Rejected reason => inl reason
  | Page.Responded ok status answer =>
      if negb ok
      then match Page.failureMessage status answer with
           | inl e => inl e
           | inr message => inl (Page.ErrorValue message)
           end
      else inr tt
  end.

(** The text before the first [sep], and the text after it, if any. *)
Fixpoint before (sep : N) (s : jsstring) : jsstring :=
  match s with
  | [] => []
  | c :: s' => if c =? sep then [] else c :: before sep s'
  end.
Fixpoint after (sep : N) (s : jsstring) : option jsstring :=
  match s with
  | [] => None
  | c :: s' => if c =? sep then Some s' else after sep s'
  end.

(** The name of a cookie is what precedes its first "=". *)
Definition cookieName (c : jsstring) : jsstring := before (code "=") (trim c).

(** What the caller gets for the token text [v]. *)
Definition decoded (decode : jsstring → Page.Thrown + jsstring) (v : jsstring)
    : Page.Thrown + option jsstring :=
  match decode v with
  | inr token => inr (Some token)
  | inl e => inl e
  end.

(** A pattern without [^] and [$]. *)
Fixpoint anchorFree (r : regex) : bool :=
  match r with
  | Bol | Eol => false
  | Eps | Chr _ | Plus _ => true
  | Seq a b | Alt a b => anchorFree a && anchorFree b
  | Opt a => anchorFree a
  end.

(** The strings a pattern without anchors stands for. *)
Fixpoint lang (r : regex) (a : jsstring) : Prop :=
  match r with
  | Eps => a = []
  | Bol | Eol => False
  | Chr cls => ∃ x, a = [x] ∧ cls x = true
  | Seq r1 r2 => ∃ a1 a2, a = a1 ++ a2 ∧ lang r1 a1 ∧ lang r2 a2
  | Alt r1 r2 => lang r1 a ∨ lang r2 a
  | Opt r1 => lang r1 a ∨ a = []
  | Plus cls => a ≠ [] ∧ forallb cls a = true
  end.

(** Shortest and longest match of a pattern without [+]. *)
Fixpoint minLen (r : regex) : nat :=
  match r with
  | Chr _ | Plus _ => 1
  | Seq a b => minLen a + minLen b
  | Alt a b => Nat.min (minLen a) (minLen b)
  | _ => 0
  end.
Fixpoint maxLen (r : regex) : nat :=
  match r with
  | Chr _ => 1
  | Seq a b => maxLen a + maxLen b
  | Alt a b => Nat.max (maxLen a) (maxLen b)
  | Opt a => maxLen a
  | _ => 0
  end.
Fixpoint plusFree (r : regex) : bool :=
  match r with
  | Plus _ => false
  | Seq a b | Alt a b => plusFree a && plusFree b
  | Opt a => plusFree a
  | _ => true
  end.
(** The units that can occur in a match. *)
Fixpoint alphabet (r : regex) (c : N) : bool :=
  match r with
  | Chr cls | Plus cls => cls c
  | Seq a b | Alt a b => alphabet a c || alphabet b c
  | Opt a => alphabet a c
  | _ => false
  end.

(** The pattern matches the empty string; the units a match can start
    with and end with. *)
Fixpoint nullable (r : regex) : bool :=
  match r with
  | Eps | Opt _ => true
  | Seq a b => nullable a && nullable b
  | Alt a b => nullable a || nullable b
  | _ => false
  end.
Fixpoint firsts (r : regex) (c : N) : bool :=
  match r with
  | Chr cls | Plus cls => cls c
  | Seq a b => firsts a c || (nullable a && firsts b c)
  | Alt a b => firsts a c || firsts b c
  | Opt a => firsts a c
  | _ => false
  end.
Fixpoint lasts (r : regex) (c : N) : bool :=
  match r with
  | Chr cls | Plus cls => cls c
  | Seq a b => lasts b c || (nullable b && lasts a c)
  | Alt a b => lasts a c || lasts b c
  | Opt a => lasts a c
  | _ => false
  end.

Definition WHITE_SPACE : list N :=
  [0x09; 0x0A; 0x0B; 0x0C; 0x0D; 0x20; 0xA0; 0x1680; 0x2000; 0x2001; 0x2002; 0x2003;
   0x2004; 0x2005; 0x2006; 0x2007; 0x2008; 0x2009; 0x200A; 0x2028; 0x2029; 0x202F;
   0x205F; 0x3000; 0xFEFF].

(** The patterns between [^] and [$]. *)
Definition mobileBody : regex :=
  seqs [Alt (seqs [word "+44"; Opt (Chr space); word "7"; times 3 (Chr digit)])
            (seqs [word "07"; times 3 (Chr digit)]);
        Opt (Chr space); times 3 (Chr digit);
        Opt (Chr space); times 3 (Chr digit)].
Definition landlineBody : regex :=
  seqs [Alt (seqs [word "+44"; Opt (Chr space); word "1"; times 3 (Chr digit)])
       (Alt (seqs [word "01"; times 3 (Chr digit)])
       (Alt (seqs [word "+44"; Opt (Chr space); word "2"; times 2 (Chr digit)])
            (seqs [word "02"; times 2 (Chr digit)])));
        Opt (Chr space); between 3 4 (Chr digit);
        Opt (Chr space); between 3 4 (Chr digit)].
Definition postcodeBody : regex :=
  seqs [between 1 2 (Chr (icase (inRange "A" "Z")));
        Chr (icase digit);
        Opt (Chr (icase (union (inRange "A" "Z") digit)));
        Opt (Chr (icase space));
        Chr (icase digit);
        times 2 (Chr (icase (inRange "A" "Z")))].

(** A session that fills in the five steps, and a browser with a random
    source whose endpoint accepts the request. *)
Definition exampleEvents : list Page.Event :=
  [Page.ChangeFirstName (lit "Ann"); Page.ChangeLastName (lit "O'Neil");
   Page.ChangeEmail (lit "ann@example.org"); Page.ClickContinue;
   Page.ChangeEmploymentStatus employed; Page.ChangeRelationshipStatus single;
   Page.ChangeHousing atRisk; Page.ClickContinue;
   Page.ToggleConcern "housing"; Page.ToggleConcern "legal";
   Page.ChangeConcernDetails (lit "Notice to leave <by Friday>");
   Page.ChangeSeverity high; Page.ClickContinue;
   Page.ChangePreferredContact byEmail; Page.ClickContinue;
   Page.ChangePrivacyPolicyAccepted true; Page.ChangeCrisisProtocolOk true].

Definition exampleState : Page.State := Page.run exampleEvents initialState.

Definition exampleBrowser : Page.Browser :=
  {| Page.env :=
       {| crypto := Some {| randomUUID := Some (lit "3f0c2a9e-5d41-4b7a-9c1e-0a6f2d8b7e11");
                            getRandomValues := None |};
          Date_now := 1793557800000 |};
     Page.document := {| Page.csrfMeta := Some (lit "tok-1"); Page.cookie := [] |};
     Page.fetch := fun _ => Page.Responded true 200 Page.NotJson |}.

(** The same browser without any random source, and one whose endpoint
    rejects the request. *)
Definition weakBrowser : Page.Browser :=
  {| Page.env := {| crypto := None; Date_now := 1793557800000 |};
     Page.document := Page.document exampleBrowser;
     Page.fetch := Page.fetch exampleBrowser |}.

Definition rejectingBrowser : Page.Browser :=
  {| Page.env := Page.env exampleBrowser;
     Page.document := Page.document exampleBrowser;
     Page.fetch := fun _ =>
       Page.Responded false 429 (Page.JsonValue (Some (lit "Too many requests"))) |}.

(** ** The triage classifier *)

Section Triage.

Implicit Types (d : IntakeData) (cs : list jsstring).

Lemma eqs_Some {A} `{EqDecision A} (o : option A) (v : A) :
  eqs o v = true ↔ o = Some v.
Proof. unfold eqs. rewrite bool_decide_eq_true. done. Qed.

(** The chain of conditional additions, for any conditions. *)
Lemma score_chain (c1 c2 c3 c4 c5 c6 c7 c8 c9 : bool) :
  (let riskScore := 0 in
   let riskScore := if c1 then riskScore + 2 else riskScore in
   let riskScore := if c2 then riskScore + 4 else riskScore in
   let riskScore := if c3 then riskScore + 6 else riskScore in
   let riskScore := if c4 then riskScore + 6 else riskScore in
   let riskScore := if c5 then riskScore + 6 else riskScore in
   let riskScore := if c6 then riskScore + 4 else riskScore in
   let riskScore := if c7 then riskScore + 3 else riskScore in
   let riskScore := if c8 then riskScore + 3 else riskScore in
   let riskScore := if c9 then riskScore + 2 else riskScore in
   riskScore)%Z
  = (flagPoints 2 c1 + flagPoints 4 c2 + flagPoints 6 c3 + flagPoints 6 c4
     + flagPoints 6 c5 + flagPoints 4 c6 + flagPoints 3 c7 + flagPoints 3 c8
     + flagPoints 2 c9)%Z.
Proof. destruct c1, c2, c3, c4, c5, c6, c7, c8, c9; reflexivity. Qed.

Lemma severity_chain s :
  (flagPoints 2 (eqs s moderate) + flagPoints 4 (eqs s high)
   + flagPoints 6 (eqs s crisis))%Z = severityPoints s.
Proof. destruct s as [[]|]; reflexivity. Qed.

Lemma housing_chain h :
  flagPoints 3 (eqs h homeless || eqs h atRisk) = housingPoints h.
Proof. destruct h as [[]|]; reflexivity. Qed.

Lemma employment_chain e :
  flagPoints 2 (eqs e unemployed || eqs e unableToWork) = employmentPoints e.
Proof. destruct e as [[]|]; reflexivity. Qed.

(** The accumulated score, field by field. *)
Lemma riskScore_sum d :
  riskScore (computeClassification d)
  = (severityPoints (severity d)
     + flagPoints 6 (selfHarm (riskFlags d))
     + flagPoints 6 (domesticAbuse (riskFlags d))
     + flagPoints 4 (harmToOthers (riskFlags d))
     + flagPoints 3 (substanceRisk (riskFlags d))
     + housingPoints (housing d)
     + employmentPoints (employmentStatus d))%Z.
Proof.
  rewrite <- severity_chain, <- housing_chain, <- employment_chain.
  exact (score_chain (eqs (severity d) moderate) (eqs (severity d) high)
           (eqs (severity d) crisis) (selfHarm (riskFlags d))
           (domesticAbuse (riskFlags d)) (harmToOthers (riskFlags d))
           (substanceRisk (riskFlags d))
           (eqs (housing d) homeless || eqs (housing d) atRisk)
           (eqs (employmentStatus d) unemployed
            || eqs (employmentStatus d) unableToWork)).
Qed.

Lemma severityPoints_range s : (0 <= severityPoints s <= 6)%Z.
Proof. destruct s as [[]|]; simpl; lia. Qed.

Lemma flagPoints_range w b : (0 <= w)%Z → (0 <= flagPoints w b <= w)%Z.
Proof. destruct b; simpl; lia. Qed.

Lemma housingPoints_range h : (0 <= housingPoints h <= 3)%Z.
Proof. destruct h as [[]|]; simpl; lia. Qed.

Lemma employmentPoints_range e : (0 <= employmentPoints e <= 2)%Z.
Proof. destruct e as [[]|]; simpl; lia. Qed.

Lemma priority_of_score d :
  priority (computeClassification d) = priorityOf (riskScore (computeClassification d)).
Proof. reflexivity. Qed.

Lemma has_newSet cs key : has (newSet cs) key = selectedIn cs key.
Proof.
  unfold has, newSet, selectedIn. apply bool_decide_ext, elem_of_list_to_set.
Qed.

Lemma fires_cons sel keys b rest :
  snd <$> filter (fun rule => fires sel rule) ((keys, b) :: rest)
  = (if existsb sel keys then [b] else [])
    ++ (snd <$> filter (fun rule => fires sel rule) rest).
Proof.
  rewrite filter_cons. change (fires sel (keys, b)) with (existsb sel keys).
  destruct (existsb sel keys) eqn:E.
  - rewrite decide_True by exact I. reflexivity.
  - rewrite decide_False by (intros []). reflexivity.
Qed.

Lemma push_chain (b1 b2 b3 b4 b5 b6 b7 b8 : bool) (x1 x2 x3 x4 x5 x6 x7 x8 : string) :
  (let buckets : list string := [] in
   let buckets := if b1 then push x1 buckets else buckets in
   let buckets := if b2 then push x2 buckets else buckets in
   let buckets := if b3 then push x3 buckets else buckets in
   let buckets := if b4 then push x4 buckets else buckets in
   let buckets := if b5 then push x5 buckets else buckets in
   let buckets := if b6 then push x6 buckets else buckets in
   let buckets := if b7 then push x7 buckets else buckets in
   let buckets := if b8 then push x8 buckets else buckets in
   buckets)
  = (if b1 then [x1] else []) ++ (if b2 then [x2] else [])
    ++ (if b3 then [x3] else []) ++ (if b4 then [x4] else [])
    ++ (if b5 then [x5] else []) ++ (if b6 then [x6] else [])
    ++ (if b7 then [x7] else []) ++ (if b8 then [x8] else []) ++ [].
Proof. destruct b1, b2, b3, b4, b5, b6, b7, b8; reflexivity. Qed.

(** The chain of [push]es, for any way of telling which keys are selected. *)
Lemma pushes_by_table (sel : string -> bool) :
  (let buckets : list string := [] in
   let buckets := if sel "abuse" then push "Safety/Crisis" buckets else buckets in
   let buckets :=
     if sel "emotional" || sel "addiction"
     then push "Mental Health & Addiction" buckets else buckets in
   let buckets := if sel "employment" then push "Employment & Skills" buckets else buckets in
   let buckets := if sel "finance" then push "Money/Debt Advice" buckets else buckets in
   let buckets := if sel "housing" then push "Housing Support" buckets else buckets in
   let buckets :=
     if sel "relationships" then push "Family/Relationship Support" buckets else buckets in
   let buckets := if sel "health" then push "Physical Health Navigation" buckets else buckets in
   let buckets := if sel "social" then push "Connection/Peer Support" buckets else buckets in
   buckets) = bucketsByTable sel.
Proof.
  unfold bucketsByTable, BUCKET_RULES. rewrite !fires_cons.
  cbn [existsb]. rewrite !orb_false_r.
  exact (push_chain (sel "abuse") (sel "emotional" || sel "addiction")
           (sel "employment") (sel "finance") (sel "housing")
           (sel "relationships") (sel "health") (sel "social") _ _ _ _ _ _ _ _).
Qed.

Lemma buckets_by_table d :
  buckets (computeClassification d) = bucketsByTable (selectedIn (concerns d)).
Proof.
  rewrite <- pushes_by_table.
  unfold computeClassification; cbn [buckets].
  rewrite !has_newSet. reflexivity.
Qed.

Lemma bucketsByTable_ext (sel sel' : string -> bool) :
  (∀ key, sel key = sel' key) → bucketsByTable sel = bucketsByTable sel'.
Proof.
  intros E. rewrite <- !pushes_by_table. cbn zeta. rewrite !E. reflexivity.
Qed.

Lemma BUCKET_ORDER_NoDup : NoDup BUCKET_ORDER.
Proof. refine (bool_decide_unpack _ _). vm_compute. exact I. Qed.

Lemma bucketsByTable_sublist sel : bucketsByTable sel `sublist_of` BUCKET_ORDER.
Proof. unfold bucketsByTable, BUCKET_ORDER. apply fmap_sublist, sublist_filter. Qed.

(** A bucket is listed exactly when its rule fires. *)
Lemma elem_of_bucketsByTable sel keys b :
  (keys, b) ∈ BUCKET_RULES → b ∈ bucketsByTable sel ↔ existsb sel keys = true.
Proof.
  intros Hin. unfold bucketsByTable. rewrite list_elem_of_fmap. split.
  - intros ([keys' b'] & -> & Hf). apply list_elem_of_filter in Hf as [Hf Hin'].
    apply Is_true_true in Hf. unfold fires in Hf. cbn [fst snd] in *.
    assert (keys' = keys) as <-; [|exact Hf].
    apply list_elem_of_In in Hin, Hin'. cbn in Hin, Hin'.
    repeat (destruct Hin as [Hin|Hin]; [inversion Hin; subst; clear Hin|]);
      try contradiction;
      repeat (destruct Hin' as [Hin'|Hin']; [inversion Hin'; subst; clear Hin'|]);
      try contradiction; reflexivity.
  - intros Hf. exists (keys, b). split; [reflexivity|].
    apply list_elem_of_filter. split; [|exact Hin].
    apply Is_true_true. exact Hf.
Qed.

Lemma selectedIn_true cs key : selectedIn cs key = true ↔ lit key ∈ cs.
Proof. unfold selectedIn. apply bool_decide_eq_true. Qed.

Ltac bucket_rule keys :=
  rewrite (elem_of_bucketsByTable _ keys) by (apply list_elem_of_In; cbn; tauto);
  cbn [existsb]; rewrite ?orb_false_r, ?orb_true_iff, !selectedIn_true; reflexivity.

(** C1: the risk score is the sum of the independent contributions of
    severity (moderate 2, high 4, crisis 6, low or unset 0), the four risk
    flags (selfHarm 6, domesticAbuse 6, harmToOthers 4, substanceRisk 3),
    housing (homeless or atRisk 3) and employment status (unemployed or
    unableToWork 2); hence it lies between 0 and 30 for every record. *)
Theorem riskScore_additive d :
  riskScore (computeClassification d)
  = ((match severity d with
      | Some moderate => 2 | Some high => 4 | Some crisis => 6
      | Some low | None => 0
      end)
     + (if selfHarm (riskFlags d) then 6 else 0)
     + (if domesticAbuse (riskFlags d) then 6 else 0)
     + (if harmToOthers (riskFlags d) then 4 else 0)
     + (if substanceRisk (riskFlags d) then 3 else 0)
     + (match housing d with Some homeless | Some atRisk => 3 | _ => 0 end)
     + (match employmentStatus d with
        | Some unemployed | Some unableToWork => 2 | _ => 0
        end))%Z
  ∧ (0 <= riskScore (computeClassification d) <= 30)%Z.
Proof.
  split; [apply riskScore_sum|].
  rewrite riskScore_sum.
  pose proof (severityPoints_range (severity d)).
  pose proof (flagPoints_range 6 (selfHarm (riskFlags d)) ltac:(lia)).
  pose proof (flagPoints_range 6 (domesticAbuse (riskFlags d)) ltac:(lia)).
  pose proof (flagPoints_range 4 (harmToOthers (riskFlags d)) ltac:(lia)).
  pose proof (flagPoints_range 3 (substanceRisk (riskFlags d)) ltac:(lia)).
  pose proof (housingPoints_range (housing d)).
  pose proof (employmentPoints_range (employmentStatus d)).
  lia.
Qed.

(** C2: the priority depends on the risk score alone, by inclusive lower
    thresholds with the highest one winning: 12 and above Immediate, 8 to
    11 High, 4 to 7 Medium, below 4 Low. A record with severity crisis, no
    risk flag, secure housing, employed and the one concern "emotional" gets
    score 6, priority Medium and the one bucket Mental Health & Addiction. *)
Theorem priority_thresholds d :
  let r := computeClassification d in
  priority r = priorityOf (riskScore r)
  ∧ ((12 <= riskScore r)%Z → priority r = Immediate)
  ∧ ((8 <= riskScore r < 12)%Z → priority r = High)
  ∧ ((4 <= riskScore r < 8)%Z → priority r = Medium)
  ∧ ((riskScore r < 4)%Z → priority r = Low)
  ∧ (severity d = Some crisis →
     riskFlags d = {| selfHarm := false; harmToOthers := false;
                      domesticAbuse := false; substanceRisk := false |} →
     housing d = Some secure →
     employmentStatus d = Some employed →
     concerns d = [lit "emotional"] →
     r = {| riskScore := 6; buckets := ["Mental Health & Addiction"];
            priority := Medium |}).
Proof.
  intros r. subst r. rewrite priority_of_score.
  generalize (riskScore (computeClassification d)) as n. intros n.
  unfold priorityOf.
  repeat split.
  - intros Hn. destruct (Z.leb_spec 12 n); [reflexivity|lia].
  - intros Hn. destruct (Z.leb_spec 12 n); [lia|].
    destruct (Z.leb_spec 8 n); [reflexivity|lia].
  - intros Hn. destruct (Z.leb_spec 12 n); [lia|].
    destruct (Z.leb_spec 8 n); [lia|].
    destruct (Z.leb_spec 4 n); [reflexivity|lia].
  - intros Hn. destruct (Z.leb_spec 12 n); [lia|].
    destruct (Z.leb_spec 8 n); [lia|].
    destruct (Z.leb_spec 4 n); [lia|reflexivity].
  - intros Hs Hr Hh He Hc. unfold computeClassification.
    rewrite Hs, Hr, Hh, He, Hc. vm_compute. reflexivity.
Qed.

Lemma priority_thresholds_witness :
  computeClassification
    (withTriage initialData (Some crisis) (riskFlags initialData) (Some secure)
       (Some employed) [lit "emotional"])
  = {| riskScore := 6; buckets := ["Mental Health & Addiction"]; priority := Medium |}.
Proof.
  apply (priority_thresholds
           (withTriage initialData (Some crisis) (riskFlags initialData) (Some secure)
              (Some employed) [lit "emotional"])); reflexivity.
Defined.

(** C3: the bucket list has no duplicates, is a subsequence of the
    canonical order, lists each bucket exactly when one of its triggering
    concern keys is among the concerns, and is the same for any two records
    whose concerns hold the same keys, in whatever order (and however often)
    they were added. Mental Health & Addiction comes from "emotional" or
    "addiction" and, the list being duplicate-free, appears once when both
    are present. *)
Theorem buckets_canonical d :
  let bs := buckets (computeClassification d) in
  NoDup bs
  ∧ bs `sublist_of`
      ["Safety/Crisis"; "Mental Health & Addiction"; "Employment & Skills";
       "Money/Debt Advice"; "Housing Support"; "Family/Relationship Support";
       "Physical Health Navigation"; "Connection/Peer Support"]
  ∧ ("Safety/Crisis" ∈ bs ↔ lit "abuse" ∈ concerns d)
  ∧ ("Mental Health & Addiction" ∈ bs
     ↔ lit "emotional" ∈ concerns d ∨ lit "addiction" ∈ concerns d)
  ∧ ("Employment & Skills" ∈ bs ↔ lit "employment" ∈ concerns d)
  ∧ ("Money/Debt Advice" ∈ bs ↔ lit "finance" ∈ concerns d)
  ∧ ("Housing Support" ∈ bs ↔ lit "housing" ∈ concerns d)
  ∧ ("Family/Relationship Support" ∈ bs ↔ lit "relationships" ∈ concerns d)
  ∧ ("Physical Health Navigation" ∈ bs ↔ lit "health" ∈ concerns d)
  ∧ ("Connection/Peer Support" ∈ bs ↔ lit "social" ∈ concerns d)
  ∧ (∀ d', concerns d' ≡ₚ concerns d → buckets (computeClassification d') = bs)
  ∧ (∀ d', (∀ key, key ∈ concerns d' ↔ key ∈ concerns d) →
           buckets (computeClassification d') = bs).
Proof.
  intros bs. subst bs. rewrite buckets_by_table.
  assert (Hsame : ∀ d', (∀ key, key ∈ concerns d' ↔ key ∈ concerns d) →
            buckets (computeClassification d') = bucketsByTable (selectedIn (concerns d))).
  { intros d' E. rewrite buckets_by_table. apply bucketsByTable_ext.
    intros key. unfold selectedIn. apply bool_decide_ext, E. }
  split; [exact (sublist_NoDup _ _ BUCKET_ORDER_NoDup (bucketsByTable_sublist _))|].
  split; [apply bucketsByTable_sublist|].
  split; [bucket_rule ["abuse"]|].
  split; [bucket_rule ["emotional"; "addiction"]|].
  split; [bucket_rule ["employment"]|].
  split; [bucket_rule ["finance"]|].
  split; [bucket_rule ["housing"]|].
  split; [bucket_rule ["relationships"]|].
  split; [bucket_rule ["health"]|].
  split; [bucket_rule ["social"]|].
  split; [|exact Hsame].
  intros d' E. apply Hsame. intros key. rewrite E. reflexivity.
Qed.

Lemma buckets_canonical_witness :
  buckets (computeClassification
             (withConcerns [lit "addiction"; lit "abuse"; lit "emotional"] initialData))
  = buckets (computeClassification
               (withConcerns [lit "abuse"; lit "addiction"; lit "emotional"] initialData)).
Proof.
  destruct (buckets_canonical
              (withConcerns [lit "abuse"; lit "addiction"; lit "emotional"] initialData))
    as (_ & _ & _ & _ & _ & _ & _ & _ & _ & _ & Hperm & _).
  apply Hperm. simpl. apply perm_swap.
Defined.

(** C8: raising one contributing field from a zero-weight state, all other
    fields unchanged, never lowers the risk score. *)
Theorem riskScore_monotone d :
  let score x := riskScore (computeClassification x) in
  (∀ v, severityPoints (severity d) = 0%Z → (score d <= score (withSeverity v d))%Z)
  ∧ (∀ b, selfHarm (riskFlags d) = false → (score d <= score (withSelfHarm b d))%Z)
  ∧ (∀ b, domesticAbuse (riskFlags d) = false →
          (score d <= score (withDomesticAbuse b d))%Z)
  ∧ (∀ b, harmToOthers (riskFlags d) = false →
          (score d <= score (withHarmToOthers b d))%Z)
  ∧ (∀ b, substanceRisk (riskFlags d) = false →
          (score d <= score (withSubstanceRisk b d))%Z)
  ∧ (∀ v, housingPoints (housing d) = 0%Z → (score d <= score (withHousing v d))%Z)
  ∧ (∀ v, employmentPoints (employmentStatus d) = 0%Z →
          (score d <= score (withEmploymentStatus v d))%Z).
Proof.
  intros score. subst score. cbn beta.
  repeat split; intros v Hz; rewrite !riskScore_sum; cbn; rewrite Hz.
  - pose proof (severityPoints_range v). lia.
  - pose proof (flagPoints_range 6 v). cbn [flagPoints]. lia.
  - pose proof (flagPoints_range 6 v). cbn [flagPoints]. lia.
  - pose proof (flagPoints_range 4 v). cbn [flagPoints]. lia.
  - pose proof (flagPoints_range 3 v). cbn [flagPoints]. lia.
  - pose proof (housingPoints_range v). lia.
  - pose proof (employmentPoints_range v). lia.
Qed.

Lemma riskScore_monotone_witness :
  (riskScore (computeClassification initialData)
   <= riskScore (computeClassification (withSeverity (Some crisis) initialData)))%Z
  ∧ (riskScore (computeClassification initialData)
     <= riskScore (computeClassification (withSelfHarm true initialData)))%Z
  ∧ (riskScore (computeClassification initialData)
     <= riskScore (computeClassification (withHousing (Some homeless) initialData)))%Z.
Proof.
  pose proof (riskScore_monotone initialData) as (Hs & Hf & _ & _ & _ & Hh & _).
  split; [apply Hs; reflexivity|].
  split; [apply Hf; reflexivity|apply Hh; reflexivity].
Defined.

(** C9: two records that differ only in their concerns get the same risk
    score and the same priority. *)
Theorem concerns_leave_score d1 d2 :
  sameButConcerns d1 d2 →
  riskScore (computeClassification d1) = riskScore (computeClassification d2)
  ∧ priority (computeClassification d1) = priority (computeClassification d2).
Proof.
  intros ->. rewrite !priority_of_score, !riskScore_sum. split; reflexivity.
Qed.

Lemma concerns_leave_score_witness :
  riskScore (computeClassification initialData)
  = riskScore (computeClassification
                 (withConcerns [lit "abuse"; lit "housing"] initialData))
  ∧ priority (computeClassification initialData)
    = priority (computeClassification
                  (withConcerns [lit "abuse"; lit "housing"] initialData)).
Proof.
  apply (concerns_leave_score initialData
           (withConcerns [lit "abuse"; lit "housing"] initialData)).
  reflexivity.
Defined.

End Triage.

(** ** Facts about the matcher *)

Section Matcher.

Implicit Types (s : jsstring) (k : cont) (cls : N -> bool) (r : regex).

(** What a greedy class iteration accepts: a non-empty run of class
    members, after which the continuation accepts. *)
Lemma plus_loop_spec cls k s : ∀ i,
  plus_loop cls k i s = true
  ↔ ∃ a rest, s = a ++ rest ∧ a ≠ [] ∧ forallb cls a = true
              ∧ k (i + length a)%nat rest = true.
Proof.
  induction s as [|x s IH]; intros i; cbn [plus_loop].
  - split; [discriminate|].
    intros (a & rest & E & Ha & _). symmetry in E.
    apply app_eq_nil in E as [-> _]. contradiction.
  - rewrite andb_true_iff, orb_true_iff, IH. split.
    + intros [Hx [(a & rest & -> & _ & Hall & Hk)|Hk]].
      * exists (x :: a), rest. cbn [forallb length]. rewrite Hx, Hall.
        rewrite Nat.add_succ_r. repeat split; [discriminate|exact Hk].
      * exists [x], s. cbn [forallb length]. rewrite Hx.
        rewrite Nat.add_1_r. repeat split; [discriminate|exact Hk].
    + intros (a & rest & E & Ha & Hall & Hk).
      destruct a as [|y a]; [contradiction|].
      cbn [app] in E. injection E as <- ->.
      cbn [forallb] in Hall. apply andb_true_iff in Hall as [Hx Hall].
      split; [exact Hx|].
      destruct a as [|z a].
      * right. cbn in Hk. rewrite Nat.add_1_r in Hk. exact Hk.
      * left. exists (z :: a), rest. repeat split; [discriminate|exact Hall|].
        cbn [length] in *. rewrite Nat.add_succ_r in Hk. exact Hk.
Qed.

Lemma run_Chr_Seq cls r k i s :
  run (Seq (Chr cls) r) k i s = true
  ↔ ∃ x s', s = x :: s' ∧ cls x = true ∧ run r k (S i) s' = true.
Proof.
  cbn [run]. destruct s as [|x s'].
  - split; [discriminate|]. intros (? & ? & ? & _). discriminate.
  - rewrite andb_true_iff. split.
    + intros [? ?]. eauto.
    + intros (? & ? & E & ? & ?). injection E as <- <-. auto.
Qed.

Lemma run_Eol_accept i s : run Eol accept i s = true ↔ s = [].
Proof. destruct s; cbn; split; intros; done. Qed.

(** A pattern that starts with [^] can only match from index 0, so
    [test] comes down to one attempt there. *)
Lemma test_anchored r s : test (Seq Bol r) s = run r accept 0 s.
Proof.
  unfold test. cbn [seq existsb]. unfold matchAt at 1. change (drop 0 s) with s. cbn [run Nat.eqb andb].
  destruct (run r accept 0 s); [reflexivity|]. cbn [orb].
  apply not_true_is_false. intros H.
  apply existsb_exists in H as (i & Hi & Hm). apply in_seq in Hi.
  unfold matchAt in Hm. cbn [run] in Hm.
  destruct i; [lia|]. discriminate.
Qed.

Lemma isWhiteSpace_ascii_graphic c : 33 <= c <= 159 → isWhiteSpace c = false.
Proof.
  intros Hc. unfold isWhiteSpace.
  repeat (rewrite (proj2 (N.eqb_neq c _)) by lia).
  rewrite (proj2 (N.leb_gt _ _)) by lia. reflexivity.
Qed.

Lemma inRange_spec lo hi c : inRange lo hi c = true ↔ code lo <= c <= code hi.
Proof. unfold inRange. rewrite andb_true_iff, !N.leb_le. reflexivity. Qed.

(** The [i] flag changes nothing for [[^\s@]], ["@"] and ["."]: folding
    the case of a letter never gives or takes white space, ["@"] or ["."]. *)
Lemma canonicalize_cases c :
  canonicalize c = c ∨ (97 <= c <= 122 ∧ canonicalize c = c - 32).
Proof.
  unfold canonicalize. destruct (inRange "a" "z" c) eqn:E; [right|left; reflexivity].
  apply inRange_spec in E. change (code "a") with 97 in E. change (code "z") with 122 in E.
  split; [exact E|reflexivity].
Qed.

Lemma icase_notSpaceAt c : icase notSpaceAt c = true ↔ plainUnit c.
Proof.
  unfold icase, notSpaceAt, inverted, union, space, only, plainUnit.
  change (code "@") with 64.
  rewrite negb_true_iff, orb_false_iff, N.eqb_neq.
  destruct (canonicalize_cases c) as [->|[Hc ->]]; [reflexivity|].
  rewrite !isWhiteSpace_ascii_graphic by lia. split; intros _; split; (reflexivity || lia).
Qed.

Lemma icase_only a c :
  code a < 65 → icase (only a) c = true ↔ c = code a.
Proof.
  intros Ha. unfold icase, only. rewrite N.eqb_eq.
  destruct (canonicalize_cases c) as [->|[Hc ->]]; [reflexivity|]. lia.
Qed.

Lemma forallb_plainPart a :
  a ≠ [] ∧ forallb (icase notSpaceAt) a = true ↔ plainPart a.
Proof.
  unfold plainPart. rewrite forallb_forall, Forall_forall.
  split; intros [Ha H]; (split; [exact Ha|]); intros x Hx.
  - apply icase_notSpaceAt, H, list_elem_of_In, Hx.
  - apply icase_notSpaceAt, H, list_elem_of_In, Hx.
Qed.

(** The email pattern accepts exactly the strings of the
    [local@domain.tld] shape. *)
Lemma emailRe_shape s : test emailRe s = true ↔ EmailShape s.
Proof.
  unfold emailRe. cbn [seqs]. rewrite test_anchored. cbn [run].
  rewrite plus_loop_spec. unfold EmailShape. split.
  - intros (loc & r1 & -> & Hl & Hlall & H).
    change (run (Seq (Chr (icase (only "@")))
              (Seq (Plus (icase notSpaceAt))
                 (Seq (Chr (icase (only ".")))
                    (Seq (Plus (icase notSpaceAt)) Eol)))) accept
              (0 + length loc) r1 = true) in H.
    apply run_Chr_Seq in H as (x & r2 & -> & Hx & H).
    apply icase_only in Hx; [|reflexivity]. subst x.
    cbn [run] in H. apply plus_loop_spec in H as (dom & r3 & -> & Hd & Hdall & H).
    change (run (Seq (Chr (icase (only "."))) (Seq (Plus (icase notSpaceAt)) Eol))
              accept (S (0 + length loc) + length dom) r3 = true) in H.
    apply run_Chr_Seq in H as (y & r4 & -> & Hy & H).
    apply icase_only in Hy; [|reflexivity]. subst y.
    cbn [run] in H. apply plus_loop_spec in H as (tld & r5 & -> & Ht & Htall & H).
    apply run_Eol_accept in H. subst r5. rewrite app_nil_r.
    exists loc, dom, tld. split; [reflexivity|].
    repeat split; try assumption; apply forallb_plainPart; auto.
  - intros (loc & dom & tld & -> & Hl & Hd & Ht).
    apply forallb_plainPart in Hl as [Hl Hlall], Hd as [Hd Hdall], Ht as [Ht Htall].
    exists loc, (lit "@" ++ dom ++ lit "." ++ tld).
    split; [reflexivity|]. split; [exact Hl|]. split; [exact Hlall|].
    change (run (Seq (Chr (icase (only "@")))
              (Seq (Plus (icase notSpaceAt))
                 (Seq (Chr (icase (only ".")))
                    (Seq (Plus (icase notSpaceAt)) Eol)))) accept
              (0 + length loc) (lit "@" ++ dom ++ lit "." ++ tld) = true).
    apply run_Chr_Seq. exists (code "@"), (dom ++ lit "." ++ tld).
    split; [reflexivity|]. split; [apply icase_only; reflexivity|].
    cbn [run]. apply plus_loop_spec. exists dom, (lit "." ++ tld).
    split; [reflexivity|]. split; [exact Hd|]. split; [exact Hdall|].
    change (run (Seq (Chr (icase (only "."))) (Seq (Plus (icase notSpaceAt)) Eol))
              accept (S (0 + length loc) + length dom) (lit "." ++ tld) = true).
    apply run_Chr_Seq. exists (code "."), tld.
    split; [reflexivity|]. split; [apply icase_only; reflexivity|].
    cbn [run]. apply plus_loop_spec. exists tld, [].
    split; [symmetry; apply app_nil_r|]. split; [exact Ht|]. split; [exact Htall|].
    reflexivity.
Qed.

End Matcher.

(** ** Step validation *)

Section Validation.

Implicit Types (d : IntakeData) (s : jsstring).

Lemma defined_is_Some {A} (o : option A) : defined o = true ↔ is_Some o.
Proof. destruct o; cbn; split; intros H; try done; by destruct H. Qed.

Lemma truthy_false s : negb (truthy s) = true ↔ s = [].
Proof. destruct s; cbn; split; intros; done. Qed.

Lemma len_gt n s : (n <? len s) = true ↔ n < len s.
Proof. apply N.ltb_lt. Qed.

(** Which keys step 1 sets, read off the conditions of its [if]s. *)
Lemma step1_firstName d :
  defined (validateStep 1 d !! "firstName")
  = negb (truthy (trim (firstName d))) || (MAX_NAME_LENGTH <? len (firstName d)).
Proof.
  unfold validateStep.
  destruct (negb (truthy (trim (firstName d)))), (MAX_NAME_LENGTH <? len (firstName d)),
    (negb (truthy (trim (lastName d)))), (MAX_NAME_LENGTH <? len (lastName d)),
    (negb (truthy (trim (email d))) || negb (test emailRe (email d))),
    (truthy_opt (phone d) && negb (test ukPhoneRe (default [] (phone d)))),
    (truthy_opt (postcode d) && negb (test postcodeRe (default [] (postcode d))));
    vm_compute; reflexivity.
Qed.

Lemma step1_lastName d :
  defined (validateStep 1 d !! "lastName")
  = negb (truthy (trim (lastName d))) || (MAX_NAME_LENGTH <? len (lastName d)).
Proof.
  unfold validateStep.
  destruct (negb (truthy (trim (firstName d)))), (MAX_NAME_LENGTH <? len (firstName d)),
    (negb (truthy (trim (lastName d)))), (MAX_NAME_LENGTH <? len (lastName d)),
    (negb (truthy (trim (email d))) || negb (test emailRe (email d))),
    (truthy_opt (phone d) && negb (test ukPhoneRe (default [] (phone d)))),
    (truthy_opt (postcode d) && negb (test postcodeRe (default [] (postcode d))));
    vm_compute; reflexivity.
Qed.

Lemma step1_email d :
  defined (validateStep 1 d !! "email")
  = negb (truthy (trim (email d))) || negb (test emailRe (email d)).
Proof.
  unfold validateStep.
  destruct (negb (truthy (trim (firstName d)))), (MAX_NAME_LENGTH <? len (firstName d)),
    (negb (truthy (trim (lastName d)))), (MAX_NAME_LENGTH <? len (lastName d)),
    (negb (truthy (trim (email d))) || negb (test emailRe (email d))),
    (truthy_opt (phone d) && negb (test ukPhoneRe (default [] (phone d)))),
    (truthy_opt (postcode d) && negb (test postcodeRe (default [] (postcode d))));
    vm_compute; reflexivity.
Qed.

Lemma step5_privacy d :
  defined (validateStep 5 d !! "privacy") = negb (privacyPolicyAccepted (consent d)).
Proof.
  unfold validateStep.
  destruct (privacyPolicyAccepted (consent d)), (crisisProtocolOk (consent d)),
    (eqs (severity d) high || eqs (severity d) crisis); vm_compute; reflexivity.
Qed.

Lemma step5_crisis d :
  defined (validateStep 5 d !! "crisis")
  = negb (crisisProtocolOk (consent d))
    && (eqs (severity d) high || eqs (severity d) crisis).
Proof.
  unfold validateStep.
  destruct (privacyPolicyAccepted (consent d)), (crisisProtocolOk (consent d)),
    (eqs (severity d) high || eqs (severity d) crisis); vm_compute; reflexivity.
Qed.

Lemma name_rule s :
  negb (truthy (trim s)) || (MAX_NAME_LENGTH <? len s) = true
  ↔ trim s = [] ∨ (100 < length s)%nat.
Proof.
  rewrite orb_true_iff, truthy_false, len_gt. unfold MAX_NAME_LENGTH, len.
  split; (intros [?|?]; [left; assumption|right; lia]).
Qed.

Lemma email_rule s :
  negb (truthy (trim s)) || negb (test emailRe s) = true
  ↔ trim s = [] ∨ ¬ EmailShape s.
Proof.
  rewrite orb_true_iff, truthy_false, negb_true_iff, <- emailRe_shape.
  rewrite not_true_iff_false. reflexivity.
Qed.

(** C4: at step 5 the mapping has key "privacy" exactly when the privacy
    policy is not accepted, and key "crisis" exactly when severity is high
    or crisis and the crisis protocol is not acknowledged; so severity high
    with crisisProtocolOk false gives a mapping with key "crisis". *)
Theorem validateStep_consent d :
  (reports (validateStep 5 d) "privacy" ↔ privacyPolicyAccepted (consent d) = false)
  ∧ (reports (validateStep 5 d) "crisis"
     ↔ (severity d = Some high ∨ severity d = Some crisis)
       ∧ crisisProtocolOk (consent d) = false)
  ∧ (severity d = Some high → crisisProtocolOk (consent d) = false →
     reports (validateStep 5 d) "crisis").
Proof.
  assert (Hc : reports (validateStep 5 d) "crisis"
     ↔ (severity d = Some high ∨ severity d = Some crisis)
       ∧ crisisProtocolOk (consent d) = false).
  { unfold reports. rewrite <- defined_is_Some, step5_crisis.
    rewrite andb_true_iff, orb_true_iff, negb_true_iff, !eqs_Some. tauto. }
  split; [|split; [exact Hc|]].
  - unfold reports. rewrite <- defined_is_Some, step5_privacy.
    apply negb_true_iff.
  - intros Hs Hk. apply Hc. auto.
Qed.

Lemma validateStep_consent_witness :
  reports (validateStep 5 (withSeverity (Some high) initialData)) "crisis".
Proof.
  apply (validateStep_consent (withSeverity (Some high) initialData)); reflexivity.
Defined.

(** C5: at step 1 the mapping has key "firstName" exactly when the first
    name is empty after trimming or longer than 100 (UTF-16 units), key
    "lastName" under the same rule for the last name, and key "email"
    exactly when the email is empty after trimming or is not of the
    local@domain.tld shape. With an empty first name, last name "Smith" and email
    "not-an-email" the keys "firstName" and "email" are present and
    "lastName" is not. *)
Theorem validateStep_identity d :
  (reports (validateStep 1 d) "firstName"
   ↔ trim (firstName d) = [] ∨ (100 < length (firstName d))%nat)
  ∧ (reports (validateStep 1 d) "lastName"
     ↔ trim (lastName d) = [] ∨ (100 < length (lastName d))%nat)
  ∧ (reports (validateStep 1 d) "email"
     ↔ trim (email d) = [] ∨ ¬ EmailShape (email d))
  ∧ (firstName d = [] → lastName d = lit "Smith" →
     email d = lit "not-an-email" →
     reports (validateStep 1 d) "firstName"
     ∧ reports (validateStep 1 d) "email"
     ∧ ¬ reports (validateStep 1 d) "lastName").
Proof.
  assert (Hf : reports (validateStep 1 d) "firstName"
               ↔ trim (firstName d) = [] ∨ (100 < length (firstName d))%nat).
  { unfold reports. rewrite <- defined_is_Some, step1_firstName. apply name_rule. }
  assert (Hl : reports (validateStep 1 d) "lastName"
               ↔ trim (lastName d) = [] ∨ (100 < length (lastName d))%nat).
  { unfold reports. rewrite <- defined_is_Some, step1_lastName. apply name_rule. }
  assert (He : reports (validateStep 1 d) "email"
               ↔ trim (email d) = [] ∨ ¬ EmailShape (email d)).
  { unfold reports. rewrite <- defined_is_Some, step1_email. apply email_rule. }
  split; [exact Hf|]. split; [exact Hl|]. split; [exact He|].
  intros Ef El Ee. rewrite Hf, He, Hl, Ef, El, Ee.
  split; [|split].
  - left. reflexivity.
  - right. rewrite <- emailRe_shape. vm_compute. discriminate.
  - vm_compute. intros [E|E]; [discriminate|lia].
Qed.

Lemma validateStep_identity_witness :
  reports (validateStep 1 (withIdentity [] (lit "Smith") (lit "not-an-email")
                             initialData)) "firstName"
  ∧ reports (validateStep 1 (withIdentity [] (lit "Smith") (lit "not-an-email")
                               initialData)) "email"
  ∧ ¬ reports (validateStep 1 (withIdentity [] (lit "Smith") (lit "not-an-email")
                                 initialData)) "lastName".
Proof.
  apply (validateStep_identity
           (withIdentity [] (lit "Smith") (lit "not-an-email") initialData));
    reflexivity.
Defined.

(** C10: for a step number outside 1 to 5 the error mapping is empty,
    whatever the record. *)
Theorem validateStep_out_of_range (step : Z) d :
  (step < 1 ∨ 5 < step)%Z → validateStep step d = ∅.
Proof.
  intros H. unfold validateStep, block. cbn [fold_left].
  rewrite !(proj2 (Z.eqb_neq step _)) by lia. reflexivity.
Qed.

Lemma validateStep_out_of_range_witness :
  validateStep 0 initialData = ∅ ∧ validateStep 6 initialData = ∅.
Proof.
  split; apply validateStep_out_of_range; lia.
Defined.

End Validation.

(** ** Sanitisation *)

Section Sanitize.

Implicit Types (s t : jsstring) (c : N).

Lemma trimStart_split s : ∃ ws, s = ws ++ trimStart s.
Proof.
  induction s as [|c s [ws IH]]; [exists []; reflexivity|].
  cbn [trimStart]. destruct (isWhiteSpace c).
  - exists (c :: ws). cbn. f_equal. exact IH.
  - exists []. reflexivity.
Qed.

Lemma trimStart_clean s : startsClean (trimStart s).
Proof.
  induction s as [|c s IH]; [exact I|].
  cbn [trimStart]. destruct (isWhiteSpace c) eqn:E; [exact IH|exact E].
Qed.

Lemma trimStart_id s : startsClean s → trimStart s = s.
Proof. destruct s as [|c s]; [reflexivity|]. cbn. intros ->. reflexivity. Qed.

Lemma trimStart_fix s : trimStart s = s ↔ startsClean s.
Proof.
  split; [|apply trimStart_id]. intros <-. apply trimStart_clean.
Qed.

Lemma trimStart_snoc s c :
  isWhiteSpace c = false → trimStart (s ++ [c]) = trimStart s ++ [c].
Proof.
  intros Hc. induction s as [|x s IH]; cbn [app trimStart].
  - rewrite Hc. reflexivity.
  - destruct (isWhiteSpace x); [exact IH|reflexivity].
Qed.

Lemma trimEnd_cons c s :
  isWhiteSpace c = false → trimEnd (c :: s) = c :: trimEnd s.
Proof.
  intros Hc. unfold trimEnd.
  rewrite reverse_cons, trimStart_snoc, reverse_snoc by exact Hc. reflexivity.
Qed.

Lemma trimEnd_clean s : startsClean s → startsClean (trimEnd s).
Proof.
  destruct s as [|c s]; intros Hc; [exact I|].
  rewrite trimEnd_cons by exact Hc. exact Hc.
Qed.

Lemma trimEnd_split s : ∃ ws, s = trimEnd s ++ ws.
Proof.
  destruct (trimStart_split (reverse s)) as [ws E].
  exists (reverse ws). unfold trimEnd. rewrite <- reverse_app, <- E.
  symmetry. apply reverse_involutive.
Qed.

Lemma trimEnd_length s : (length (trimEnd s) <= length s)%nat.
Proof.
  destruct (trimEnd_split s) as [ws E]. rewrite E at 2.
  rewrite length_app. lia.
Qed.

Lemma startsClean_reverse s : startsClean (reverse s) ↔ ¬ endsInSpace s.
Proof.
  unfold endsInSpace. rewrite <- head_reverse.
  destruct (reverse s) as [|c r]; cbn.
  - split; [|auto]. intros _ (c & E & _). discriminate.
  - split.
    + intros Hc (c' & E & Hc'). injection E as <-. congruence.
    + intros H. destruct (isWhiteSpace c) eqn:E; [|reflexivity].
      exfalso. apply H. eauto.
Qed.

Lemma trimEnd_fix s : trimEnd s = s ↔ ¬ endsInSpace s.
Proof.
  rewrite <- startsClean_reverse, <- trimStart_fix. unfold trimEnd. split.
  - intros E. rewrite <- E at 2. symmetry. apply reverse_involutive.
  - intros E. rewrite E. apply reverse_involutive.
Qed.

Lemma trimEnd_idempotent s : trimEnd (trimEnd s) = trimEnd s.
Proof.
  unfold trimEnd. rewrite reverse_involutive.
  rewrite (trimStart_id (trimStart _)) by apply trimStart_clean. reflexivity.
Qed.

Lemma take_clean n s : startsClean s → startsClean (take n s).
Proof. destruct n, s; cbn; auto. Qed.

Lemma trim_Forall (P : N → Prop) s : Forall P s → Forall P (trim s).
Proof.
  intros H. unfold trim.
  destruct (trimStart_split s) as [ws E]. rewrite E in H.
  apply Forall_app in H as [_ H].
  destruct (trimEnd_split (trimStart s)) as [ws' E']. rewrite E' in H.
  apply Forall_app in H as [H _]. exact H.
Qed.

(** *** The replacements *)

Lemma replaceAll_app c r s t :
  replaceAll c r (s ++ t) = replaceAll c r s ++ replaceAll c r t.
Proof. unfold replaceAll. apply flat_map_app. Qed.

Lemma replaceAll_other c r s :
  Forall (fun x => (x =? c) = false) s → replaceAll c r s = s.
Proof.
  induction 1 as [|x s Hx _ IH]; [reflexivity|].
  unfold replaceAll in *. cbn [flat_map]. rewrite Hx, IH. reflexivity.
Qed.

Lemma escapeHtml_app s t : escapeHtml (s ++ t) = escapeHtml s ++ escapeHtml t.
Proof. unfold escapeHtml. rewrite !replaceAll_app. reflexivity. Qed.

Lemma escaped_false c :
  escaped c = false
  ↔ (c =? code "<") = false ∧ (c =? code ">") = false ∧ (c =? 0x22) = false
    ∧ (c =? code "'") = false ∧ (c =? code "/") = false.
Proof. unfold escaped. rewrite !orb_false_iff. tauto. Qed.

Lemma escapeHtml_fix s :
  Forall (fun c => escaped c = false) s → escapeHtml s = s.
Proof.
  intros H. unfold escapeHtml.
  assert (Hs : ∀ c0, (∀ c, escaped c = false → (c =? c0) = false) →
                     Forall (fun x => (x =? c0) = false) s).
  { intros c0 Hc0. eapply Forall_impl; [exact H|exact Hc0]. }
  rewrite (replaceAll_other (code "<")) by (apply Hs; intros c Hc; apply escaped_false in Hc; tauto).
  rewrite (replaceAll_other (code ">")) by (apply Hs; intros c Hc; apply escaped_false in Hc; tauto).
  rewrite (replaceAll_other 0x22) by (apply Hs; intros c Hc; apply escaped_false in Hc; tauto).
  rewrite (replaceAll_other (code "'")) by (apply Hs; intros c Hc; apply escaped_false in Hc; tauto).
  rewrite (replaceAll_other (code "/")) by (apply Hs; intros c Hc; apply escaped_false in Hc; tauto).
  reflexivity.
Qed.

(** No replacement text contains a unit that is replaced. *)
Lemma escapeHtml_unit_clean c : Forall (fun x => escaped x = false) (escapeHtml [c]).
Proof.
  destruct (escaped c) eqn:E.
  - unfold escaped in E. rewrite !orb_true_iff, !N.eqb_eq in E.
    destruct E as [[[[->| ->]| ->]| ->]| ->]; vm_compute; repeat constructor.
  - rewrite escapeHtml_fix; repeat constructor; exact E.
Qed.

Lemma escapeHtml_clean s : Forall (fun x => escaped x = false) (escapeHtml s).
Proof.
  induction s as [|c s IH]; [constructor|].
  change (c :: s) with ([c] ++ s). rewrite escapeHtml_app.
  apply Forall_app. split; [apply escapeHtml_unit_clean|exact IH].
Qed.

Lemma sanitizeInput_unfold s :
  sanitizeInput s = take (N.to_nat MAX_TEXT_LENGTH) (trim (escapeHtml s)).
Proof. reflexivity. Qed.

Lemma sanitizeInput_clean s : Forall (fun x => escaped x = false) (sanitizeInput s).
Proof.
  rewrite sanitizeInput_unfold. apply Forall_take, trim_Forall, escapeHtml_clean.
Qed.

Lemma sanitizeInput_startsClean s : startsClean (sanitizeInput s).
Proof.
  rewrite sanitizeInput_unfold. apply take_clean, trimEnd_clean, trimStart_clean.
Qed.

Lemma sanitizeInput_length s :
  (length (sanitizeInput s) <= N.to_nat MAX_TEXT_LENGTH)%nat.
Proof. rewrite sanitizeInput_unfold, length_take. lia. Qed.

(** A second pass only strips the white space the cut may have left at
    the end. *)
Lemma sanitizeInput_twice s :
  sanitizeInput (sanitizeInput s) = trimEnd (sanitizeInput s).
Proof.
  rewrite (sanitizeInput_unfold (sanitizeInput s)).
  rewrite escapeHtml_fix by apply sanitizeInput_clean.
  unfold trim. rewrite trimStart_id by apply sanitizeInput_startsClean.
  apply take_ge.
  pose proof (trimEnd_length (sanitizeInput s)).
  pose proof (sanitizeInput_length s). lia.
Qed.

(** On the 5001-unit text the first pass cuts after the space and the
    second pass strips it: [sanitizeInput] is not idempotent there. *)
Lemma sanitizeInput_longText_differs :
  sanitizeInput (sanitizeInput longText) ≠ sanitizeInput longText.
Proof.
  intros E. apply (f_equal len) in E. vm_compute in E. discriminate.
Qed.

(** C6, amended: sanitising a sanitised string changes nothing exactly
    when the first result does not end in white space, which is the case
    whenever the escaped and trimmed text has at most 5000 units, so that
    nothing is cut. The five replacements alone are idempotent, since no
    replacement text contains a replaced unit and "&" is left alone: "&lt;"
    stays "&lt;". *)
Theorem sanitizeInput_idempotent_when_uncut s :
  (sanitizeInput (sanitizeInput s) = sanitizeInput s
   ↔ ¬ endsInSpace (sanitizeInput s))
  ∧ (len (trim (escapeHtml s)) <= MAX_TEXT_LENGTH →
     sanitizeInput (sanitizeInput s) = sanitizeInput s)
  ∧ escapeHtml (escapeHtml s) = escapeHtml s
  ∧ sanitizeInput (lit "&lt;") = lit "&lt;".
Proof.
  split; [rewrite sanitizeInput_twice; apply trimEnd_fix|].
  split; [|split; [apply escapeHtml_fix, escapeHtml_clean|reflexivity]].
  intros Hlen. rewrite sanitizeInput_twice, sanitizeInput_unfold.
  rewrite take_ge by (unfold len in Hlen; lia).
  unfold trim. apply trimEnd_idempotent.
Qed.

Lemma sanitizeInput_idempotent_when_uncut_witness :
  sanitizeInput (sanitizeInput (lit " <b>Tom & 'Al'</b> "))
  = sanitizeInput (lit " <b>Tom & 'Al'</b> ").
Proof.
  apply (sanitizeInput_idempotent_when_uncut (lit " <b>Tom & 'Al'</b> ")).
  vm_compute. discriminate.
Defined.

End Sanitize.

(** ** Identifier generation *)

Section Identifier.

Implicit Types (env : Env).

(** Every byte prints as two hexadecimal digits. *)
Lemma hexPair_digits b :
  padStart 2 (code "0") (toString16 b)
  = [if b <? 16 then code "0" else hexDigit (b / 16); hexDigit (b mod 16)].
Proof.
  unfold toString16. destruct (N.ltb_spec b 16) as [H|H]; [|reflexivity].
  rewrite N.mod_small by exact H. reflexivity.
Qed.

(** A property checked on the 256 byte values holds of every byte. *)
Lemma below_256_cases (P : N → bool) :
  forallb P (N.of_nat <$> seq 0 256) = true → ∀ x, x < 256 → P x = true.
Proof.
  intros H x Hx. rewrite forallb_forall in H. apply H.
  apply list_elem_of_In, list_elem_of_fmap. exists (N.to_nat x).
  split; [lia|]. apply list_elem_of_In, in_seq. lia.
Qed.

Lemma version_nibble x :
  (let b := N.lor (N.land (x mod 256) 0x0f) 0x40 mod 256 in
   if b <? 16 then code "0" else hexDigit (b / 16)) = code "4".
Proof.
  apply N.eqb_eq.
  apply (below_256_cases (fun y =>
    (let b := N.lor (N.land y 0x0f) 0x40 mod 256 in
     if b <? 16 then code "0" else hexDigit (b / 16)) =? code "4")).
  - vm_compute. reflexivity.
  - apply N.mod_lt. discriminate.
Qed.

Lemma variant_nibble x :
  existsb
    (N.eqb (let b := N.lor (N.land (x mod 256) 0x3f) 0x80 mod 256 in
            if b <? 16 then code "0" else hexDigit (b / 16)))
    (lit "89ab") = true.
Proof.
  apply (below_256_cases (fun y =>
    existsb
      (N.eqb (let b := N.lor (N.land y 0x3f) 0x80 mod 256 in
              if b <? 16 then code "0" else hexDigit (b / 16)))
      (lit "89ab"))).
  - vm_compute. reflexivity.
  - apply N.mod_lt. discriminate.
Qed.

(** X10: whatever the random source writes, the fallback identifier has the
    layout of a version-4 UUID: 36 units, dashes after 8, 13, 18 and 23,
    version digit 4 and a variant digit among 8, 9, a, b. *)
Lemma uuid_fallback_layout (g : nat → N) :
  let id := uuidOfBytes (stampVersion (fillRandom g (Uint8Array 16))) in
  length id = 36%nat
  ∧ id !! 8%nat = Some (code "-") ∧ id !! 13%nat = Some (code "-")
  ∧ id !! 18%nat = Some (code "-") ∧ id !! 23%nat = Some (code "-")
  ∧ id !! 14%nat = Some (code "4")
  ∧ ∃ v, id !! 19%nat = Some v ∧ existsb (N.eqb v) (lit "89ab") = true.
Proof.
  cbn zeta. unfold uuidOfBytes.
  erewrite map_ext by (intros b; apply hexPair_digits).
  cbn [Uint8Array replicate fillRandom imap stampVersion store8 load8].
  cbn -[N.modulo N.div N.lor N.land N.ltb hexDigit code existsb].
  repeat (split; [reflexivity|]).
  split; [f_equal; apply version_nibble|].
  eexists. split; [reflexivity|]. apply variant_nibble.
Qed.

(** The two digits printed for a byte spell that byte. *)
Lemma hexPair_value b :
  b < 256 →
  16 * hexValue (if b <? 16 then code "0" else hexDigit (b / 16))
    + hexValue (hexDigit (b mod 16)) = b.
Proof.
  intros Hb. apply N.eqb_eq.
  apply (below_256_cases (fun y =>
    16 * hexValue (if y <? 16 then code "0" else hexDigit (y / 16))
      + hexValue (hexDigit (y mod 16)) =? y)); [|exact Hb].
  vm_compute. reflexivity.
Qed.

Lemma low_nibble x : (x mod 256) mod 16 = x mod 16.
Proof.
  change 256 with (16 * 16). rewrite N.Div0.mod_mul_r.
  rewrite (N.mul_comm 16), N.Div0.mod_add. apply N.Div0.mod_mod.
Qed.

Lemma low_six x : (x mod 256) mod 64 = x mod 64.
Proof.
  change 256 with (64 * 4). rewrite N.Div0.mod_mul_r.
  rewrite (N.mul_comm 64), N.Div0.mod_add. apply N.Div0.mod_mod.
Qed.

(** The stamped bytes: the version and the variant above the kept bits. *)
Lemma version_byte x :
  N.lor (N.land (x mod 256) 0x0f) 0x40 mod 256 = 0x40 + x mod 16.
Proof.
  rewrite <- (low_nibble x). apply N.eqb_eq.
  apply (below_256_cases (fun y =>
    N.lor (N.land y 0x0f) 0x40 mod 256 =? 0x40 + y mod 16)).
  - vm_compute. reflexivity.
  - apply N.mod_lt. discriminate.
Qed.

Lemma variant_byte x :
  N.lor (N.land (x mod 256) 0x3f) 0x80 mod 256 = 0x80 + x mod 64.
Proof.
  rewrite <- (low_six x). apply N.eqb_eq.
  apply (below_256_cases (fun y =>
    N.lor (N.land y 0x3f) 0x80 mod 256 =? 0x80 + y mod 64)).
  - vm_compute. reflexivity.
  - apply N.mod_lt. discriminate.
Qed.

(** Read back, the fallback identifier gives the kept bits of every byte. *)
Lemma uuid_fallback_bytes (g : nat → N) :
  uuidBytes (uuidOfBytes (stampVersion (fillRandom g (Uint8Array 16))))
  = keptBits g <$> seq 0 16.
Proof.
  unfold uuidOfBytes.
  erewrite map_ext by (intros b; apply hexPair_digits).
  cbn [Uint8Array replicate fillRandom imap stampVersion store8 load8].
  cbn -[N.modulo N.div N.lor N.land N.ltb N.mul N.add hexDigit hexValue code].
  rewrite version_byte, variant_byte.
  rewrite !hexPair_value; [reflexivity|..].
  all: try (apply N.mod_lt; discriminate).
  - pose proof (N.mod_lt (g 8%nat) 64). lia.
  - pose proof (N.mod_lt (g 6%nat) 16). lia.
Qed.

Lemma uuid_fallback_shape (g : nat → N) :
  let id := uuidOfBytes (stampVersion (fillRandom g (Uint8Array 16))) in
  length id = 36%nat
  ∧ id !! 8%nat = Some (code "-") ∧ id !! 13%nat = Some (code "-")
  ∧ id !! 18%nat = Some (code "-") ∧ id !! 23%nat = Some (code "-")
  ∧ id !! 14%nat = Some (code "4")
  ∧ ∃ v, id !! 19%nat = Some v ∧ existsb (N.eqb v) (lit "89ab") = true.
Proof.
  cbn zeta. unfold uuidOfBytes.
  erewrite map_ext by (intros b; apply hexPair_digits).
  cbn [Uint8Array replicate fillRandom imap stampVersion store8 load8].
  cbn -[N.modulo N.div N.lor N.land N.ltb hexDigit code existsb].
  repeat (split; [reflexivity|]).
  split; [f_equal; apply version_nibble|].
  eexists. split; [reflexivity|]. apply variant_nibble.
Qed.

(** Equal lists of kept bits agree at every index. *)
Lemma keptBits_determined (g g' : nat → N) :
  keptBits g <$> seq 0 16 = keptBits g' <$> seq 0 16 →
  ∀ i, (i < 16)%nat → keptBits g' i = keptBits g i.
Proof.
  intros H i Hi.
  assert (L : (keptBits g <$> seq 0 16) !! i = Some (keptBits g i)).
  { rewrite list_lookup_fmap, lookup_seq_lt by exact Hi. reflexivity. }
  rewrite H, list_lookup_fmap, lookup_seq_lt in L by exact Hi.
  injection L as L. exact L.
Qed.

(** C7: the identifier never depends on the wall clock; it is either the
    value of [crypto.randomUUID], or built from the 16 bytes written by
    [crypto.getRandomValues]: a version-4 UUID (36 units, dashes after 8, 13,
    18 and 23, version digit 4, variant digit among 8, 9, a, b) that reads
    back as the 122 bits kept of those bytes, so that two sources giving the
    same identifier agree on all of them; and when neither source is
    available the call throws instead of returning an identifier. *)
Theorem generateSecureId_strong_or_throws env :
  (∀ t, generateSecureId (withClock t env) = generateSecureId env)
  ∧ match generateSecureId env with
    | Return id =>
        ∃ c, crypto env = Some c
             ∧ (randomUUID c = Some id
                ∨ (randomUUID c = None
                   ∧ ∃ g, getRandomValues c = Some g
                          ∧ id = uuidOfBytes (stampVersion (fillRandom g (Uint8Array 16)))
                          ∧ length id = 36%nat
                          ∧ id !! 8%nat = Some (code "-") ∧ id !! 13%nat = Some (code "-")
                          ∧ id !! 18%nat = Some (code "-") ∧ id !! 23%nat = Some (code "-")
                          ∧ id !! 14%nat = Some (code "4")
                          ∧ (∃ v, id !! 19%nat = Some v
                                  ∧ existsb (N.eqb v) (lit "89ab") = true)
                          ∧ uuidBytes id = keptBits g <$> seq 0 16
                          ∧ ∀ g', id = uuidOfBytes (stampVersion (fillRandom g' (Uint8Array 16))) →
                                  ∀ i, (i < 16)%nat → keptBits g' i = keptBits g i))
    | Throw message => noRandomSource env ∧ message = "Crypto API not available"
    end
  ∧ (noRandomSource env → generateSecureId env = Throw "Crypto API not available").
Proof.
  split; [reflexivity|]. unfold generateSecureId, noRandomSource. split.
  - destruct (crypto env) as [c|]; [|split; [left|]; reflexivity].
    destruct (randomUUID c) as [uuid|] eqn:Eu; [exists c; auto|].
    destruct (getRandomValues c) as [g|] eqn:Eg.
    + exists c. split; [reflexivity|]. right. split; [exact Eu|].
      exists g. split; [exact Eg|]. split; [reflexivity|].
      cbv zeta.
      destruct (uuid_fallback_shape g) as (L & D1 & D2 & D3 & D4 & V & R).
      repeat (split; [assumption|]).
      split; [apply uuid_fallback_bytes|].
      intros g' Hid. apply keptBits_determined.
      rewrite <- !uuid_fallback_bytes, Hid. reflexivity.
    + split; [right; exists c; auto|reflexivity].
  - intros [-> | (c & -> & -> & ->)]; reflexivity.
Qed.

Lemma generateSecureId_strong_or_throws_witness :
  generateSecureId {| crypto := None; Date_now := 1793557800000 |}
  = Throw "Crypto API not available"
  ∧ generateSecureId
      {| crypto := Some {| randomUUID := None; getRandomValues := None |};
         Date_now := 1793557800000 |}
    = Throw "Crypto API not available"
  ∧ keptBits (fun i => 17 * N.of_nat i + 261) 6 = keptBits (fun i => 17 * N.of_nat i + 5) 6.
Proof.
  split; [|split].
  - apply (generateSecureId_strong_or_throws
             {| crypto := None; Date_now := 1793557800000 |}).
    left. reflexivity.
  - apply (generateSecureId_strong_or_throws
             {| crypto := Some {| randomUUID := None; getRandomValues := None |};
                Date_now := 1793557800000 |}).
    right. eexists. repeat split; reflexivity.
  - destruct (generateSecureId_strong_or_throws
                {| crypto :=
                     Some {| randomUUID := None;
                             getRandomValues := Some (fun i => 17 * N.of_nat i + 5) |};
                   Date_now := 1793557800000 |}) as (_ & H & _).
    unfold generateSecureId in H. cbn [crypto randomUUID getRandomValues] in H.
    destruct H as (c & Hc & [Hu | (_ & g & Hg & _ & _ & _ & _ & _ & _ & _ & _ & _ & H)]).
    + injection Hc as <-. discriminate Hu.
    + injection Hc as <-. injection Hg as <-.
      apply H; [vm_compute; reflexivity|lia].
Defined.

End Identifier.


(** ** Worked examples *)

Section Examples.

Example email_ok : test emailRe (lit "sam.lee@example.org") = true.
Proof. vm_compute. reflexivity. Qed.

Example email_two_ats : test emailRe (lit "a@b@c.d") = false.
Proof. vm_compute. reflexivity. Qed.

Example email_no_tld : test emailRe (lit "a@b.") = false.
Proof. vm_compute. reflexivity. Qed.

Example phone_mobile : test ukPhoneRe (lit "+44 7123 456 789") = true.
Proof. vm_compute. reflexivity. Qed.

Example phone_landline : test ukPhoneRe (lit "0207 946 0958") = true.
Proof. vm_compute. reflexivity. Qed.

(** The area code must be followed by a digit: [02\d{2}] does not stop
    after "020". *)
Example phone_landline_spaced : test ukPhoneRe (lit "020 7946 0958") = false.
Proof. vm_compute. reflexivity. Qed.

Example phone_short : test ukPhoneRe (lit "0712345678") = false.
Proof. vm_compute. reflexivity. Qed.

Example postcode_lower : test postcodeRe (lit "sw1a 1aa") = true.
Proof. vm_compute. reflexivity. Qed.

Example postcode_bad : test postcodeRe (lit "S1A 1A") = false.
Proof. vm_compute. reflexivity. Qed.

Example sanitize_tag :
  sanitizeInput (lit "  <a href='x'>/  ") = lit "&lt;a href=&#x27;x&#x27;&gt;&#x2F;".
Proof. vm_compute. reflexivity. Qed.

Example sanitize_cut : len (sanitizeInput longText) = 5000.
Proof. vm_compute. reflexivity. Qed.

Example sanitize_cut_again : len (sanitizeInput (sanitizeInput longText)) = 4999.
Proof. vm_compute. reflexivity. Qed.

(** The fallback path on a source that writes [37 i + 300] at index [i]:
    bytes are kept modulo 256, byte 6 gets version 4 and byte 8 the
    variant bits. *)
Example uuid_from_bytes :
  generateSecureId
    {| crypto := Some {| randomUUID := None;
                         getRandomValues := Some (fun i => N.of_nat (37 * i + 300)) |};
       Date_now := 0 |}
  = Return (lit "2c51769b-c0e5-4a2f-9479-9ec3e80d3257").
Proof. vm_compute. reflexivity. Qed.

(** Scenario: severity low, self-harm and domestic-abuse flags, homeless,
    unemployed, one concern "abuse". *)
Example triage_immediate :
  computeClassification
    (withTriage initialData (Some low)
       {| selfHarm := true; harmToOthers := false;
          domesticAbuse := true; substanceRisk := false |}
       (Some homeless) (Some unemployed) [lit "abuse"])
  = {| riskScore := 17; buckets := ["Safety/Crisis"]; priority := Immediate |}.
Proof. vm_compute. reflexivity. Qed.

(** The highest score: every flag set, crisis, homeless, unemployed. *)
Example triage_maximum :
  riskScore (computeClassification
    (withTriage initialData (Some crisis)
       {| selfHarm := true; harmToOthers := true;
          domesticAbuse := true; substanceRisk := true |}
       (Some homeless) (Some unemployed) [])) = 30%Z.
Proof. vm_compute. reflexivity. Qed.

(** Scenario: no concern and no severity at step 3. *)
Example step3_empty :
  validateStep 3 initialData
  = {[ "concerns" := "Pick at least one area you want help with";
       "severity" := "How urgent/severe does this feel right now?" ]}.
Proof. vm_compute. reflexivity. Qed.

Example step1_long_name :
  validateStep 1
    (withIdentity (replicate 101 (code "x")) (lit "Smith") (lit "a@b.co") initialData)
  !! "firstName" = Some "First name must be less than 100 characters".
Proof. vm_compute. reflexivity. Qed.

End Examples.

(** ** More on step validation *)

Section StepRules.

Implicit Types (d : IntakeData) (s : jsstring).

Lemma step2_keys d :
  defined (validateStep 2 d !! "employmentStatus") = negb (defined (employmentStatus d))
  ∧ defined (validateStep 2 d !! "relationshipStatus")
    = negb (defined (relationshipStatus d))
  ∧ defined (validateStep 2 d !! "housing") = negb (defined (housing d)).
Proof.
  unfold validateStep.
  destruct (employmentStatus d), (relationshipStatus d), (housing d);
    vm_compute; auto.
Qed.

Lemma undefined_None {A} (o : option A) : negb (defined o) = true ↔ o = None.
Proof. destruct o; cbn; split; intros; done. Qed.

Lemma step3_keys d :
  defined (validateStep 3 d !! "concerns") = (length (concerns d) =? 0)%nat
  ∧ defined (validateStep 3 d !! "severity") = negb (defined (severity d))
  ∧ defined (validateStep 3 d !! "concernDetails")
    = truthy_opt (concernDetails d)
      && (MAX_TEXT_LENGTH <? len (default [] (concernDetails d))).
Proof.
  unfold validateStep.
  destruct (length (concerns d) =? 0)%nat, (severity d),
    (truthy_opt (concernDetails d)
     && (MAX_TEXT_LENGTH <? len (default [] (concernDetails d))));
    vm_compute; auto.
Qed.

(** X2: at step 3 "concerns" is reported exactly when no concern is
    selected, "severity" exactly when none is chosen, and "concernDetails"
    exactly when details are given and are longer than 5000 units; empty or
    missing details pass. *)
Theorem validateStep_issues d :
  (reports (validateStep 3 d) "concerns" ↔ concerns d = [])
  ∧ (reports (validateStep 3 d) "severity" ↔ severity d = None)
  ∧ (reports (validateStep 3 d) "concernDetails"
     ↔ ∃ text, concernDetails d = Some text ∧ (5000 < length text)%nat).
Proof.
  destruct (step3_keys d) as (H1 & H2 & H3). unfold reports.
  rewrite <- !defined_is_Some, H1, H2, H3, undefined_None.
  split; [|split; [reflexivity|]].
  - rewrite Nat.eqb_eq. apply length_zero_iff_nil.
  - rewrite andb_true_iff, N.ltb_lt. unfold MAX_TEXT_LENGTH, len. split.
    + intros [Ht Hl]. destruct (concernDetails d) as [text|]; [|discriminate].
      exists text. split; [reflexivity|]. cbn in Hl. lia.
    + intros (text & -> & Hl). cbn. split; [|lia].
      destruct text; [cbn in Hl; lia|reflexivity].
Qed.


Lemma step4_key d :
  defined (validateStep 4 d !! "preferredContact") = negb (defined (preferredContact d)).
Proof. unfold validateStep. destruct (preferredContact d); vm_compute; auto. Qed.

(** X1: the selections of steps 2 and 4 are required and nothing else is
    checked there: step 2 reports employmentStatus, relationshipStatus and
    housing, and step 4 reports preferredContact, each exactly when nothing
    is selected. *)
Theorem validateStep_required_selections d :
  (reports (validateStep 2 d) "employmentStatus" ↔ employmentStatus d = None)
  ∧ (reports (validateStep 2 d) "relationshipStatus" ↔ relationshipStatus d = None)
  ∧ (reports (validateStep 2 d) "housing" ↔ housing d = None)
  ∧ (reports (validateStep 4 d) "preferredContact" ↔ preferredContact d = None).
Proof.
  destruct (step2_keys d) as (H1 & H2 & H3). unfold reports.
  rewrite <- !defined_is_Some, H1, H2, H3, step4_key, !undefined_None. tauto.
Qed.

Lemma step1_contact d :
  defined (validateStep 1 d !! "phone")
  = truthy_opt (phone d) && negb (test ukPhoneRe (default [] (phone d)))
  ∧ defined (validateStep 1 d !! "postcode")
    = truthy_opt (postcode d) && negb (test postcodeRe (default [] (postcode d))).
Proof.
  unfold validateStep.
  destruct (negb (truthy (trim (firstName d)))), (MAX_NAME_LENGTH <? len (firstName d)),
    (negb (truthy (trim (lastName d)))), (MAX_NAME_LENGTH <? len (lastName d)),
    (negb (truthy (trim (email d))) || negb (test emailRe (email d))),
    (truthy_opt (phone d) && negb (test ukPhoneRe (default [] (phone d)))),
    (truthy_opt (postcode d) && negb (test postcodeRe (default [] (postcode d))));
    vm_compute; auto.
Qed.

Lemma optional_rule (o : option jsstring) (r : regex) :
  truthy_opt o && negb (test r (default [] o)) = true
  ↔ ∃ text, o = Some text ∧ text ≠ [] ∧ test r text = false.
Proof.
  rewrite andb_true_iff, negb_true_iff. split.
  - intros [Ht Hr]. destruct o as [text|]; [|discriminate].
    exists text. repeat split; [|exact Hr]. intros ->. discriminate.
  - intros (text & -> & Hne & Hr). split; [|exact Hr].
    destruct text; [contradiction|reflexivity].
Qed.

(** X3: phone and postcode are optional: a missing or empty value is never
    reported, and a non-empty one is reported exactly when its pattern
    rejects it. *)
Theorem validateStep_contact_optional d :
  (reports (validateStep 1 d) "phone"
   ↔ ∃ text, phone d = Some text ∧ text ≠ [] ∧ test ukPhoneRe text = false)
  ∧ (reports (validateStep 1 d) "postcode"
     ↔ ∃ text, postcode d = Some text ∧ text ≠ [] ∧ test postcodeRe text = false).
Proof.
  destruct (step1_contact d) as [H1 H2]. unfold reports.
  rewrite <- !defined_is_Some, H1, H2, !optional_rule. tauto.
Qed.

(** Which message a name gets. *)
Lemma step1_firstName_message d :
  validateStep 1 d !! "firstName"
  = if negb (truthy (trim (firstName d))) then Some "First name is required"
    else if MAX_NAME_LENGTH <? len (firstName d)
         then Some "First name must be less than 100 characters"
         else None.
Proof.
  unfold validateStep.
  destruct (negb (truthy (trim (firstName d)))), (MAX_NAME_LENGTH <? len (firstName d)),
    (negb (truthy (trim (lastName d)))), (MAX_NAME_LENGTH <? len (lastName d)),
    (negb (truthy (trim (email d))) || negb (test emailRe (email d))),
    (truthy_opt (phone d) && negb (test ukPhoneRe (default [] (phone d)))),
    (truthy_opt (postcode d) && negb (test postcodeRe (default [] (postcode d))));
    vm_compute; reflexivity.
Qed.

Lemma step1_lastName_message d :
  validateStep 1 d !! "lastName"
  = if negb (truthy (trim (lastName d))) then Some "Last name is required"
    else if MAX_NAME_LENGTH <? len (lastName d)
         then Some "Last name must be less than 100 characters"
         else None.
Proof.
  unfold validateStep.
  destruct (negb (truthy (trim (firstName d)))), (MAX_NAME_LENGTH <? len (firstName d)),
    (negb (truthy (trim (lastName d)))), (MAX_NAME_LENGTH <? len (lastName d)),
    (negb (truthy (trim (email d))) || negb (test emailRe (email d))),
    (truthy_opt (phone d) && negb (test ukPhoneRe (default [] (phone d)))),
    (truthy_opt (postcode d) && negb (test postcodeRe (default [] (postcode d))));
    vm_compute; reflexivity.
Qed.

Lemma name_message_cases s (required long : string) :
  required ≠ long →
  ((if negb (truthy (trim s)) then Some required
    else if MAX_NAME_LENGTH <? len s then Some long else None) = Some required
   ↔ trim s = [])
  ∧ ((if negb (truthy (trim s)) then Some required
      else if MAX_NAME_LENGTH <? len s then Some long else None) = Some long
     ↔ trim s ≠ [] ∧ (100 < length s)%nat).
Proof.
  intros Hne. unfold MAX_NAME_LENGTH, len.
  destruct (trim s) as [|c t] eqn:E; cbn [truthy negb].
  - split; [tauto|]. split; [intros [=]; congruence|tauto].
  - destruct (N.ltb_spec 100 (N.of_nat (length s))) as [H|H].
    + split; [split; [intros [=]; congruence|discriminate]|].
      split; [intros _; split; [discriminate|lia]|reflexivity].
    + split; [split; discriminate|].
      split; [discriminate|]. intros [_ ?]. lia.
Qed.

(** X6: a blank name gets the "required" message even when it is also
    too long; the "less than 100 characters" message is for a non-blank name
    of more than 100 units. *)
Theorem validateStep_name_messages d :
  (validateStep 1 d !! "firstName" = Some "First name is required"
   ↔ trim (firstName d) = [])
  ∧ (validateStep 1 d !! "firstName" = Some "First name must be less than 100 characters"
     ↔ trim (firstName d) ≠ [] ∧ (100 < length (firstName d))%nat)
  ∧ (validateStep 1 d !! "lastName" = Some "Last name is required"
     ↔ trim (lastName d) = [])
  ∧ (validateStep 1 d !! "lastName" = Some "Last name must be less than 100 characters"
     ↔ trim (lastName d) ≠ [] ∧ (100 < length (lastName d))%nat).
Proof.
  rewrite step1_firstName_message, step1_lastName_message.
  destruct (name_message_cases (firstName d) "First name is required"
              "First name must be less than 100 characters") as [F1 F2];
    [discriminate|].
  destruct (name_message_cases (lastName d) "Last name is required"
              "Last name must be less than 100 characters") as [L1 L2];
    [discriminate|].
  auto.
Qed.

End StepRules.

(** ** Keys and fields of a step *)

Section Scoping.

Implicit Types (d : IntakeData) (s t : stmt) (ks : list string).

Lemma touches_assign k m : touches (assign k m) [k].
Proof.
  intros e key H. unfold assign, reports in *.
  destruct (decide (k = key)) as [->|Hne]; [left; apply list_elem_of_here|].
  right. rewrite lookup_insert_ne in H by exact Hne. exact H.
Qed.

Lemma touches_weaken s ks ks' : ks ⊆ ks' → touches s ks → touches s ks'.
Proof. intros Hsub H e key Hr. destruct (H e key Hr); auto. Qed.

Lemma touches_when c s ks : touches s ks → touches (when c s) ks.
Proof. intros H e key. unfold when. destruct c; [apply H|auto]. Qed.

Lemma touches_guard c s ks :
  touches s ks → touches (when c s) (if c then ks else []).
Proof. intros H e key. unfold when. destruct c; [apply H|auto]. Qed.

Lemma touches_ifElse c s t ks : touches s ks → touches t ks → touches (ifElse c s t) ks.
Proof. intros Hs Ht e key. unfold ifElse. destruct c; [apply Hs|apply Ht]. Qed.

Lemma touches_nil : touches (block []) [].
Proof. intros e key H. right. exact H. Qed.

Lemma touches_cons s ss ks ks' :
  touches s ks → touches (block ss) ks' → touches (block (s :: ss)) (ks ++ ks').
Proof.
  intros Hs Hss e key H. unfold block in *. cbn [fold_left] in H.
  destruct (Hss _ _ H) as [Hin|Hr]; [left; apply elem_of_app; auto|].
  destruct (Hs _ _ Hr) as [Hin|Hr']; [left; apply elem_of_app; auto|auto].
Qed.

Ltac touch_block :=
  repeat first [ eapply touches_cons | apply touches_nil | apply touches_assign
               | apply touches_when | apply touches_ifElse ].

Lemma not_reports_empty key : ¬ reports ∅ key.
Proof. unfold reports. rewrite lookup_empty. apply is_Some_None. Qed.

Lemma touches_steps (step : Z) (b1 b2 b3 b4 b5 : stmt) k1 k2 k3 k4 k5 :
  touches b1 k1 → touches b2 k2 → touches b3 k3 → touches b4 k4 → touches b5 k5 →
  touches (block [when (step =? 1)%Z b1; when (step =? 2)%Z b2; when (step =? 3)%Z b3;
                  when (step =? 4)%Z b4; when (step =? 5)%Z b5])
    (if (step =? 1)%Z then k1 else if (step =? 2)%Z then k2
     else if (step =? 3)%Z then k3 else if (step =? 4)%Z then k4
     else if (step =? 5)%Z then k5 else []).
Proof.
  intros T1 T2 T3 T4 T5.
  eapply touches_weaken;
    [|repeat (eapply touches_cons; [apply touches_guard; eassumption|]);
      apply touches_nil].
  destruct (Z.eqb_spec step 1), (Z.eqb_spec step 2), (Z.eqb_spec step 3),
    (Z.eqb_spec step 4), (Z.eqb_spec step 5); try lia;
    cbn [app]; rewrite ?app_nil_r; reflexivity.
Qed.

(** X4: a step reports only the keys of its own fields, whatever the
    record; a step outside 1 to 5 has none. *)
Theorem validateStep_keys_by_step (step : Z) d key :
  reports (validateStep step d) key → key ∈ stepKeys step.
Proof.
  intros H. unfold validateStep in H.
  lazymatch type of H with
  | reports (?b ∅) _ =>
      eassert (T : touches b _) by (eapply touches_steps; touch_block)
  end.
  destruct (T _ _ H) as [H'|H']; [exact H'|destruct (not_reports_empty _ H')].
Qed.

Lemma validateStep_keys_by_step_witness :
  "privacy" ∈ stepKeys 5.
Proof.
  apply (validateStep_keys_by_step 5 initialData "privacy").
  vm_compute. eauto.
Defined.

Lemma block_select (step : Z) (b1 b2 b3 b4 b5 : stmt) e :
  block [when (step =? 1)%Z b1; when (step =? 2)%Z b2; when (step =? 3)%Z b3;
         when (step =? 4)%Z b4; when (step =? 5)%Z b5] e
  = if (step =? 1)%Z then b1 e else if (step =? 2)%Z then b2 e
    else if (step =? 3)%Z then b3 e else if (step =? 4)%Z then b4 e
    else if (step =? 5)%Z then b5 e else e.
Proof.
  unfold block, when; cbn [fold_left].
  destruct (Z.eqb_spec step 1), (Z.eqb_spec step 2), (Z.eqb_spec step 3),
    (Z.eqb_spec step 4), (Z.eqb_spec step 5); try lia; reflexivity.
Qed.

Lemma same_step1 d d' :
  firstName d = firstName d' → lastName d = lastName d' → email d = email d' →
  phone d = phone d' → postcode d = postcode d' →
  validateStep 1 d = validateStep 1 d'.
Proof.
  unfold validateStep. rewrite !block_select. cbn [Z.eqb Pos.eqb].
  intros -> -> -> -> ->. reflexivity.
Qed.

Lemma same_step2 d d' :
  employmentStatus d = employmentStatus d' →
  relationshipStatus d = relationshipStatus d' → housing d = housing d' →
  validateStep 2 d = validateStep 2 d'.
Proof.
  unfold validateStep. rewrite !block_select. cbn [Z.eqb Pos.eqb].
  intros -> -> ->. reflexivity.
Qed.

Lemma same_step3 d d' :
  concerns d = concerns d' → severity d = severity d' →
  concernDetails d = concernDetails d' →
  validateStep 3 d = validateStep 3 d'.
Proof.
  unfold validateStep. rewrite !block_select. cbn [Z.eqb Pos.eqb].
  intros -> -> ->. reflexivity.
Qed.

Lemma same_step4 d d' :
  preferredContact d = preferredContact d' → validateStep 4 d = validateStep 4 d'.
Proof.
  unfold validateStep. rewrite !block_select. cbn [Z.eqb Pos.eqb].
  intros ->. reflexivity.
Qed.

Lemma same_step5 d d' :
  consent d = consent d' → severity d = severity d' →
  validateStep 5 d = validateStep 5 d'.
Proof.
  unfold validateStep. rewrite !block_select. cbn [Z.eqb Pos.eqb].
  intros -> ->. reflexivity.
Qed.

(** X5: the result of a step depends only on the fields of that step
    (step 5 also reads the severity chosen at step 3): records that agree
    on them get the same mapping. *)
Theorem validateStep_reads_own_fields d d' :
  (firstName d = firstName d' → lastName d = lastName d' → email d = email d' →
   phone d = phone d' → postcode d = postcode d' →
   validateStep 1 d = validateStep 1 d')
  ∧ (employmentStatus d = employmentStatus d' →
     relationshipStatus d = relationshipStatus d' → housing d = housing d' →
     validateStep 2 d = validateStep 2 d')
  ∧ (concerns d = concerns d' → severity d = severity d' →
     concernDetails d = concernDetails d' →
     validateStep 3 d = validateStep 3 d')
  ∧ (preferredContact d = preferredContact d' →
     validateStep 4 d = validateStep 4 d')
  ∧ (consent d = consent d' → severity d = severity d' →
     validateStep 5 d = validateStep 5 d').
Proof.
  split; [apply same_step1|]. split; [apply same_step2|].
  split; [apply same_step3|]. split; [apply same_step4|apply same_step5].
Qed.

Lemma validateStep_reads_own_fields_witness :
  validateStep 1 (withSeverity (Some crisis) initialData) = validateStep 1 initialData
  ∧ validateStep 2 (withSeverity (Some crisis) initialData) = validateStep 2 initialData
  ∧ validateStep 4 (withSeverity (Some crisis) initialData) = validateStep 4 initialData.
Proof.
  destruct (validateStep_reads_own_fields (withSeverity (Some crisis) initialData)
              initialData) as (H1 & H2 & _ & H4 & _).
  split; [apply H1; reflexivity|]. split; [apply H2; reflexivity|apply H4; reflexivity].
Defined.

End Scoping.

(** ** More on sanitisation *)

Section SanitizeMore.

Implicit Types (d : IntakeData) (s : jsstring).

Lemma plainPart_head p : plainPart p → ∃ c t, p = c :: t ∧ isWhiteSpace c = false.
Proof.
  intros [Hne H]. destruct p as [|c t]; [contradiction|].
  exists c, t. split; [reflexivity|]. apply Forall_cons in H as [[? _] _]. assumption.
Qed.

Lemma plainPart_last p : plainPart p → ∃ t c, p = t ++ [c] ∧ isWhiteSpace c = false.
Proof.
  intros [Hne H]. destruct (last p) as [c|] eqn:E.
  - apply last_Some in E as [t ->]. exists t, c. split; [reflexivity|].
    apply Forall_app in H as [_ H]. apply Forall_cons in H as [[? _] _]. assumption.
  - apply last_None in E. contradiction.
Qed.

(** A string of the email shape has no white space at either end. *)
Lemma EmailShape_trim s : EmailShape s → trim s = s.
Proof.
  intros (loc & dom & tld & -> & Hl & _ & Ht).
  apply plainPart_head in Hl as (c & t & -> & Hc).
  apply plainPart_last in Ht as (t' & c' & -> & Hc').
  unfold trim. rewrite trimStart_id by exact Hc.
  apply trimEnd_fix. intros (x & Hx & Hws).
  rewrite !app_assoc, last_snoc in Hx. injection Hx as <-. congruence.
Qed.

(** X7: the email is reported exactly when it is not of the
    local@domain.tld shape; the separate blank test adds nothing, since a
    string of that shape has no white space. *)
Theorem validateStep_email_shape_only d :
  reports (validateStep 1 d) "email" ↔ ¬ EmailShape (email d).
Proof.
  unfold reports. rewrite <- defined_is_Some, step1_email, email_rule.
  split; [|auto]. intros [Hb|Hn]; [|exact Hn].
  intros Hs. pose proof (EmailShape_trim _ Hs) as E. rewrite Hb in E.
  destruct Hs as (loc & ? & ? & Hs & [Hne _] & _). rewrite <- E in Hs.
  symmetry in Hs. apply app_eq_nil in Hs as [-> _]. contradiction.
Qed.

Lemma sanitizeInput_within s : withinLimit (sanitizeInput s).
Proof. unfold withinLimit, len. pose proof (sanitizeInput_length s). lia. Qed.

Lemma sanitizeInput_id s :
  markupFree s → startsClean s → ¬ endsInSpace s → withinLimit s → sanitizeInput s = s.
Proof.
  intros Hm Hc He Hl. rewrite sanitizeInput_unfold.
  rewrite escapeHtml_fix by exact Hm. unfold trim.
  rewrite trimStart_id by exact Hc. rewrite (proj2 (trimEnd_fix s) He).
  apply take_ge. unfold withinLimit, len in Hl. lia.
Qed.

(** X8: whatever the input, the sanitised text contains none of the five
    replaced characters, has at most 5000 units and does not start with
    white space. *)
Theorem sanitizeInput_output s :
  markupFree (sanitizeInput s) ∧ withinLimit (sanitizeInput s)
  ∧ startsClean (sanitizeInput s).
Proof.
  split; [apply sanitizeInput_clean|].
  split; [apply sanitizeInput_within|apply sanitizeInput_startsClean].
Qed.

(** X9: sanitising leaves a text unchanged exactly when it contains none
    of the five characters, has no white space at either end and has at
    most 5000 units. *)
Theorem sanitizeInput_fixed_points s :
  sanitizeInput s = s
  ↔ markupFree s ∧ startsClean s ∧ ¬ endsInSpace s ∧ withinLimit s.
Proof.
  split.
  - intros E.
    pose proof (sanitizeInput_clean s) as Hm.
    pose proof (sanitizeInput_within s) as Hl.
    pose proof (sanitizeInput_startsClean s) as Hc.
    rewrite E in Hm, Hl, Hc. repeat split; try assumption.
    apply trimEnd_fix. pose proof (sanitizeInput_twice s) as T.
    rewrite !E in T. symmetry. exact T.
  - intros (Hm & Hc & He & Hl). apply sanitizeInput_id; assumption.
Qed.
End SanitizeMore.

(** ** More on the classifier *)

Section TriageMore.

Implicit Types (d : IntakeData).

Lemma pieces_nil (b1 b2 b3 b4 b5 b6 b7 b8 : bool) (x1 x2 x3 x4 x5 x6 x7 x8 : string) :
  (if b1 then [x1] else []) ++ (if b2 then [x2] else [])
    ++ (if b3 then [x3] else []) ++ (if b4 then [x4] else [])
    ++ (if b5 then [x5] else []) ++ (if b6 then [x6] else [])
    ++ (if b7 then [x7] else []) ++ (if b8 then [x8] else []) ++ [] = []
  ↔ b1 || b2 || b3 || b4 || b5 || b6 || b7 || b8 = false.
Proof.
  destruct b1; [split; discriminate|]. destruct b2; [split; discriminate|].
  destruct b3; [split; discriminate|]. destruct b4; [split; discriminate|].
  destruct b5; [split; discriminate|]. destruct b6; [split; discriminate|].
  destruct b7; [split; discriminate|]. destruct b8; [split; discriminate|].
  split; reflexivity.
Qed.

Lemma selectedIn_false cs key : selectedIn cs key = false ↔ lit key ∉ cs.
Proof. unfold selectedIn. apply bool_decide_eq_false. Qed.

(** X11: there is no bucket exactly when none of the nine keys that
    trigger one is selected; "legal", the tenth key of the catalog,
    triggers none, so a record whose only concern is "legal" has no
    bucket. *)
Theorem buckets_none d :
  (buckets (computeClassification d) = []
   ↔ Forall (fun key => lit key ∉ concerns d)
       ["abuse"; "emotional"; "addiction"; "employment"; "finance"; "housing";
        "relationships"; "health"; "social"])
  ∧ ((∀ c, c ∈ concerns d → c = lit "legal") → buckets (computeClassification d) = []).
Proof.
  assert (H : buckets (computeClassification d) = []
   ↔ Forall (fun key => lit key ∉ concerns d)
       ["abuse"; "emotional"; "addiction"; "employment"; "finance"; "housing";
        "relationships"; "health"; "social"]).
  { rewrite buckets_by_table, <- pushes_by_table, push_chain, pieces_nil.
    rewrite !orb_false_iff, !selectedIn_false, !Forall_cons, Forall_nil. tauto. }
  split; [exact H|].
  intros Hl. apply H.
  repeat (apply Forall_cons; split; [intros Hin; apply Hl in Hin; vm_compute in Hin; discriminate|]).
  apply Forall_nil. exact I.
Qed.

Lemma priorityOf_rank n :
  priorityRank (priorityOf n)
  = (if 12 <=? n then 3 else if 8 <=? n then 2 else if 4 <=? n then 1 else 0)%Z.
Proof.
  unfold priorityOf.
  destruct (12 <=? n)%Z, (8 <=? n)%Z, (4 <=? n)%Z; reflexivity.
Qed.

Lemma priorityOf_monotone (a b : Z) :
  (a <= b)%Z → (priorityRank (priorityOf a) <= priorityRank (priorityOf b))%Z.
Proof.
  intros H. rewrite !priorityOf_rank.
  destruct (Z.leb_spec 12 a), (Z.leb_spec 8 a), (Z.leb_spec 4 a),
    (Z.leb_spec 12 b), (Z.leb_spec 8 b), (Z.leb_spec 4 b); lia.
Qed.

(** X12: a record with at least the risk score of another has at least
    its priority, in the order Low, Medium, High, Immediate. *)
Theorem priority_monotone d d' :
  (riskScore (computeClassification d) <= riskScore (computeClassification d'))%Z →
  (priorityRank (priority (computeClassification d))
   <= priorityRank (priority (computeClassification d')))%Z.
Proof. rewrite !priority_of_score. apply priorityOf_monotone. Qed.

Lemma priority_monotone_witness :
  (priorityRank (priority (computeClassification initialData))
   <= priorityRank (priority (computeClassification
                                (withSeverity (Some crisis) initialData))))%Z.
Proof. apply priority_monotone. vm_compute. discriminate. Defined.

(** X13: with the self-harm or the domestic-abuse flag the priority is
    never Low, with both it is Immediate, and Immediate is only reached
    with at least one risk flag set. *)
Theorem priority_of_flags d :
  let p := priority (computeClassification d) in
  (selfHarm (riskFlags d) = true ∨ domesticAbuse (riskFlags d) = true → p ≠ Low)
  ∧ (selfHarm (riskFlags d) = true → domesticAbuse (riskFlags d) = true → p = Immediate)
  ∧ (p = Immediate →
     selfHarm (riskFlags d) = true ∨ domesticAbuse (riskFlags d) = true
     ∨ harmToOthers (riskFlags d) = true ∨ substanceRisk (riskFlags d) = true).
Proof.
  intros p. subst p. rewrite priority_of_score, riskScore_sum.
  pose proof (severityPoints_range (severity d)).
  pose proof (housingPoints_range (housing d)).
  pose proof (employmentPoints_range (employmentStatus d)).
  unfold priorityOf.
  destruct (riskFlags d) as [[] [] [] []]; cbn [flagPoints selfHarm domesticAbuse harmToOthers substanceRisk];
    repeat match goal with |- context [(?a <=? ?b)%Z] => destruct (Z.leb_spec a b) end;
    try lia; (split; [|split]); intros; try discriminate; try lia; auto; intuition congruence.
Qed.

Lemma buckets_none_witness :
  buckets (computeClassification (withConcerns [lit "legal"] initialData)) = [].
Proof.
  apply (buckets_none (withConcerns [lit "legal"] initialData)).
  intros c Hc. apply list_elem_of_singleton in Hc. exact Hc.
Defined.

Lemma priority_of_flags_witness :
  priority (computeClassification (withSelfHarm true initialData)) ≠ Low.
Proof.
  apply (priority_of_flags (withSelfHarm true initialData)). left. reflexivity.
Defined.

End TriageMore.

(** ** Toggling an array field *)

Section Toggle.

Import Page.
Implicit Types (d : IntakeData) (l acc : list jsstring) (x value : jsstring).

Lemma setAdd_elem x y acc : y ∈ setAdd x acc ↔ y ∈ acc ∨ y = x.
Proof.
  unfold setAdd. case_bool_decide as H.
  - split; [auto|]. intros [Hy| ->]; assumption.
  - rewrite elem_of_app, list_elem_of_singleton. reflexivity.
Qed.

Lemma setAdd_NoDup x acc : NoDup acc → NoDup (setAdd x acc).
Proof.
  intros H. unfold setAdd. case_bool_decide as Hin; [exact H|].
  apply NoDup_app. split; [exact H|]. split; [|apply NoDup_singleton].
  intros y Hy Hx. apply list_elem_of_singleton in Hx. subst. contradiction.
Qed.

Lemma fold_setAdd_elem l : ∀ acc y,
  y ∈ fold_left (fun s x => setAdd x s) l acc ↔ y ∈ acc ∨ y ∈ l.
Proof.
  induction l as [|x l IH]; intros acc y; cbn [fold_left].
  - rewrite elem_of_nil. tauto.
  - rewrite IH, setAdd_elem, elem_of_cons. tauto.
Qed.

Lemma fold_setAdd_NoDup l : ∀ acc,
  NoDup acc → NoDup (fold_left (fun s x => setAdd x s) l acc).
Proof.
  induction l as [|x l IH]; intros acc H; cbn [fold_left]; [exact H|].
  apply IH, setAdd_NoDup, H.
Qed.

Lemma fold_setAdd_id l : ∀ acc,
  NoDup (acc ++ l) → fold_left (fun s x => setAdd x s) l acc = acc ++ l.
Proof.
  induction l as [|x l IH]; intros acc H; cbn [fold_left].
  - symmetry. apply app_nil_r.
  - unfold setAdd. rewrite bool_decide_eq_false_2.
    + rewrite IH; rewrite <- app_assoc; [reflexivity|exact H].
    + apply NoDup_app in H as (_ & H & _). intros Hin. apply (H _ Hin).
      apply list_elem_of_here.
Qed.

Lemma setOfArray_elem l y : y ∈ setOfArray l ↔ y ∈ l.
Proof. unfold setOfArray. rewrite fold_setAdd_elem, elem_of_nil. tauto. Qed.

Lemma setOfArray_NoDup l : NoDup (setOfArray l).
Proof. apply fold_setAdd_NoDup, NoDup_nil_2. Qed.

Lemma setOfArray_id l : NoDup l → setOfArray l = l.
Proof. intros H. unfold setOfArray. rewrite fold_setAdd_id; [reflexivity|exact H]. Qed.

Lemma getField_setField field v d : getField field (setField field v d) = v.
Proof. destruct field; reflexivity. Qed.

Lemma getField_toggled field value d :
  getField field (toggled field value d)
  = if bool_decide (value ∈ getField field d)
    then filter (fun y => y ≠ value) (setOfArray (getField field d))
    else setOfArray (getField field d) ++ [value].
Proof.
  unfold toggled. rewrite getField_setField. unfold arrayFrom, setHas.
  rewrite (bool_decide_ext _ _ (setOfArray_elem _ value)).
  case_bool_decide as H; [reflexivity|].
  unfold setAdd. rewrite bool_decide_eq_false_2; [reflexivity|].
  rewrite setOfArray_elem. exact H.
Qed.

Lemma toggled_facts field value d :
  let new := getField field (toggled field value d) in
  NoDup new
  ∧ (value ∈ new ↔ value ∉ getField field d)
  ∧ (∀ x, x ≠ value → x ∈ new ↔ x ∈ getField field d).
Proof.
  cbn zeta. rewrite getField_toggled.
  pose proof (setOfArray_NoDup (getField field d)) as Hnd.
  case_bool_decide as H.
  - split; [apply NoDup_filter, Hnd|]. split.
    + rewrite list_elem_of_filter. tauto.
    + intros x Hx. rewrite list_elem_of_filter, setOfArray_elem. tauto.
  - split.
    + apply NoDup_app. split; [exact Hnd|]. split; [|apply NoDup_singleton].
      intros y Hy Hv. apply list_elem_of_singleton in Hv. subst.
      rewrite setOfArray_elem in Hy. apply H, Hy.
    + split.
      * rewrite elem_of_app, list_elem_of_singleton. tauto.
      * intros x Hx. rewrite elem_of_app, list_elem_of_singleton, setOfArray_elem. tauto.
Qed.

Lemma filter_ne_id value l : value ∉ l → filter (fun y => y ≠ value) l = l.
Proof.
  induction l as [|x l IH]; intros H; [reflexivity|].
  apply not_elem_of_cons in H as [Hx Hl].
  rewrite filter_cons_True by congruence. f_equal. apply IH, Hl.
Qed.

Lemma filter_ne_snoc value l :
  filter (fun y => y ≠ value) (l ++ [value]) = filter (fun y => y ≠ value) l.
Proof.
  rewrite filter_app. rewrite (filter_cons_False _ value) by (intros H; apply H; reflexivity).
  rewrite filter_nil. apply app_nil_r.
Qed.

Lemma filter_ne_Permutation value l :
  NoDup l → value ∈ l → filter (fun y => y ≠ value) l ++ [value] ≡ₚ l.
Proof.
  induction l as [|x l IH]; intros Hnd Hin; [apply elem_of_nil in Hin; contradiction|].
  apply NoDup_cons in Hnd as [Hx Hnd].
  destruct (decide (x = value)) as [->|Hne].
  - rewrite filter_cons_False by (intros H; apply H; reflexivity).
    rewrite filter_ne_id by exact Hx.
    symmetry. apply Permutation_cons_append.
  - rewrite filter_cons_True by exact Hne. cbn [app]. apply Permutation_skip.
    apply IH; [exact Hnd|]. apply elem_of_cons in Hin as [-> |Hin]; [contradiction|exact Hin].
Qed.

(** X14: toggling flips the membership of the value, keeps every other
    member, and always gives an array without duplicates. *)
Theorem toggled_members field value d :
  let new := getField field (toggled field value d) in
  NoDup new
  ∧ (value ∈ new ↔ value ∉ getField field d)
  ∧ (∀ x, x ≠ value → x ∈ new ↔ x ∈ getField field d).
Proof.
  cbn zeta. rewrite getField_toggled.
  pose proof (setOfArray_NoDup (getField field d)) as Hnd.
  case_bool_decide as H.
  - split; [apply NoDup_filter, Hnd|]. split.
    + rewrite list_elem_of_filter. tauto.
    + intros x Hx. rewrite list_elem_of_filter, setOfArray_elem. tauto.
  - split.
    + apply NoDup_app. split; [exact Hnd|]. split; [|apply NoDup_singleton].
      intros y Hy Hv. apply list_elem_of_singleton in Hv. subst.
      rewrite setOfArray_elem in Hy. apply H, Hy.
    + split.
      * rewrite elem_of_app, list_elem_of_singleton. tauto.
      * intros x Hx. rewrite elem_of_app, list_elem_of_singleton, setOfArray_elem. tauto.
Qed.

Lemma toggled_members_witness :
  lit "housing"
  ∈ getField concernsField
      (toggled concernsField (lit "abuse")
         (withConcerns [lit "housing"; lit "abuse"] initialData)).
Proof.
  apply (toggled_members concernsField (lit "abuse")
           (withConcerns [lit "housing"; lit "abuse"] initialData)).
  - vm_compute. discriminate.
  - apply list_elem_of_here.
Defined.

(** X15: toggling the same value twice brings back the same members: the
    very array when it had no duplicates and did not hold the value, and
    otherwise the array without its duplicates, up to the order. *)
Theorem toggled_twice field value d :
  getField field (toggled field value (toggled field value d))
    ≡ₚ setOfArray (getField field d)
  ∧ (NoDup (getField field d) → value ∉ getField field d →
     getField field (toggled field value (toggled field value d)) = getField field d).
Proof.
  destruct (toggled_facts field value d) as (Hnd & Hv & _). cbn zeta in *.
  rewrite (getField_toggled field value (toggled field value d)).
  rewrite (setOfArray_id _ Hnd).
  rewrite (getField_toggled field value d) in *.
  pose proof (setOfArray_NoDup (getField field d)) as Hs.
  case_bool_decide as H.
  - rewrite bool_decide_eq_false_2 by tauto. split.
    + apply filter_ne_Permutation; [exact Hs|]. apply setOfArray_elem, H.
    + intros _ Hn. contradiction.
  - rewrite bool_decide_eq_true_2 by tauto. rewrite filter_ne_snoc.
    rewrite filter_ne_id by (rewrite setOfArray_elem; exact H).
    split; [reflexivity|]. intros Hd _. apply setOfArray_id, Hd.
Qed.

Lemma toggled_twice_witness :
  getField concernsField
    (toggled concernsField (lit "abuse")
       (toggled concernsField (lit "abuse")
          (withConcerns [lit "housing"] initialData)))
  = [lit "housing"].
Proof.
  apply (toggled_twice concernsField (lit "abuse")
           (withConcerns [lit "housing"] initialData)).
  - apply NoDup_singleton.
  - intros H. apply list_elem_of_singleton in H. vm_compute in H. discriminate.
Defined.

End Toggle.

(** ** The wizard *)

Section Wizard.

Import Page.
Implicit Types (d : IntakeData) (w : State) (e : Event).

Lemma keyCount_zero (m : gmap string string) : (keyCount m =? 0)%nat = true ↔ m = ∅.
Proof. unfold keyCount. rewrite Nat.eqb_eq. apply map_size_empty_iff. Qed.

Lemma next_passed w :
  validateStep (step w) (data w) = ∅ →
  next w = setStep (fun s => Z.min 5 (s + 1)) (setErrors ∅ w).
Proof.
  intros H. unfold next. rewrite H. reflexivity.
Qed.

Lemma next_failed w :
  validateStep (step w) (data w) ≠ ∅ →
  next w = setErrors (validateStep (step w) (data w)) w.
Proof.
  intros H. unfold next.
  destruct (keyCount (validateStep (step w) (data w)) =? 0)%nat eqn:E; [|reflexivity].
  apply keyCount_zero in E. contradiction.
Qed.

(** X16: Continue stores the errors of the current step, moves one step
    forward (never past 5) exactly when there are none, and never touches
    the record. *)
Theorem next_gated w :
  data (next w) = data w
  ∧ errors (next w) = validateStep (step w) (data w)
  ∧ (passes (step w) (data w) → step (next w) = Z.min 5 (step w + 1))
  ∧ (¬ passes (step w) (data w) → step (next w) = step w).
Proof.
  unfold passes.
  destruct (decide (validateStep (step w) (data w) = ∅)) as [H|H].
  - rewrite (next_passed w H), H. cbn. tauto.
  - rewrite (next_failed w H). cbn. tauto.
Qed.


Lemma handleSubmit_keeps decode (b : Browser) w :
  step (fst (handleSubmit decode b w)) = step w
  ∧ data (fst (handleSubmit decode b w)) = data w.
Proof.
  unfold handleSubmit.
  destruct (0 <? keyCount (validateStep 5 (data w)))%nat; [split; reflexivity|].
  cbn [data setSubmitError setSubmissionStatus setErrors].
  destruct (trySubmit decode b (data w)) as [sent [err|u]]; split; reflexivity.
Qed.

Lemma wellFormed_same w w' :
  step w' = step w → data w' = data w → wellFormed w → wellFormed w'.
Proof. unfold wellFormed. intros -> ->. auto. Qed.

Lemma toggled_catalogued field (key : string) catalog d :
  key ∈ catalog →
  catalogued catalog (getField field d) →
  catalogued catalog (getField field (toggled field (lit key) d)).
Proof.
  intros Hk [Hnd Hc]. rewrite getField_toggled.
  pose proof (setOfArray_NoDup (getField field d)) as Hs.
  case_bool_decide as H; split.
  - apply NoDup_filter, Hs.
  - intros c Hin. apply list_elem_of_filter in Hin as [_ Hin].
    apply Hc. rewrite <- setOfArray_elem. exact Hin.
  - apply NoDup_app. split; [exact Hs|]. split; [|apply NoDup_singleton].
    intros y Hy Hv. apply list_elem_of_singleton in Hv. subst.
    rewrite setOfArray_elem in Hy. apply H, Hy.
  - intros c Hin. apply elem_of_app in Hin as [Hin|Hin].
    + apply Hc. rewrite <- setOfArray_elem. exact Hin.
    + apply list_elem_of_singleton in Hin. subst. eauto.
Qed.

Lemma edit_wellFormed (n : Z) (f : IntakeData → IntakeData) w :
  step w = n →
  ((1 < n)%Z → validateStep 1 (f (data w)) = validateStep 1 (data w)) →
  ((2 < n)%Z → validateStep 2 (f (data w)) = validateStep 2 (data w)) →
  ((3 < n)%Z → validateStep 3 (f (data w)) = validateStep 3 (data w)) →
  ((4 < n)%Z → validateStep 4 (f (data w)) = validateStep 4 (data w)) →
  catalogued CONCERNS (concerns (f (data w))) →
  catalogued SUPPORT_OPTIONS (supportPreferences (f (data w))) →
  wellFormed w → wellFormed (setData f w).
Proof.
  intros Hn K1 K2 K3 K4 Hc Hs (Hr & Hp & _ & _). unfold wellFormed.
  cbn [step data setData].
  split; [exact Hr|]. split; [|split; assumption].
  intros k Hlt. unfold passes.
  assert (k = 1 ∨ k = 2 ∨ k = 3 ∨ k = 4)%Z as [->|[->|[->| ->]]] by lia;
    [rewrite K1|rewrite K2|rewrite K3|rewrite K4]; try lia; apply Hp; lia.
Qed.

Ltac unchanged_steps :=
  let H := fresh in
  intros H;
  first [ vm_compute in H; discriminate H
        | clear H;
          lazymatch goal with
          | |- validateStep 1 _ = _ => apply same_step1
          | |- validateStep 2 _ = _ => apply same_step2
          | |- validateStep 3 _ = _ => apply same_step3
          | |- validateStep 4 _ = _ => apply same_step4
          end; reflexivity ].

Lemma shown_step e n w :
  stepOf e = Some n → bool_decide (stepOf e = Some (step w)) = true → step w = n.
Proof. intros E H. apply bool_decide_eq_true in H. congruence. Qed.

Lemma next_wellFormed w : (step w < 5)%Z → wellFormed w → wellFormed (next w).
Proof.
  intros Hlt (Hr & Hp & Hc & Hs).
  destruct (decide (validateStep (step w) (data w) = ∅)) as [H|H].
  - rewrite (next_passed w H). unfold wellFormed. cbn [step data setStep setErrors].
    split; [lia|]. split; [|split; assumption].
    intros k Hk. destruct (decide (k = step w)) as [->|Hne]; [exact H|].
    apply Hp. lia.
  - rewrite (next_failed w H). split; [exact Hr|]. split; [exact Hp|]. split; assumption.
Qed.

Lemma prev_wellFormed w : wellFormed w → wellFormed (prev w).
Proof.
  intros (Hr & Hp & Hc & Hs). unfold wellFormed, prev.
  cbn [step data setStep setErrors].
  split; [lia|]. split; [|split; assumption]. intros k Hk. apply Hp. lia.
Qed.

Lemma shown_wellFormed e w : shown e w = true → wellFormed w → wellFormed (handler e w).
Proof.
  intros R Hw.
  destruct e; cbn [handler];
    try (eapply edit_wellFormed;
         [cbn [shown] in R; apply bool_decide_eq_true in R; cbn [stepOf] in R;
          injection R as R; symmetry; exact R
         |unchanged_steps|unchanged_steps|unchanged_steps|unchanged_steps
         |apply Hw|apply Hw|exact Hw]).
  - apply next_wellFormed; [|exact Hw]. apply Z.ltb_lt, R.
  - apply prev_wellFormed, Hw.
  - cbn [shown] in R. apply andb_true_iff in R as [R1 R2].
    apply Z.eqb_eq in R1. apply bool_decide_eq_true in R2.
    apply (edit_wellFormed 3); [exact R1|unchanged_steps..| | |exact Hw].
    + apply (toggled_catalogued concernsField); [exact R2|apply Hw].
    + apply Hw.
  - cbn [shown] in R. apply andb_true_iff in R as [R1 R2].
    apply Z.eqb_eq in R1. apply bool_decide_eq_true in R2.
    apply (edit_wellFormed 4); [exact R1|unchanged_steps..| | |exact Hw].
    + apply Hw.
    + apply (toggled_catalogued supportPreferencesField); [exact R2|apply Hw].
  - cbn [shown] in R. apply andb_true_iff in R as [R1 _]. apply Z.eqb_eq in R1.
    apply (edit_wellFormed 5); [exact R1|unchanged_steps..|apply Hw|apply Hw|exact Hw].
Qed.

Lemma dispatch_wellFormed e w : wellFormed w → wellFormed (dispatch e w).
Proof.
  intros Hw. unfold dispatch, rendered.
  destruct (submissionStatus w); try exact Hw;
    (destruct (shown e w) eqn:R; [apply shown_wellFormed; assumption|exact Hw]).
Qed.

Lemma initial_wellFormed : wellFormed initialState.
Proof.
  split; [cbn; lia|]. split; [cbn; intros k Hk; lia|].
  split; (split; [apply NoDup_nil_2|intros c Hc; apply elem_of_nil in Hc; contradiction]).
Qed.

Lemma reachable_inv w : reachable w → wellFormed w.
Proof.
  induction 1 as [|e w _ IH|decode b w _ IH Hs].
  - apply initial_wellFormed.
  - apply dispatch_wellFormed, IH.
  - destruct (handleSubmit_keeps decode b w) as [E1 E2].
    exact (wellFormed_same _ _ E1 E2 IH).
Qed.

Lemma next_gated_witness :
  step (next initialState) = step initialState.
Proof.
  apply (next_gated initialState). vm_compute. discriminate.
Defined.

(** X17: in every state the page can reach, the step is between 1 and 5,
    the record passes the checks of every earlier step, and the concerns
    and support preferences are catalog keys without duplicates. *)
Theorem wizard_invariant w : reachable w → wellFormed w.
Proof.
  induction 1 as [|e w _ IH|decode b w _ IH Hs].
  - apply initial_wellFormed.
  - apply dispatch_wellFormed, IH.
  - destruct (handleSubmit_keeps decode b w) as [E1 E2].
    exact (wellFormed_same _ _ E1 E2 IH).
Qed.

Lemma wizard_invariant_witness :
  wellFormed (dispatch ClickContinue
                (dispatch (ChangeFirstName (lit "Ann")) initialState)).
Proof.
  apply wizard_invariant. apply reachable_event, reachable_event, reachable_initial.
Defined.

End Wizard.

(** ** Submission *)

Section Submit.

Import Page.
Variable decode : jsstring → Thrown + jsstring.
Implicit Types (d : IntakeData) (w : State) (b : Browser) (req : Request).

Lemma keyCount_pos (m : gmap string string) : (0 <? keyCount m)%nat = true ↔ m ≠ ∅.
Proof.
  unfold keyCount. rewrite Nat.ltb_lt, <- map_size_empty_iff. lia.
Qed.

Lemma passes5_bool d :
  bool_decide (validateStep 5 d = ∅)
  = privacyPolicyAccepted (consent d)
    && negb (negb (crisisProtocolOk (consent d))
             && (eqs (severity d) high || eqs (severity d) crisis)).
Proof.
  unfold validateStep.
  destruct (privacyPolicyAccepted (consent d)), (crisisProtocolOk (consent d)),
    (eqs (severity d) high || eqs (severity d) crisis); vm_compute; reflexivity.
Qed.

Lemma passes5_iff d :
  passes 5 d
  ↔ privacyPolicyAccepted (consent d) = true
    ∧ (severity d = Some high ∨ severity d = Some crisis →
       crisisProtocolOk (consent d) = true).
Proof.
  unfold passes. rewrite <- (bool_decide_eq_true (validateStep 5 d = ∅)), passes5_bool.
  rewrite andb_true_iff, negb_true_iff, andb_false_iff, negb_false_iff,
    orb_false_iff. rewrite <- !not_true_iff_false, !eqs_Some.
  destruct (crisisProtocolOk (consent d)); intuition congruence.
Qed.

Lemma handleSubmit_blocked b w :
  ¬ passes 5 (data w) →
  handleSubmit decode b w = (setErrors (validateStep 5 (data w)) w, None).
Proof.
  intros H. unfold handleSubmit. rewrite (proj2 (keyCount_pos _) H). reflexivity.
Qed.

Lemma handleSubmit_passed b w :
  passes 5 (data w) →
  handleSubmit decode b w
  = afterTry (setSubmitError [] (setSubmissionStatus submitting (setErrors ∅ w)))
      (trySubmit decode b (data w)).
Proof.
  intros H. unfold passes in H. unfold handleSubmit. cbv zeta.
  cbn [data setSubmitError setSubmissionStatus setErrors]. rewrite !H.
  destruct (trySubmit decode b (data w)) as [sent [err|u]]; reflexivity.
Qed.

Lemma handleSubmit_sent_passes b w req :
  snd (handleSubmit decode b w) = Some req → passes 5 (data w).
Proof.
  intros H. destruct (decide (passes 5 (data w))) as [Hp|Hp]; [exact Hp|].
  rewrite handleSubmit_blocked in H by exact Hp. discriminate.
Qed.

Lemma trySubmit_sent b d req :
  fst (trySubmit decode b d) = Some req →
  ∃ csrfToken id,
    getCsrfToken decode (document b) = inr csrfToken
    ∧ generateSecureId (env b) = Return id
    ∧ req = requestOf b d csrfToken id.
Proof.
  unfold trySubmit.
  destruct (getCsrfToken decode (document b)) as [e|csrfToken]; [discriminate|].
  destruct (generateSecureId (env b)) as [id|m]; [|discriminate].
  cbn [thrownOf].
  set (r := {| headers := _; body := _ |}).
  assert (Er : r = requestOf b d csrfToken id).
  { unfold r, requestOf. destruct (truthy_opt csrfToken); reflexivity. }
  intros H. exists csrfToken, id. split; [reflexivity|]. split; [reflexivity|].
  rewrite <- Er.
  destruct (fetch b r) as [reason|ok status body].
  - cbn in H. congruence.
  - destruct (negb ok); [destruct (failureMessage status body)|]; cbn in H; congruence.
Qed.

Lemma handleSubmit_sent b w req :
  snd (handleSubmit decode b w) = Some req →
  fst (trySubmit decode b (data w)) = Some req.
Proof.
  intros H. pose proof (handleSubmit_sent_passes _ _ _ H) as Hp.
  rewrite (handleSubmit_passed b w Hp) in H.
  destruct (trySubmit decode b (data w)) as [sent [err|u]]; exact H.
Qed.

Lemma trySubmit_built b d csrfToken id :
  getCsrfToken decode (document b) = inr csrfToken →
  generateSecureId (env b) = Return id →
  trySubmit decode b d
  = (Some (requestOf b d csrfToken id), tryResult b (requestOf b d csrfToken id)).
Proof.
  intros Hc Hg. unfold trySubmit, tryResult. rewrite Hc, Hg. cbn [thrownOf].
  set (r := {| headers := _; body := _ |}).
  assert (Er : r = requestOf b d csrfToken id).
  { unfold r, requestOf. destruct (truthy_opt csrfToken); reflexivity. }
  rewrite <- Er.
  destruct (fetch b r) as [reason|ok status body]; [reflexivity|].
  destruct (negb ok); [destruct (failureMessage status body)|]; reflexivity.
Qed.

Lemma trySubmit_no_id b d :
  noRandomSource (env b) → fst (trySubmit decode b d) = None.
Proof.
  intros H. unfold trySubmit.
  destruct (getCsrfToken decode (document b)) as [e|csrfToken]; [reflexivity|].
  destruct (generateSecureId (env b)) as [id|m] eqn:E; [|reflexivity].
  exfalso. unfold generateSecureId in E.
  destruct H as [H|(c & H & Hu & Hg)]; rewrite H in E; [discriminate|].
  rewrite Hu, Hg in E. discriminate.
Qed.

(** X18: when step 5 does not pass, submitting only stores its errors and
    sends nothing; a request is sent only with the privacy policy accepted
    and, for severity high or crisis, the crisis protocol acknowledged. *)
Theorem handleSubmit_gate b w :
  (¬ passes 5 (data w) →
   handleSubmit decode b w = (setErrors (validateStep 5 (data w)) w, None))
  ∧ (∀ req, snd (handleSubmit decode b w) = Some req →
       privacyPolicyAccepted (consent (data w)) = true
       ∧ (severity (data w) = Some high ∨ severity (data w) = Some crisis →
          crisisProtocolOk (consent (data w)) = true)).
Proof.
  split; [apply handleSubmit_blocked|].
  intros req H. apply passes5_iff. exact (handleSubmit_sent_passes b w req H).
Qed.

(** X19: without a strong random source no request is sent; if step 5
    passed, the attempt ends in the error status, with the message "Crypto
    API not available" when the CSRF lookup itself did not fail. *)
Theorem handleSubmit_needs_random_source b w :
  noRandomSource (env b) →
  snd (handleSubmit decode b w) = None
  ∧ (passes 5 (data w) →
     submissionStatus (fst (handleSubmit decode b w)) = error
     ∧ (∀ csrfToken, getCsrfToken decode (document b) = inr csrfToken →
          submitError (fst (handleSubmit decode b w))
          = lit "Crypto API not available")).
Proof.
  intros Hn. split.
  - destruct (snd (handleSubmit decode b w)) as [req|] eqn:E; [|reflexivity].
    apply handleSubmit_sent in E. rewrite (trySubmit_no_id b _ Hn) in E. discriminate.
  - intros Hp. rewrite (handleSubmit_passed b w Hp).
    assert (G : generateSecureId (env b) = Throw "Crypto API not available").
    { unfold generateSecureId.
      destruct Hn as [Hn|(c & Hn & Hu & Hg)]; rewrite Hn; [reflexivity|].
      rewrite Hu, Hg. reflexivity. }
    unfold trySubmit. rewrite G. cbn [thrownOf].
    destruct (getCsrfToken decode (document b)) as [e|tok].
    + split; [reflexivity|]. intros ? [=].
    + split; [reflexivity|]. intros _ _. reflexivity.
Qed.

(** X20: a request that is sent carries the generated identifier as
    X-Idempotency-Key, the JSON content type, the CSRF token exactly when a
    non-empty one was found, the sanitised record, the triage of the record
    and schema version 1. *)
Theorem handleSubmit_request b w req :
  snd (handleSubmit decode b w) = Some req →
  ∃ csrfToken id,
    getCsrfToken decode (document b) = inr csrfToken
    ∧ generateSecureId (env b) = Return id
    ∧ headers req !! "X-Idempotency-Key" = Some id
    ∧ headers req !! "Content-Type" = Some (lit "application/json")
    ∧ headers req !! "X-CSRF-Token"
      = (if truthy_opt csrfToken then csrfToken else None)
    ∧ fields (body req) = sanitizedData (data w)
    ∧ triage (body req) = computeClassification (data w)
    ∧ schemaVersion (body req) = 1%Z.
Proof.
  intros H. apply handleSubmit_sent, trySubmit_sent in H as (csrfToken & id & Hc & Hg & ->).
  exists csrfToken, id. split; [exact Hc|]. split; [exact Hg|].
  unfold requestOf. cbn [headers body fields triage schemaVersion].
  destruct csrfToken as [[|c t]|]; cbn [truthy_opt truthy default];
    repeat split; reflexivity.
Qed.

Lemma sanitizeOptional_clean o :
  markupFreeOpt (sanitizeOptional o) ∧ withinLimitOpt (sanitizeOptional o).
Proof.
  unfold sanitizeOptional. destruct (truthy_opt o); [|split; exact I].
  cbn. split; [apply sanitizeInput_clean|].
  unfold withinLimit, len. pose proof (sanitizeInput_length (default [] o)). lia.
Qed.


(** X21: in the record that is sent, the eight text fields contain none of
    the five replaced characters and have at most 5000 units, the two
    arrays are sent as they are, and the triage of the sanitised record is
    the triage of the record. *)
Theorem payload_text_clean d :
  let f := sanitizedData d in
  (markupFree (firstName f) ∧ withinLimit (firstName f))
  ∧ (markupFree (lastName f) ∧ withinLimit (lastName f))
  ∧ (markupFree (email f) ∧ withinLimit (email f))
  ∧ (markupFreeOpt (phone f) ∧ withinLimitOpt (phone f))
  ∧ (markupFreeOpt (postcode f) ∧ withinLimitOpt (postcode f))
  ∧ (markupFreeOpt (pronouns f) ∧ withinLimitOpt (pronouns f))
  ∧ (markupFreeOpt (concernDetails f) ∧ withinLimitOpt (concernDetails f))
  ∧ (markupFreeOpt (availability f) ∧ withinLimitOpt (availability f))
  ∧ concerns f = concerns d ∧ supportPreferences f = supportPreferences d
  ∧ computeClassification f = computeClassification d.
Proof.
  cbn zeta. unfold sanitizedData; cbn [firstName lastName email phone postcode pronouns
    concernDetails availability concerns supportPreferences].
  repeat (split; [first [split; [apply sanitizeInput_clean|apply sanitizeInput_within]
                        |apply sanitizeOptional_clean|reflexivity]|]).
  reflexivity.
Qed.

(** X22: how a sent request ends: success for an ok response; otherwise
    the error status with the server's message, "Server returned" and the
    status when there is none, "Unknown error" for a body that is not JSON,
    the message of a thrown error, or the fixed apology for a thrown value
    that is no error. *)
Theorem handleSubmit_outcome b w req :
  snd (handleSubmit decode b w) = Some req →
  let w' := fst (handleSubmit decode b w) in
  match fetch b req with
  | Responded true _ _ => submissionStatus w' = success ∧ submitError w' = []
  | Responded false status NotJson =>
      submissionStatus w' = error ∧ submitError w' = lit "Unknown error"
  | Responded false status (JsonNull typeError) =>
      submissionStatus w' = error ∧ submitError w' = typeError
  | Responded false status (JsonValue message) =>
      submissionStatus w' = error
      ∧ submitError w'
        = (if truthy_opt message then default [] message
           else lit "Server returned " ++ lit (numberToString status))
  | Rejected (ErrorValue message) =>
      submissionStatus w' = error ∧ submitError w' = message
  | Rejected NonError =>
      submissionStatus w' = error
      ∧ submitError w'
        = lit "Sorry, something went wrong. Please try again or contact us directly."
  end.
Proof.
  intros H. cbn zeta.
  pose proof (handleSubmit_sent_passes b w req H) as Hp.
  apply handleSubmit_sent, trySubmit_sent in H as (csrfToken & id & Hc & Hg & ->).
  rewrite (handleSubmit_passed b w Hp), (trySubmit_built b _ _ _ Hc Hg).
  unfold tryResult.
  destruct (fetch b (requestOf b (data w) csrfToken id)) as [[m|]|[] status [|t|m]];
    cbn [negb failureMessage afterTry fst]; try (split; reflexivity).
  destruct (truthy_opt m); split; reflexivity.
Qed.

(** X23: submitting changes neither the step nor the record, whatever the
    outcome, so that the user can retry. *)
Theorem handleSubmit_keeps_record b w :
  step (fst (handleSubmit decode b w)) = step w
  ∧ data (fst (handleSubmit decode b w)) = data w.
Proof.
  destruct (decide (passes 5 (data w))) as [Hp|Hp].
  - rewrite (handleSubmit_passed b w Hp).
    destruct (trySubmit decode b (data w)) as [sent [err|u]]; split; reflexivity.
  - rewrite (handleSubmit_blocked b w Hp). split; reflexivity.
Qed.

Lemma reachable_run es w : reachable w → reachable (run es w).
Proof.
  revert w. induction es as [|e es IH]; intros w H; [exact H|].
  cbn [run fold_left]. apply IH, reachable_event, H.
Qed.

(** X24: a request sent from step 5 belongs to a record that passes the
    checks of all five steps. *)
Theorem submit_complete b w req :
  reachable w → step w = 5%Z →
  snd (handleSubmit decode b w) = Some req →
  ∀ k, (1 <= k <= 5)%Z → passes k (data w).
Proof.
  intros Hr Hs Hsent k Hk.
  destruct (decide (k = 5%Z)) as [->|Hne].
  - exact (handleSubmit_sent_passes b w req Hsent).
  - apply (reachable_inv w Hr). lia.
Qed.

End Submit.

Lemma handleSubmit_gate_witness :
  Page.handleSubmit inr exampleBrowser initialState
  = (Page.setErrors (validateStep 5 initialData) initialState, None).
Proof.
  apply (handleSubmit_gate inr exampleBrowser initialState).
  vm_compute. discriminate.
Defined.

Lemma handleSubmit_needs_random_source_witness :
  snd (Page.handleSubmit inr weakBrowser exampleState) = None.
Proof.
  apply (handleSubmit_needs_random_source inr weakBrowser exampleState).
  left. reflexivity.
Defined.

Lemma handleSubmit_request_witness :
  ∃ csrfToken id req,
    snd (Page.handleSubmit inr exampleBrowser exampleState) = Some req
    ∧ Page.headers req !! "X-Idempotency-Key" = Some id
    ∧ Page.headers req !! "X-CSRF-Token"
      = (if truthy_opt csrfToken then csrfToken else None).
Proof.
  destruct (snd (Page.handleSubmit inr exampleBrowser exampleState)) as [req|] eqn:E;
    [|vm_compute in E; discriminate].
  destruct (handleSubmit_request inr exampleBrowser exampleState req E)
    as (csrfToken & id & _ & _ & Hid & _ & Hcsrf & _).
  exists csrfToken, id, req. auto.
Defined.

Lemma handleSubmit_outcome_witness :
  Page.submissionStatus (fst (Page.handleSubmit inr rejectingBrowser exampleState))
  = Page.error
  ∧ Page.submitError (fst (Page.handleSubmit inr rejectingBrowser exampleState))
    = lit "Too many requests".
Proof.
  destruct (snd (Page.handleSubmit inr rejectingBrowser exampleState)) as [req|] eqn:E;
    [|vm_compute in E; discriminate].
  exact (handleSubmit_outcome inr rejectingBrowser exampleState req E).
Defined.

Lemma submit_complete_witness :
  passes 1 (Page.data exampleState) ∧ passes 3 (Page.data exampleState).
Proof.
  destruct (snd (Page.handleSubmit inr exampleBrowser exampleState)) as [req|] eqn:E;
    [|vm_compute in E; discriminate].
  assert (R : reachable exampleState) by apply reachable_run, reachable_initial.
  split; apply (submit_complete inr exampleBrowser exampleState req R eq_refl E); lia.
Defined.

(** ** The CSRF token *)

Section Csrf.

Import Page.
Variable decode : jsstring → Thrown + jsstring.
Implicit Types (s v : jsstring) (doc : Document).

Lemma split_before_after sep s :
  split sep s
  = before sep s :: match after sep s with Some r => split sep r | None => [] end.
Proof.
  induction s as [|c s IH]; [reflexivity|].
  cbn [split before after]. destruct (c =? sep); [reflexivity|].
  rewrite IH. reflexivity.
Qed.

Lemma before_app sep v tail :
  Forall (fun c => c ≠ sep) v → (tail = [] ∨ head tail = Some sep) →
  before sep (v ++ tail) = v.
Proof.
  intros Hv Ht. induction Hv as [|c v Hc _ IH]; cbn [app before].
  - destruct Ht as [->|Ht]; [reflexivity|].
    destruct tail as [|t tail]; [discriminate|]. injection Ht as ->.
    cbn. rewrite N.eqb_refl. reflexivity.
  - rewrite (proj2 (N.eqb_neq c sep) Hc). f_equal. exact IH.
Qed.

Lemma cookieLoop_skip pre rest :
  Forall (fun p => cookieName p ≠ lit "XSRF-TOKEN") pre →
  cookieLoop decode (pre ++ rest) = cookieLoop decode rest.
Proof.
  induction 1 as [|p pre Hp _ IH]; [reflexivity|].
  cbn [app cookieLoop]. rewrite split_before_after. cbn [lookup list_lookup default].
  fold (cookieName p). rewrite bool_decide_eq_false_2 by exact Hp. exact IH.
Qed.

Lemma cookieLoop_hit c rest v tail :
  trim c = lit "XSRF-TOKEN=" ++ v ++ tail →
  Forall (fun x => x ≠ code "=") v → (tail = [] ∨ head tail = Some (code "=")) →
  cookieLoop decode (c :: rest) = decoded decode v.
Proof.
  intros Ht Hv Htail. cbn [cookieLoop]. rewrite Ht.
  change (lit "XSRF-TOKEN=" ++ v ++ tail)
    with (lit "XSRF-TOKEN" ++ code "=" :: (v ++ tail)).
  rewrite split_before_after.
  assert (B : before (code "=") (lit "XSRF-TOKEN" ++ code "=" :: v ++ tail)
              = lit "XSRF-TOKEN").
  { apply before_app; [|right; reflexivity].
    vm_compute. repeat constructor; discriminate. }
  assert (A : after (code "=") (lit "XSRF-TOKEN" ++ code "=" :: v ++ tail)
              = Some (v ++ tail)) by reflexivity.
  rewrite B, A. cbn [lookup list_lookup default].
  rewrite bool_decide_eq_true_2 by reflexivity.
  rewrite split_before_after. cbn [lookup list_lookup default].
  rewrite (before_app _ v tail Hv Htail). reflexivity.
Qed.

Lemma cookieLoop_bare c rest :
  trim c = lit "XSRF-TOKEN" →
  cookieLoop decode (c :: rest) = decoded decode (lit "undefined").
Proof.
  intros Ht. cbn [cookieLoop]. rewrite Ht. reflexivity.
Qed.

Lemma cookieLoop_none cs :
  Forall (fun p => cookieName p ≠ lit "XSRF-TOKEN") cs →
  cookieLoop decode cs = inr None.
Proof.
  intros H. rewrite <- (app_nil_r cs). rewrite (cookieLoop_skip cs [] H). reflexivity.
Qed.

(** X25: a non-empty content of the csrf-token meta element is the token,
    whatever the cookies hold; nothing is decoded. *)
Theorem getCsrfToken_meta_first doc token :
  csrfMeta doc = Some token → token ≠ [] →
  getCsrfToken decode doc = inr (Some token).
Proof.
  intros Hm Hne. unfold getCsrfToken. rewrite Hm.
  destruct token; [contradiction|reflexivity].
Qed.

(** X26: without such a meta content the cookies decide, in their order:
    null when none is named XSRF-TOKEN; otherwise the first one so named
    gives the decoding of the text between its first and its second "=",
    what follows a second "=" being dropped, and the decoding of the text
    "undefined" when it has no "=" at all. *)
Theorem getCsrfToken_cookie doc :
  truthy_opt (csrfMeta doc) = false →
  (Forall (fun p => cookieName p ≠ lit "XSRF-TOKEN") (split (code ";") (cookie doc)) →
   getCsrfToken decode doc = inr None)
  ∧ (∀ pre c post v tail,
       split (code ";") (cookie doc) = pre ++ c :: post →
       Forall (fun p => cookieName p ≠ lit "XSRF-TOKEN") pre →
       trim c = lit "XSRF-TOKEN=" ++ v ++ tail →
       Forall (fun x => x ≠ code "=") v →
       tail = [] ∨ head tail = Some (code "=") →
       getCsrfToken decode doc = decoded decode v)
  ∧ (∀ pre c post,
       split (code ";") (cookie doc) = pre ++ c :: post →
       Forall (fun p => cookieName p ≠ lit "XSRF-TOKEN") pre →
       trim c = lit "XSRF-TOKEN" →
       getCsrfToken decode doc = decoded decode (lit "undefined")).
Proof.
  intros Hm. unfold getCsrfToken. rewrite Hm. repeat split.
  - apply cookieLoop_none.
  - intros pre c post v tail -> Hpre Ht Hv Htail.
    rewrite (cookieLoop_skip _ _ Hpre). exact (cookieLoop_hit c post v tail Ht Hv Htail).
  - intros pre c post -> Hpre Ht.
    rewrite (cookieLoop_skip _ _ Hpre). exact (cookieLoop_bare c post Ht).
Qed.

End Csrf.

Lemma getCsrfToken_meta_first_witness :
  Page.getCsrfToken inr
    {| Page.csrfMeta := Some (lit "tok-1"); Page.cookie := lit "XSRF-TOKEN=other" |}
  = inr (Some (lit "tok-1")).
Proof.
  apply (getCsrfToken_meta_first inr
           {| Page.csrfMeta := Some (lit "tok-1"); Page.cookie := lit "XSRF-TOKEN=other" |}
           (lit "tok-1")).
  - reflexivity.
  - discriminate.
Defined.

Lemma getCsrfToken_cookie_witness :
  Page.getCsrfToken inr
    {| Page.csrfMeta := None; Page.cookie := lit "theme=dark; XSRF-TOKEN=abc==; a=b" |}
  = inr (Some (lit "abc")).
Proof.
  destruct (getCsrfToken_cookie inr
    {| Page.csrfMeta := None; Page.cookie := lit "theme=dark; XSRF-TOKEN=abc==; a=b" |}
    eq_refl) as (_ & H & _).
  apply (H [lit "theme=dark"] (lit " XSRF-TOKEN=abc==") [lit " a=b"] (lit "abc") (lit "==")).
  - reflexivity.
  - repeat constructor. vm_compute. discriminate.
  - reflexivity.
  - vm_compute. repeat constructor; discriminate.
  - right. reflexivity.
Defined.

(** ** What the patterns accept *)

Section Language.

Implicit Types (r : regex) (k : cont) (s a : jsstring).

Lemma run_lang r : anchorFree r = true → ∀ k i s,
  run r k i s = true
  ↔ ∃ a rest, s = a ++ rest ∧ lang r a ∧ k (i + length a)%nat rest = true.
Proof.
  induction r as [| | |cls|r1 IH1 r2 IH2|r1 IH1 r2 IH2|r1 IH1|cls];
    intros AF k i s; cbn [run lang anchorFree] in *; try discriminate.
  - split.
    + intros H. exists [], s. rewrite Nat.add_0_r. auto.
    + intros (a & rest & -> & -> & H). rewrite Nat.add_0_r in H. exact H.
  - destruct s as [|x s].
    + split; [discriminate|]. intros (a & rest & E & (y & -> & _) & _). discriminate.
    + rewrite andb_true_iff. split.
      * intros [Hx Hk]. exists [x], s. rewrite Nat.add_1_r. eauto 6.
      * intros (a & rest & E & (y & -> & Hy) & Hk). injection E as -> ->.
        rewrite Nat.add_1_r in Hk. auto.
  - apply andb_true_iff in AF as [AF1 AF2]. rewrite (IH1 AF1). split.
    + intros (a1 & rest1 & -> & H1 & Hk). apply (IH2 AF2) in Hk as (a2 & rest & -> & H2 & Hk).
      exists (a1 ++ a2), rest. rewrite <- app_assoc, length_app, Nat.add_assoc.
      split; [reflexivity|]. split; [eauto|exact Hk].
    + intros (a & rest & -> & (a1 & a2 & -> & H1 & H2) & Hk).
      exists a1, (a2 ++ rest). rewrite <- app_assoc. split; [reflexivity|].
      split; [exact H1|]. apply (IH2 AF2). exists a2, rest.
      rewrite length_app, Nat.add_assoc in Hk. auto.
  - apply andb_true_iff in AF as [AF1 AF2].
    rewrite orb_true_iff, (IH1 AF1), (IH2 AF2). split.
    + intros [(a & rest & ? & ? & ?)|(a & rest & ? & ? & ?)]; exists a, rest; auto.
    + intros (a & rest & ? & [?|?] & ?); [left|right]; exists a, rest; auto.
  - rewrite orb_true_iff, (IH1 AF). split.
    + intros [(a & rest & ? & ? & ?)|H]; [exists a, rest; auto|].
      exists [], s. rewrite Nat.add_0_r. auto.
    + intros (a & rest & E & [?| ->] & Hk); [left; exists a, rest; auto|].
      right. rewrite Nat.add_0_r in Hk. subst. exact Hk.
  - rewrite plus_loop_spec. split; intros (a & rest & ? & ? & ?); exists a, rest; tauto.
Qed.

(** A whole-string match of an anchored pattern. *)
Lemma run_whole r s :
  anchorFree r = true → run (Seq r Eol) accept 0 s = true ↔ lang r s.
Proof.
  intros AF. cbn [run]. rewrite (run_lang r AF). split.
  - intros (a & rest & -> & H & Hk). destruct rest; [|discriminate].
    rewrite app_nil_r. exact H.
  - intros H. exists s, []. rewrite app_nil_r. auto.
Qed.

Lemma test_alt_anchored r1 r2 s :
  test (Alt (Seq Bol r1) (Seq Bol r2)) s = run r1 accept 0 s || run r2 accept 0 s.
Proof.
  unfold test. cbn [seq existsb]. unfold matchAt at 1. change (drop 0 s) with s.
  cbn [run Nat.eqb andb].
  destruct (run r1 accept 0 s || run r2 accept 0 s); [reflexivity|]. cbn [orb].
  apply not_true_is_false. intros H.
  apply existsb_exists in H as (i & Hi & Hm). apply in_seq in Hi.
  unfold matchAt in Hm. cbn [run] in Hm.
  destruct i; [lia|]. discriminate.
Qed.

Lemma lang_minLen r : ∀ a, lang r a → (minLen r <= length a)%nat.
Proof.
  induction r as [| | |cls|r1 IH1 r2 IH2|r1 IH1 r2 IH2|r1 IH1|cls];
    intros a H; cbn [lang minLen] in *; try lia.
  - destruct H as (x & -> & _). cbn. lia.
  - destruct H as (a1 & a2 & -> & H1 & H2). rewrite length_app.
    specialize (IH1 _ H1). specialize (IH2 _ H2). lia.
  - destruct H as [H|H]; [specialize (IH1 _ H)|specialize (IH2 _ H)]; lia.
  - destruct H as [Hne _]. destruct a; [contradiction|cbn; lia].
Qed.

Lemma lang_maxLen r : plusFree r = true → ∀ a, lang r a → (length a <= maxLen r)%nat.
Proof.
  induction r as [| | |cls|r1 IH1 r2 IH2|r1 IH1 r2 IH2|r1 IH1|cls];
    intros PF a H; cbn [lang maxLen plusFree] in *; try discriminate; try contradiction.
  - subst. cbn. lia.
  - destruct H as (x & -> & _). cbn. lia.
  - apply andb_true_iff in PF as [P1 P2].
    destruct H as (a1 & a2 & -> & H1 & H2). rewrite length_app.
    specialize (IH1 P1 _ H1). specialize (IH2 P2 _ H2). lia.
  - apply andb_true_iff in PF as [P1 P2].
    destruct H as [H|H]; [specialize (IH1 P1 _ H)|specialize (IH2 P2 _ H)]; lia.
  - destruct H as [H| ->]; [exact (IH1 PF _ H)|cbn; lia].
Qed.

Lemma lang_alphabet r : ∀ a, lang r a → Forall (fun c => alphabet r c = true) a.
Proof.
  induction r as [| | |cls|r1 IH1 r2 IH2|r1 IH1 r2 IH2|r1 IH1|cls];
    intros a H; cbn [lang alphabet] in *; try contradiction.
  - subst. constructor.
  - destruct H as (x & -> & Hx). repeat constructor. exact Hx.
  - destruct H as (a1 & a2 & -> & H1 & H2). apply Forall_app. split.
    + eapply Forall_impl; [exact (IH1 _ H1)|]. cbn. intros c ->. reflexivity.
    + eapply Forall_impl; [exact (IH2 _ H2)|]. cbn. intros c ->. apply orb_true_r.
  - destruct H as [H|H].
    + eapply Forall_impl; [exact (IH1 _ H)|]. cbn. intros c ->. reflexivity.
    + eapply Forall_impl; [exact (IH2 _ H)|]. cbn. intros c ->. apply orb_true_r.
  - destruct H as [H| ->]; [exact (IH1 _ H)|constructor].
  - destruct H as [_ H]. apply Forall_forall. intros c Hc.
    rewrite forallb_forall in H. apply H, list_elem_of_In, Hc.
Qed.

Lemma ukPhoneRe_lang s :
  test ukPhoneRe s = true ↔ lang mobileBody s ∨ lang landlineBody s.
Proof.
  unfold ukPhoneRe. cbn [seqs]. rewrite test_alt_anchored, orb_true_iff.
  rewrite <- (run_whole mobileBody s eq_refl), <- (run_whole landlineBody s eq_refl).
  reflexivity.
Qed.

Lemma postcodeRe_lang s : test postcodeRe s = true ↔ lang postcodeBody s.
Proof.
  unfold postcodeRe. cbn [seqs]. rewrite test_anchored.
  rewrite <- (run_whole postcodeBody s eq_refl). reflexivity.
Qed.


Lemma lang_nil_nullable r : lang r [] → nullable r = true.
Proof.
  induction r as [| | |cls|r1 IH1 r2 IH2|r1 IH1 r2 IH2|r1 IH1|cls];
    intros H; cbn [lang nullable] in *; try contradiction; try reflexivity.
  - destruct H as (x & E & _). discriminate.
  - destruct H as (a1 & a2 & E & H1 & H2). symmetry in E.
    apply app_eq_nil in E as [-> ->]. rewrite IH1, IH2 by assumption. reflexivity.
  - destruct H as [H|H]; [rewrite IH1 by exact H|rewrite IH2 by exact H];
      [reflexivity|apply orb_true_r].
  - destruct H as [H _]. contradiction.
Qed.

Lemma lang_firsts r : ∀ c a, lang r (c :: a) → firsts r c = true.
Proof.
  induction r as [| | |cls|r1 IH1 r2 IH2|r1 IH1 r2 IH2|r1 IH1|cls];
    intros c a H; cbn [lang firsts] in *; try contradiction; try discriminate.
  - destruct H as (x & E & Hx). injection E as -> _. exact Hx.
  - destruct H as (a1 & a2 & E & H1 & H2). destruct a1 as [|x a1].
    + cbn in E. subst a2. rewrite (lang_nil_nullable _ H1), (IH2 _ _ H2).
      apply orb_true_r.
    + cbn in E. injection E as -> _. rewrite (IH1 _ _ H1). reflexivity.
  - destruct H as [H|H]; [rewrite (IH1 _ _ H)|rewrite (IH2 _ _ H)];
      [reflexivity|apply orb_true_r].
  - destruct H as [H|H]; [exact (IH1 _ _ H)|discriminate].
  - destruct H as [_ H]. cbn in H. apply andb_true_iff in H as [H _]. exact H.
Qed.

Lemma lang_lasts r : ∀ c a, lang r (a ++ [c]) → lasts r c = true.
Proof.
  induction r as [| | |cls|r1 IH1 r2 IH2|r1 IH1 r2 IH2|r1 IH1|cls];
    intros c a H; cbn [lang lasts] in *; try contradiction.
  - destruct a; discriminate.
  - destruct H as (x & E & Hx). destruct a as [|y [|z a]]; try discriminate.
    injection E as ->. exact Hx.
  - destruct H as (a1 & a2 & E & H1 & H2).
    destruct (last a2) as [z|] eqn:L.
    + apply last_Some in L as [a2' ->]. rewrite app_assoc in E.
      apply app_inj_tail in E as [_ ->]. rewrite (IH2 _ _ H2). reflexivity.
    + apply last_None in L. subst a2. rewrite app_nil_r in E. subst a1.
      rewrite (lang_nil_nullable _ H2), (IH1 _ _ H1). apply orb_true_r.
  - destruct H as [H|H]; [rewrite (IH1 _ _ H)|rewrite (IH2 _ _ H)];
      [reflexivity|apply orb_true_r].
  - destruct H as [H|H]; [exact (IH1 _ _ H)|destruct a; discriminate].
  - destruct H as [_ H]. rewrite forallb_app in H.
    apply andb_true_iff in H as [_ H]. cbn in H.
    apply andb_true_iff in H as [H _]. exact H.
Qed.

Lemma isWhiteSpace_cases c : isWhiteSpace c = true → c ∈ WHITE_SPACE.
Proof.
  unfold isWhiteSpace. rewrite !orb_true_iff, andb_true_iff, !N.eqb_eq, !N.leb_le.
  intros H. apply list_elem_of_In. unfold WHITE_SPACE. cbn [In].
  assert (0x2000 <= c <= 0x200A →
          c = 0x2000 ∨ c = 0x2001 ∨ c = 0x2002 ∨ c = 0x2003 ∨ c = 0x2004 ∨ c = 0x2005
          ∨ c = 0x2006 ∨ c = 0x2007 ∨ c = 0x2008 ∨ c = 0x2009 ∨ c = 0x200A) as R by lia.
  intuition (subst; auto 30).
Qed.

Lemma escaped_cases c :
  escaped c = true → c ∈ [code "<"; code ">"; 0x22; code "'"; code "/"].
Proof.
  unfold escaped. rewrite !orb_true_iff, !N.eqb_eq.
  intros H. apply list_elem_of_In. cbn [In]. intuition (subst; auto 10).
Qed.

Lemma lang_markupFree r s :
  forallb (fun c => negb (alphabet r c)) [code "<"; code ">"; 0x22; code "'"; code "/"]
  = true →
  lang r s → markupFree s.
Proof.
  intros Hr H. apply lang_alphabet in H. unfold markupFree.
  eapply Forall_impl; [exact H|]. cbn beta. intros c Hc.
  destruct (escaped c) eqn:E; [|reflexivity].
  apply escaped_cases, list_elem_of_In in E.
  rewrite forallb_forall in Hr. apply Hr in E. rewrite Hc in E. discriminate.
Qed.

Lemma lang_startsClean r s :
  forallb (fun c => negb (firsts r c)) WHITE_SPACE = true → lang r s → startsClean s.
Proof.
  intros Hr H. destruct s as [|c s]; [exact I|]. cbn.
  apply lang_firsts in H.
  destruct (isWhiteSpace c) eqn:E; [|reflexivity].
  apply isWhiteSpace_cases, list_elem_of_In in E.
  rewrite forallb_forall in Hr. apply Hr in E. rewrite H in E. discriminate.
Qed.

Lemma lang_endsClean r s :
  forallb (fun c => negb (lasts r c)) WHITE_SPACE = true → lang r s → ¬ endsInSpace s.
Proof.
  intros Hr H (c & L & E). apply last_Some in L as [s' ->].
  apply lang_lasts in H.
  apply isWhiteSpace_cases, list_elem_of_In in E.
  rewrite forallb_forall in Hr. apply Hr in E. rewrite H in E. discriminate.
Qed.

(** A match of a short pattern whose units are never replaced, and which
    neither starts nor ends with white space, is left alone. *)
Lemma lang_sanitize r s :
  plusFree r = true → (maxLen r <= 5000)%nat →
  forallb (fun c => negb (alphabet r c)) [code "<"; code ">"; 0x22; code "'"; code "/"]
  = true →
  forallb (fun c => negb (firsts r c)) WHITE_SPACE = true →
  forallb (fun c => negb (lasts r c)) WHITE_SPACE = true →
  lang r s → sanitizeInput s = s.
Proof.
  intros Hp Hm Ha Hf Hl H. apply sanitizeInput_id.
  - exact (lang_markupFree r s Ha H).
  - exact (lang_startsClean r s Hf H).
  - exact (lang_endsClean r s Hl H).
  - pose proof (lang_maxLen r Hp s H). unfold withinLimit, len, MAX_TEXT_LENGTH. lia.
Qed.

Lemma phone_alphabet c :
  alphabet mobileBody c || alphabet landlineBody c = true →
  digit c = true ∨ c = code "+" ∨ isWhiteSpace c = true.
Proof.
  cbn -[digit isWhiteSpace N.eqb]. rewrite ?orb_false_r.
  rewrite !orb_true_iff, !N.eqb_eq. unfold space.
  intuition (subst; auto).
Qed.

(** X27: a phone number the pattern accepts has 10 to 18 units, all of
    them digits, "+" or white space, and sanitising leaves it unchanged. *)
Theorem ukPhoneRe_accepted s :
  test ukPhoneRe s = true →
  (10 <= length s <= 18)%nat
  ∧ Forall (fun c => digit c = true ∨ c = code "+" ∨ isWhiteSpace c = true) s
  ∧ sanitizeInput s = s.
Proof.
  intros H. apply ukPhoneRe_lang in H.
  assert (L : (10 <= length s <= 18)%nat).
  { destruct H as [H|H].
    - pose proof (lang_minLen _ _ H) as L1.
      pose proof (lang_maxLen mobileBody eq_refl _ H) as L2.
      change (minLen mobileBody) with 11%nat in L1.
      change (maxLen mobileBody) with 16%nat in L2. lia.
    - pose proof (lang_minLen _ _ H) as L1.
      pose proof (lang_maxLen landlineBody eq_refl _ H) as L2.
      change (minLen landlineBody) with 10%nat in L1.
      change (maxLen landlineBody) with 18%nat in L2. lia. }
  split; [exact L|]. split.
  - destruct H as [H|H]; apply lang_alphabet in H;
      (eapply Forall_impl; [exact H|]); cbn beta; intros c Hc;
      apply phone_alphabet; rewrite Hc; [reflexivity|apply orb_true_r].
  - destruct H as [H|H]; (eapply lang_sanitize; [| | | | |exact H]);
      first [reflexivity | apply Nat.leb_le; reflexivity].
Qed.

Lemma canonicalize_split c :
  (¬ 97 <= c <= 122 ∧ canonicalize c = c) ∨ (97 <= c <= 122 ∧ canonicalize c = c - 32).
Proof.
  unfold canonicalize. destruct (inRange "a" "z" c) eqn:E.
  - apply inRange_spec in E. right. split; [exact E|reflexivity].
  - left. split; [|reflexivity]. rewrite <- inRange_spec with (lo := "a") (hi := "z").
    rewrite E. discriminate.
Qed.

Lemma icase_letter c :
  icase (inRange "A" "Z") c = true ↔ 65 <= c <= 90 ∨ 97 <= c <= 122.
Proof.
  unfold icase. rewrite inRange_spec. change (code "A") with 65. change (code "Z") with 90.
  destruct (canonicalize_split c) as [[Hc ->]|[Hc ->]]; lia.
Qed.

Lemma icase_digit c : icase digit c = true ↔ 48 <= c <= 57.
Proof.
  unfold icase, digit. rewrite inRange_spec.
  change (code "0") with 48. change (code "9") with 57.
  destruct (canonicalize_split c) as [[Hc ->]|[Hc ->]]; lia.
Qed.

Lemma icase_space c : icase space c = true ↔ isWhiteSpace c = true.
Proof.
  unfold icase, space.
  destruct (canonicalize_cases c) as [->|[Hc ->]]; [reflexivity|].
  rewrite !isWhiteSpace_ascii_graphic by lia. reflexivity.
Qed.

Lemma icase_union p q c : icase (union p q) c = icase p c || icase q c.
Proof. reflexivity. Qed.

Lemma postcode_alphabet c :
  alphabet postcodeBody c = true →
  (65 <= c <= 90 ∨ 97 <= c <= 122) ∨ 48 <= c <= 57 ∨ isWhiteSpace c = true.
Proof.
  cbn -[icase union isWhiteSpace digit inRange space]. rewrite ?orb_false_r.
  rewrite !icase_union, !orb_true_iff, !icase_letter, !icase_digit, !icase_space.
  tauto.
Qed.

(** X28: a postcode the pattern accepts has 5 to 8 units, all of them
    ASCII letters, digits or white space, and sanitising leaves it
    unchanged. *)
Theorem postcodeRe_accepted s :
  test postcodeRe s = true →
  (5 <= length s <= 8)%nat
  ∧ Forall (fun c => (65 <= c <= 90 ∨ 97 <= c <= 122) ∨ 48 <= c <= 57
                     ∨ isWhiteSpace c = true) s
  ∧ sanitizeInput s = s.
Proof.
  intros H. apply postcodeRe_lang in H.
  pose proof (lang_minLen _ _ H) as L1.
  pose proof (lang_maxLen postcodeBody eq_refl _ H) as L2.
  change (minLen postcodeBody) with 5%nat in L1.
  change (maxLen postcodeBody) with 8%nat in L2.
  split; [lia|]. split.
  - apply lang_alphabet in H. eapply Forall_impl; [exact H|]. exact postcode_alphabet.
  - eapply lang_sanitize; [| | | | |exact H];
      first [reflexivity | apply Nat.leb_le; reflexivity].
Qed.

Lemma escapeHtml_unit_plain c :
  plainUnit c → escapeHtml [c] ≠ [] ∧ Forall plainUnit (escapeHtml [c]).
Proof.
  intros Hc. destruct (escaped c) eqn:E.
  - apply escaped_cases, list_elem_of_In in E. cbn [In] in E.
    destruct E as [<-|[<-|[<-|[<-|[<-|[]]]]]];
      (split; [discriminate|]);
      repeat (constructor; [split; [reflexivity|discriminate]|]); constructor.
  - rewrite escapeHtml_fix by (constructor; [exact E|constructor]).
    split; [discriminate|]. constructor; [exact Hc|constructor].
Qed.

Lemma escapeHtml_plainPart p : plainPart p → plainPart (escapeHtml p).
Proof.
  intros [Hne H]. split.
  - destruct p as [|c p]; [contradiction|].
    change (c :: p) with ([c] ++ p). rewrite escapeHtml_app.
    apply Forall_cons in H as [Hc _].
    destruct (escapeHtml_unit_plain c Hc) as [Hn _].
    destruct (escapeHtml [c]); [contradiction|discriminate].
  - clear Hne. induction H as [|c p Hc _ IH]; [constructor|].
    change (c :: p) with ([c] ++ p). rewrite escapeHtml_app.
    apply Forall_app. split; [apply (escapeHtml_unit_plain c Hc)|exact IH].
Qed.

(** X29: sanitising an email of the accepted shape only replaces
    characters, as long as the result is within 5000 units, and the result
    is again of the accepted shape. *)
Theorem sanitizeInput_keeps_email_shape s :
  EmailShape s → withinLimit (escapeHtml s) →
  sanitizeInput s = escapeHtml s ∧ EmailShape (sanitizeInput s).
Proof.
  intros (loc & dom & tld & -> & Hl & Hd & Ht) Hw.
  assert (Hs : EmailShape (escapeHtml (loc ++ lit "@" ++ dom ++ lit "." ++ tld))).
  { rewrite !escapeHtml_app.
    exists (escapeHtml loc), (escapeHtml dom), (escapeHtml tld).
    split; [reflexivity|]. auto using escapeHtml_plainPart. }
  assert (E : sanitizeInput (loc ++ lit "@" ++ dom ++ lit "." ++ tld)
              = escapeHtml (loc ++ lit "@" ++ dom ++ lit "." ++ tld)).
  { rewrite sanitizeInput_unfold, (EmailShape_trim _ Hs).
    apply take_ge. unfold withinLimit, len in Hw. lia. }
  rewrite E. split; [reflexivity|exact Hs].
Qed.

End Language.

Lemma ukPhoneRe_accepted_witness :
  sanitizeInput (lit "+44 7123 456 789") = lit "+44 7123 456 789".
Proof.
  apply (ukPhoneRe_accepted (lit "+44 7123 456 789")). vm_compute. reflexivity.
Defined.

Lemma postcodeRe_accepted_witness :
  sanitizeInput (lit "SW1A 1AA") = lit "SW1A 1AA".
Proof.
  apply (postcodeRe_accepted (lit "SW1A 1AA")). vm_compute. reflexivity.
Defined.

Lemma sanitizeInput_keeps_email_shape_witness :
  EmailShape (sanitizeInput (lit "o'neil@example.org")).
Proof.
  apply (sanitizeInput_keeps_email_shape (lit "o'neil@example.org")).
  - apply emailRe_shape. vm_compute. reflexivity.
  - vm_compute. discriminate.
Defined.
